(** * banana-mcp: path guard, provider adapter, rate limiter and dispatcher

    A shallow embedding of the TypeScript sources

      - [src/utils/paths.ts], [src/utils/files.ts], [src/utils/validate.ts]
      - [src/providers/geminiProvider.ts] (the current "Nano Banana"
        revision and the earlier generic revision)
      - [src/mcp/server.ts]

    JavaScript numbers are IEEE binary64 values and are modelled by Rocq's
    primitive floats; JavaScript strings by [string], one character per
    UTF-16 code unit, so that the strings of the model are the JavaScript
    strings whose code units are all below 256; the rate-limit [Map] by a
    [gmap]; exceptions by an explicit sum type; the outside world (clock,
    randomness, network, file system) by an oracle record read by the
    handlers and an event trace written by them. *)

From Stdlib Require Import ZArith String Ascii List Bool Lia.
From Stdlib Require Import Floats Uint63.
From stdpp Require Import base gmap strings list.

#[local] Set Warnings "-inexact-float,-register-all".
Local Open Scope Z_scope.

(** ** JavaScript strings *)

Module Str.

(** [s.startsWith(p)] *)
Fixpoint startsWith (s p : string) : bool :=
  match p, s with
  | EmptyString, _ => true
  | String c p', String d s' => if Ascii.eqb c d then startsWith s' p' else false
  | String _ _, EmptyString => false
  end.

(** [s.includes(k)] *)
Fixpoint includes (s k : string) : bool :=
  startsWith s k ||
  match s with
  | EmptyString => false
  | String _ s' => includes s' k
  end.

(** [s.split(sep)] for a one-character separator: never the empty list. *)
Fixpoint split (sep : ascii) (s : string) : list string :=
  match s with
  | EmptyString => [EmptyString]
  | String c s' =>
      if Ascii.eqb c sep then EmptyString :: split sep s'
      else match split sep s' with
           | [] => [String c EmptyString]
           | h :: t => String c h :: t
           end
  end.

(** [l.join(sep)] *)
Fixpoint join (sep : string) (l : list string) : string :=
  match l with
  | [] => EmptyString
  | [x] => x
  | x :: rest => x +:+ sep +:+ join sep rest
  end.

(** [c] does not occur in [s]. *)
Fixpoint lacks (c : ascii) (s : string) : bool :=
  match s with
  | EmptyString => true
  | String d s' => negb (Ascii.eqb d c) && lacks c s'
  end.

Definition truthy (s : string) : bool :=
  match s with EmptyString => false | _ => true end.

(** [s.slice(0, n)] and [s.slice(n)] for [n] within [0 .. s.length] *)
Fixpoint take (n : nat) (s : string) : string :=
  match n, s with
  | S n', String c s' => String c (take n' s')
  | _, _ => EmptyString
  end.

Fixpoint drop (n : nat) (s : string) : string :=
  match n, s with
  | S n', String _ s' => drop n' s'
  | _, _ => s
  end.

Fixpoint map (f : ascii -> ascii) (s : string) : string :=
  match s with
  | EmptyString => EmptyString
  | String c s' => String (f c) (map f s')
  end.

(** The upper-case letters below 256 are [A-Z] and the accented capitals
    U+00C0 to U+00DE without the multiplication sign U+00D7; the
    lower-case form of each is 32 further on. *)
Definition lowerChar (c : ascii) : ascii :=
  let n := Ascii.nat_of_ascii c in
  if ((65 <=? n)%nat && (n <=? 90)%nat)
     || ((192 <=? n)%nat && (n <=? 222)%nat && negb (n =? 215)%nat)
  then Ascii.ascii_of_nat (n + 32) else c.

(** [s.toLowerCase()] *)
Definition toLowerCase (s : string) : string := map lowerChar s.

(** White space and line terminators of the language, among the code
    units below 256: TAB, LF, VT, FF, CR, SP and NBSP. *)
Definition isWhiteSpace (c : ascii) : bool :=
  let n := Ascii.nat_of_ascii c in
  (n =? 32)%nat || ((9 <=? n)%nat && (n <=? 13)%nat) || (n =? 160)%nat.

Fixpoint dropWhile (p : ascii -> bool) (s : string) : string :=
  match s with
  | String c s' => if p c then dropWhile p s' else s
  | EmptyString => s
  end.

Fixpoint dropWhileEnd (p : ascii -> bool) (s : string) : string :=
  match s with
  | EmptyString => EmptyString
  | String c s' =>
      match dropWhileEnd p s' with
      | EmptyString => if p c then EmptyString else String c EmptyString
      | t => String c t
      end
  end.

(** [s.trim()] *)
Definition trim (s : string) : string :=
  dropWhileEnd isWhiteSpace (dropWhile isWhiteSpace s).

(** [\w] *)
Definition isWordChar (c : ascii) : bool :=
  let n := Ascii.nat_of_ascii c in
  ((48 <=? n)%nat && (n <=? 57)%nat) || ((65 <=? n)%nat && (n <=? 90)%nat)
  || ((97 <=? n)%nat && (n <=? 122)%nat) || (n =? 95)%nat.

Fixpoint dropWordChars (s : string) : string :=
  match s with
  | String c s' => if isWordChar c then dropWordChars s' else s
  | EmptyString => s
  end.

End Str.

(** ** JavaScript numbers *)

Module Num.

(** The number of an integer [z] with [0 <= z < 2 ^ 53], which binary64
    holds exactly. *)
Definition of_Z (z : Z) : float := PrimFloat.of_uint63 (Uint63.of_Z z).

Definition eqb (a b : float) : bool := PrimFloat.eqb a b.       (* a === b *)
Definition gtb (a b : float) : bool := PrimFloat.ltb b a.       (* a > b   *)
Definition geb (a b : float) : bool := PrimFloat.leb b a.       (* a >= b  *)
Definition leb (a b : float) : bool := PrimFloat.leb a b.       (* a <= b  *)
Definition div (a b : float) : float := PrimFloat.div a b.      (* a / b   *)

(** [ToBoolean] on a number: [0], [-0] and [NaN] are falsy. *)
Definition truthy (a : float) : bool :=
  negb (PrimFloat.eqb a 0%float) && PrimFloat.eqb a a.

(** [Math.max(a, b)]: [NaN] if either argument is [NaN]. *)
Definition max (a b : float) : float :=
  if negb (PrimFloat.eqb a a) then a
  else if negb (PrimFloat.eqb b b) then b
  else if PrimFloat.ltb a b then b else a.

(** The binary64 value nearest to the rational [p / q], ties to even, for
    [0 <= p] and [0 < q]: [e] is the binary exponent of the quotient, [u]
    the exponent of the last place binary64 keeps there, [m] the quotient
    rounded to a multiple of [2 ^ u]. *)
Definition nearestRatio (p q : Z) : float :=
  if p =? 0 then 0%float
  else
    let e0 := Z.log2 p - Z.log2 q in
    let below := if 0 <=? e0 then p <? q * 2 ^ e0 else p * 2 ^ (- e0) <? q in
    let e := if below then e0 - 1 else e0 in
    if 1024 <=? e then PrimFloat.infinity
    else
      let u := Z.max (e - 52) (-1074) in
      let num := if 0 <=? u then p else p * 2 ^ (- u) in
      let den := if 0 <=? u then q * 2 ^ u else q in
      let m := num / den in
      let r := num mod den in
      let m := if (den <? 2 * r) || ((den =? 2 * r) && Z.odd m) then m + 1 else m in
      Z.ldexp (of_Z m) u.

(** The number of a mathematical integer: itself below [2 ^ 53], the
    nearest binary64 value from there on. *)
Definition nearest (z : Z) : float :=
  let a := Z.abs z in
  let x := if a <? 2 ^ 53 then of_Z a else nearestRatio a 1 in
  if z <? 0 then PrimFloat.opp x else x.

Definition isDigit (c : ascii) : bool :=
  let n := Ascii.nat_of_ascii c in (48 <=? n)%nat && (n <=? 57)%nat.

Definition digitValue (c : ascii) : Z := Z.of_nat (Ascii.nat_of_ascii c) - 48.

Fixpoint allDigits (s : string) : bool :=
  match s with
  | EmptyString => true
  | String c s' => isDigit c && allDigits s'
  end.

(** The value of [c] as a digit in the given radix, letters in either
    case counting from ten. *)
Definition digitIn (radix : Z) (c : ascii) : option Z :=
  let n := Z.of_nat (Ascii.nat_of_ascii c) in
  let v := if (48 <=? n) && (n <=? 57) then n - 48
           else if (97 <=? n) && (n <=? 122) then n - 87
           else if (65 <=? n) && (n <=? 90) then n - 55
           else radix in
  if v <? radix then Some v else None.

Fixpoint valueIn (radix : Z) (s : string) (acc : Z) : option Z :=
  match s with
  | EmptyString => Some acc
  | String c s' =>
      match digitIn radix c with
      | Some d => valueIn radix s' (radix * acc + d)
      | None => None
      end
  end.

(** The integer a run of decimal digits denotes; the empty run gives 0. *)
Definition decimalValue (s : string) : Z := default 0 (valueIn 10 s 0).

(** The decimal digits [s] begins with, and what follows them. *)
Fixpoint spanDigits (s : string) : string * string :=
  match s with
  | String c s' =>
      if isDigit c then let '(d, rest) := spanDigits s' in (String c d, rest)
      else (EmptyString, s)
  | EmptyString => (EmptyString, EmptyString)
  end.

Definition isOneOf (c : ascii) (a b : nat) : bool :=
  let n := Ascii.nat_of_ascii c in (n =? a)%nat || (n =? b)%nat.

(** An optional sign: is it [-], and what follows it. *)
Definition signOf (s : string) : bool * string :=
  match s with
  | String c s' =>
      if (Ascii.nat_of_ascii c =? 45)%nat then (true, s')
      else if (Ascii.nat_of_ascii c =? 43)%nat then (false, s')
      else (false, s)
  | EmptyString => (false, s)
  end.

(** [ExponentPart], optional and reaching to the end of the text. *)
Definition exponentPart (s : string) : option Z :=
  match s with
  | EmptyString => Some 0
  | String c s' =>
      if isOneOf c 101 69 then
        let '(negative, ds) := signOf s' in
        if Str.truthy ds && allDigits ds
        then Some (if negative then - decimalValue ds else decimalValue ds)
        else None
      else None
  end.

(** [StrUnsignedDecimalLiteral] other than [Infinity]: digits with an
    optional fraction and exponent, at least one digit before or after the
    point; the literal denotes [m * 10 ^ e]. *)
Definition unsignedDecimal (s : string) : option (Z * Z) :=
  let '(int, rest) := spanDigits s in
  let '(frac, rest) :=
    match rest with
    | String c t => if (Ascii.nat_of_ascii c =? 46)%nat then spanDigits t
                    else (EmptyString, rest)
    | EmptyString => (EmptyString, rest)
    end in
  if Str.truthy int || Str.truthy frac then
    match exponentPart rest with
    | Some e => Some (decimalValue (int +:+ frac), e - Z.of_nat (String.length frac))
    | None => None
    end
  else None.

(** The number nearest to [m * 10 ^ e] for [0 <= m].  Beyond [10 ^ 400]
    every such value is above the largest number, and below [2 ^ -1080]
    it is nearer to zero than to any other. *)
Definition scale (m e : Z) : float :=
  if m =? 0 then 0%float
  else if 0 <=? e then
    (if 400 <? e then PrimFloat.infinity else nearest (m * 10 ^ e))
  else if Z.log2 m + 1 + 3 * e <? -1080 then 0%float
  else nearestRatio m (10 ^ (- e)).

(** [NonDecimalIntegerLiteral]: [0x], [0o] or [0b], in either case, and at
    least one digit of that radix. *)
Definition nonDecimal (s : string) : option Z :=
  match s with
  | String z (String c ds) =>
      if (Ascii.nat_of_ascii z =? 48)%nat && Str.truthy ds then
        if isOneOf c 120 88 then valueIn 16 ds 0
        else if isOneOf c 111 79 then valueIn 8 ds 0
        else if isOneOf c 98 66 then valueIn 2 ds 0
        else None
      else None
  | _ => None
  end.

(** [StrDecimalLiteral] *)
Definition signedDecimal (s : string) : float :=
  let '(negative, u) := signOf s in
  let x :=
    if String.eqb u "Infinity" then PrimFloat.infinity
    else match unsignedDecimal u with
         | Some (m, e) => scale m e
         | None => PrimFloat.nan
         end in
  if negative then PrimFloat.opp x else x.

(** [Number(s)]: white space around the literal is skipped, nothing but
    white space is [0], and text that is no numeric literal is [NaN]. *)
Definition ofString (s : string) : float :=
  match Str.trim s with
  | EmptyString => 0%float
  | t => match nonDecimal t with
         | Some z => nearest z
         | None => signedDecimal t
         end
  end.

Fixpoint leadingDigits (s : string) (acc : option Z) : option Z :=
  match s with
  | String c s' =>
      if isDigit c
      then leadingDigits s' (Some (10 * default 0 acc + digitValue c))
      else acc
  | EmptyString => acc
  end.

(** [parseInt(s, 10)] as the mathematical integer it reads, [None] where
    the result is [NaN]; the number returned is [nearest] of it. *)
Definition parseInt10 (s : string) : option Z :=
  match Str.dropWhile Str.isWhiteSpace s with
  | String c s' =>
      if Ascii.eqb c (Ascii.ascii_of_nat 45) then Z.opp <$> leadingDigits s' None
      else if Ascii.eqb c (Ascii.ascii_of_nat 43) then leadingDigits s' None
      else leadingDigits (String c s') None
  | EmptyString => None
  end.

End Num.

(** ** Node's [path] module (POSIX flavour)

    [path.basename], [path.join], [path.normalize], [path.resolve] and
    [path.relative] are library functions; they are modelled on the list of
    ["/"]-separated segments of their arguments, which is what Node's
    character scanner [normalizeString] computes. *)

Module Path.

Definition slash : ascii := Ascii.ascii_of_nat 47.
Definition sep : string := String slash EmptyString.

Definition isAbsolute (p : string) : bool :=
  match p with
  | String c _ => Ascii.eqb c slash
  | EmptyString => false
  end.

Definition endsWithSlash (p : string) : bool :=
  match last (Str.split slash p) with
  | Some EmptyString => Str.truthy p
  | _ => false
  end.

(** One segment of [normalizeString]; the stack holds the segments kept
    so far, innermost first. *)
Definition step (allowAboveRoot : bool) (stack : list string) (seg : string)
  : list string :=
  if String.eqb seg "" || String.eqb seg "." then stack
  else if String.eqb seg ".." then
    match stack with
    | top :: below =>
        if String.eqb top ".." then
          (if allowAboveRoot then seg :: stack else stack)
        else below
    | [] => if allowAboveRoot then [seg] else []
    end
  else seg :: stack.

Definition normalizeSegments (allowAboveRoot : bool) (segs : list string)
  : list string :=
  rev (fold_left (step allowAboveRoot) segs []).

Definition normalizeString (path : string) (allowAboveRoot : bool) : string :=
  Str.join sep (normalizeSegments allowAboveRoot (Str.split slash path)).

(** [path.normalize(p)] *)
Definition normalize (path : string) : string :=
  if negb (Str.truthy path) then "."
  else
    let isAbs := isAbsolute path in
    let trailingSeparator := endsWithSlash path in
    let p := normalizeString path (negb isAbs) in
    if negb (Str.truthy p) then
      (if isAbs then sep else if trailingSeparator then "./" else ".")
    else
      let p := if trailingSeparator then p +:+ sep else p in
      if isAbs then sep +:+ p else p.

(** [path.join(...args)] *)
Definition join (args : list string) : string :=
  match filter (fun a => Str.truthy a = true) args with
  | [] => "."
  | parts => normalize (Str.join sep parts)
  end.

(** The right-to-left scan of [path.resolve]: [rargs] are the arguments
    not yet visited, last argument first; the working directory is what
    is visited after the first argument. *)
Fixpoint resolveScan (cwd : string) (rargs : list string) (resolvedPath : string)
  : string * bool :=
  match rargs with
  | [] =>
      if Str.truthy cwd then (cwd +:+ sep +:+ resolvedPath, isAbsolute cwd)
      else (resolvedPath, false)
  | p :: rest =>
      if Str.truthy p then
        let resolvedPath := p +:+ sep +:+ resolvedPath in
        if isAbsolute p then (resolvedPath, true)
        else resolveScan cwd rest resolvedPath
      else resolveScan cwd rest resolvedPath
  end.

(** [path.resolve(...args)] with [process.cwd() = cwd] *)
Definition resolve (cwd : string) (args : list string) : string :=
  let '(resolvedPath, resolvedAbsolute) := resolveScan cwd (rev args) "" in
  let p := normalizeString resolvedPath (negb resolvedAbsolute) in
  if resolvedAbsolute then sep +:+ p
  else if Str.truthy p then p else ".".

(** [path.basename(p)]: the last non-empty segment, [""] if there is none. *)
Definition basename (path : string) : string :=
  fold_left (fun acc seg => if Str.truthy seg then seg else acc)
            (Str.split slash path) "".

(** [path.relative(from, to)] for two already resolved absolute paths. *)
Fixpoint relativeSegments (from to : list string) : list string :=
  match from, to with
  | f :: from', t :: to' =>
      if String.eqb f t then relativeSegments from' to'
      else map (fun _ => "..") from ++ to
  | _, _ => map (fun _ => "..") from ++ to
  end.

Definition segmentsOf (p : string) : list string :=
  filter (fun a => Str.truthy a = true) (Str.split slash p).

Definition relative (from to : string) : string :=
  Str.join sep (relativeSegments (segmentsOf from) (segmentsOf to)).

End Path.

(** ** JavaScript values, exceptions and results *)

(** Values as they come out of [JSON.parse], plus [undefined], which is what
    reading a missing property gives, and the built-in functions, which
    are what reading some inherited properties gives.  Objects are
    association lists of their own properties, read by first match. *)
Inductive value : Type :=
| Undefined
| Null
| Bool (b : bool)
| Number (n : float)
| Str (s : string)
| Arr (items : list value)
| Obj (fields : list (string * value))
| Fn (name : string).

(** What a [throw] carries.  The code only ever distinguishes [Error]
    instances (whose [message] it reads) from other thrown values. *)
Inductive exn : Type :=
| Error (message : string)
| TypeError (message : string)
| ZodError (message : string)
| Thrown (v : value).

Definition result (A : Type) : Type := exn + A.

Definition instanceofError (e : exn) : bool :=
  match e with Thrown _ => false | _ => true end.

Definition messageOf (e : exn) : string :=
  match e with
  | Error m | TypeError m | ZodError m => m
  | Thrown _ => ""
  end.

Module Js.

Fixpoint assoc (k : string) (fields : list (string * value)) : value :=
  match fields with
  | [] => Undefined
  | (k', v) :: rest => if String.eqb k k' then v else assoc k rest
  end.

(** [ToBoolean(v)] *)
Definition truthy (v : value) : bool :=
  match v with
  | Undefined | Null => false
  | Bool b => b
  | Number n => Num.truthy n
  | Str s => Str.truthy s
  | Arr _ | Obj _ | Fn _ => true
  end.

Definition nullish (v : value) : bool :=
  match v with Undefined | Null => true | _ => false end.

Definition isString (v : value) : bool :=
  match v with Str _ => true | _ => false end.

Definition isArray (v : value) : bool :=
  match v with Arr _ => true | _ => false end.

Definition describe (v : value) : string :=
  match v with Undefined => "undefined" | _ => "null" end.

(** [v.k] for a property [k] that no prototype defines: reading from
    [null] or [undefined] throws, primitives and arrays have no such
    property. *)
Definition get (v : value) (k : string) : result value :=
  match v with
  | Undefined | Null =>
      inl (TypeError ("Cannot read properties of " +:+ describe v
                      +:+ " (reading '" +:+ k +:+ "')"))
  | Obj fields => inr (assoc k fields)
  | _ => inr Undefined
  end.

(** [v?.k] *)
Definition getOpt (v : value) (k : string) : value :=
  match v with
  | Obj fields => assoc k fields
  | _ => Undefined
  end.

(** [a || b] *)
Definition or (a b : value) : value := if truthy a then a else b.

(** The methods of [Object.prototype]. *)
Definition objectMethods : list string :=
  [ "__defineGetter__"; "__defineSetter__"; "__lookupGetter__"; "__lookupSetter__";
    "hasOwnProperty"; "isPrototypeOf"; "propertyIsEnumerable";
    "toLocaleString"; "toString"; "valueOf" ].

(** What a plain object inherits under the key [k]: [__proto__] is
    [Object.prototype] itself, an object without enumerable properties of
    its own, [constructor] is the function [Object], and the methods are
    functions of their own name. *)
Definition inherited (k : string) : value :=
  if String.eqb k "__proto__" then Obj []
  else if String.eqb k "constructor" then Fn "Object"
  else if existsb (String.eqb k) objectMethods then Fn k
  else Undefined.

(** [table[k]] for an object literal [table] and any string [k]: the own
    property if there is one, what is inherited otherwise. *)
Definition member (table : list (string * value)) (k : string) : value :=
  if existsb (fun entry => String.eqb k (fst entry)) table then assoc k table
  else inherited k.

(** The text of a built-in function in a template literal. *)
Definition functionText (name : string) : string :=
  "function " +:+ name +:+ "() { [native code] }".

End Js.

Definition bind {A B : Type} (r : result A) (k : A -> result B) : result B :=
  match r with
  | inl e => inl e
  | inr a => k a
  end.

Notation "'do' x <- r ; k" := (bind r (fun x => k))
  (at level 10, x name, r at level 100, k at level 200).

(** Decimal rendering of an integer, as template literals do. *)
Module Show.

Definition digit (n : Z) : ascii := Ascii.ascii_of_nat (48 + Z.to_nat n).

Fixpoint digits (fuel : nat) (n : Z) (acc : string) : string :=
  match fuel with
  | O => acc
  | S fuel' =>
      let acc' := String (digit (n mod 10)) acc in
      if n / 10 =? 0 then acc' else digits fuel' (n / 10) acc'
  end.

Definition ofZ (n : Z) : string :=
  if n <? 0 then "-" +:+ digits (Z.to_nat (Z.log2 (- n)) + 1) (- n) ""
  else digits (Z.to_nat (Z.log2 n) + 1) n "".

(** For the number [x = m * 2 ^ u] with [2 ^ 52 <= m < 2 ^ 53] and
    [0 < u]: the multiple of [10 ^ j], for the largest [j] there is one,
    that reads back as [x], and among those the one nearest to [x].  The
    bounds of what reads back as [x] are taken four times over, to stay
    with integers. *)
Fixpoint shortest (j : nat) (m u : Z) : Z :=
  let x := m * 2 ^ u in
  let unit := 4 * 10 ^ Z.of_nat j in
  let lo := 4 * x - (if m =? 2 ^ 52 then 2 ^ u else 2 ^ (u + 1)) in
  let hi := 4 * x + 2 ^ (u + 1) in
  let closed := Z.even m in
  let sLo := if closed then (lo + unit - 1) / unit else lo / unit + 1 in
  let sHi := if closed then hi / unit else (hi - 1) / unit in
  if (sLo <=? sHi) && (1 <=? sHi) then
    let q := (4 * x) / unit in
    let r := (4 * x) mod unit in
    let s := if (unit <? 2 * r) || ((unit =? 2 * r) && Z.odd q) then q + 1 else q in
    Z.max sLo (Z.min sHi s) * 10 ^ Z.of_nat j
  else
    match j with
    | O => x
    | S j' => shortest j' m u
    end.

Fixpoint stripZeros (fuel : nat) (v : Z) : Z :=
  match fuel with
  | O => v
  | S fuel' => if v mod 10 =? 0 then stripZeros fuel' (v / 10) else v
  end.

(** [String(x)] for the number [x] of the integer [n] (see [Num.nearest]):
    the digits of [n] below [2 ^ 53]; from there on the shortest digits
    that read back as [x], in exponent form from [1e21], and [Infinity]
    beyond the largest number. *)
Definition ofNumber (n : Z) : string :=
  let a := Z.abs n in
  let sign := if n <? 0 then "-" else "" in
  if a <? 2 ^ 53 then ofZ n
  else
    let u := Z.log2 a - 52 in
    let m := a / 2 ^ u in
    let r := a mod 2 ^ u in
    let m := if (2 ^ u <? 2 * r) || ((2 ^ u =? 2 * r) && Z.odd m) then m + 1 else m in
    let '(m, u) := if m =? 2 ^ 53 then (2 ^ 52, u + 1) else (m, u) in
    if 1024 <=? u + 52 then sign +:+ "Infinity"
    else
      let v := shortest (Z.to_nat (Z.log2 a / 3)) m u in
      let text := ofZ v in
      let n := String.length text in
      if (n <=? 21)%nat then sign +:+ text
      else
        match ofZ (stripZeros n v) with
        | String d EmptyString =>
            sign +:+ String d EmptyString +:+ "e+" +:+ ofZ (Z.of_nat n - 1)
        | String d rest =>
            sign +:+ String d EmptyString +:+ "." +:+ rest +:+ "e+" +:+ ofZ (Z.of_nat n - 1)
        | EmptyString => sign +:+ text
        end.

End Show.

(** ** The input schemas ([src/utils/validate.ts])

    The schema library is modelled by what it accepts and what it returns
    (defaults filled in); the text it puts in the message of the error it
    throws is left to [Zod.message]'s argument. *)

Module Zod.

Inductive IssueCode := invalid_type | too_small | too_big | invalid_enum_value.

Record Issue := { issuePath : list string; issueCode : IssueCode; received : value }.

Definition V (A : Type) : Type := list Issue + A.

Definition issues {A} (r : V A) : list Issue :=
  match r with inl l => l | inr _ => [] end.

(** [z.string().min(lo).max(hi)]; [hi = None] when there is no [max]. *)
Definition string_ (lo : nat) (hi : option nat) (path : string) (v : value) : V string :=
  match v with
  | Str s =>
      if (String.length s <? lo)%nat
      then inl [ {| issuePath := [path]; issueCode := too_small; received := v |} ]
      else match hi with
           | Some h =>
               if (h <? String.length s)%nat
               then inl [ {| issuePath := [path]; issueCode := too_big; received := v |} ]
               else inr s
           | None => inr s
           end
  | _ => inl [ {| issuePath := [path]; issueCode := invalid_type; received := v |} ]
  end.

(** [z.enum(options)] *)
Definition enum (options : list string) (path : string) (v : value) : V string :=
  match v with
  | Str s =>
      if existsb (String.eqb s) options then inr s
      else inl [ {| issuePath := [path]; issueCode := invalid_enum_value; received := v |} ]
  | _ => inl [ {| issuePath := [path]; issueCode := invalid_type; received := v |} ]
  end.

(** [schema.default(d)] *)
Definition default {A} (schema : string -> value -> V A) (d : A)
           (path : string) (v : value) : V A :=
  match v with
  | Undefined => inr d
  | _ => schema path v
  end.

(** [schema.optional()] *)
Definition optional {A} (schema : string -> value -> V A)
           (path : string) (v : value) : V (option A) :=
  match v with
  | Undefined => inr None
  | _ => match schema path v with
         | inl l => inl l
         | inr a => inr (Some a)
         end
  end.

Definition promptSchema := string_ 1 (Some 2000%nat).
Definition styleSchema :=
  enum ["illustration"; "3d"; "flat"; "photoreal"; "anime"; "pixel"].
Definition sizeSchema := enum ["1024x1024"; "1024x1536"; "1536x1024"].
Definition iconSizeSchema := enum ["256x256"; "512x512"].
Definition backgroundSchema := enum ["transparent"; "solid"].
Definition outputFormatSchema := enum ["png"; "webp"].
Definition themeSchema := enum ["minimal"; "playful"; "corporate"].

Record GenerateImageInput := {
  gi_prompt : string;
  gi_style : string;
  gi_size : string;
  gi_background : string;
  gi_output_format : string;
  gi_output_path : option string
}.

Record GenerateIconInput := {
  gc_concept : string;
  gc_theme : string;
  gc_size : string;
  gc_output_format : string
}.

Record GenerateHeroInput := {
  gh_product_name : string;
  gh_tagline : string;
  gh_vibe : option string;
  gh_size : string;
  gh_output_format : string
}.

Record BeautifyScreenshotInput := {
  bs_input_image_path : string;
  bs_goal : string;
  bs_output_format : string
}.

Definition notAnObject (v : value) : list Issue :=
  [ {| issuePath := []; issueCode := invalid_type; received := v |} ].

Definition generateImageInputSchema (args : value) : V GenerateImageInput :=
  match args with
  | Obj f =>
      let prompt := promptSchema "prompt" (Js.assoc "prompt" f) in
      let style := default styleSchema "illustration" "style" (Js.assoc "style" f) in
      let size := default sizeSchema "1024x1024" "size" (Js.assoc "size" f) in
      let background :=
        default backgroundSchema "solid" "background" (Js.assoc "background" f) in
      let output_format :=
        default outputFormatSchema "png" "output_format" (Js.assoc "output_format" f) in
      let output_path :=
        optional (string_ 0 None) "output_path" (Js.assoc "output_path" f) in
      match prompt, style, size, background, output_format, output_path with
      | inr a, inr b, inr c, inr d, inr e, inr g =>
          inr {| gi_prompt := a; gi_style := b; gi_size := c; gi_background := d;
                 gi_output_format := e; gi_output_path := g |}
      | _, _, _, _, _, _ =>
          inl (issues prompt ++ issues style ++ issues size ++ issues background
               ++ issues output_format ++ issues output_path)
      end
  | _ => inl (notAnObject args)
  end.

Definition generateIconInputSchema (args : value) : V GenerateIconInput :=
  match args with
  | Obj f =>
      let concept := promptSchema "concept" (Js.assoc "concept" f) in
      let theme := default themeSchema "minimal" "theme" (Js.assoc "theme" f) in
      let size := default iconSizeSchema "512x512" "size" (Js.assoc "size" f) in
      let output_format :=
        default outputFormatSchema "png" "output_format" (Js.assoc "output_format" f) in
      match concept, theme, size, output_format with
      | inr a, inr b, inr c, inr d =>
          inr {| gc_concept := a; gc_theme := b; gc_size := c; gc_output_format := d |}
      | _, _, _, _ =>
          inl (issues concept ++ issues theme ++ issues size ++ issues output_format)
      end
  | _ => inl (notAnObject args)
  end.

Definition generateHeroInputSchema (args : value) : V GenerateHeroInput :=
  match args with
  | Obj f =>
      let product_name :=
        string_ 1 (Some 200%nat) "product_name" (Js.assoc "product_name" f) in
      let tagline := string_ 1 (Some 500%nat) "tagline" (Js.assoc "tagline" f) in
      let vibe := optional (string_ 0 (Some 200%nat)) "vibe" (Js.assoc "vibe" f) in
      let size := default sizeSchema "1536x1024" "size" (Js.assoc "size" f) in
      let output_format :=
        default outputFormatSchema "png" "output_format" (Js.assoc "output_format" f) in
      match product_name, tagline, vibe, size, output_format with
      | inr a, inr b, inr c, inr d, inr e =>
          inr {| gh_product_name := a; gh_tagline := b; gh_vibe := c; gh_size := d;
                 gh_output_format := e |}
      | _, _, _, _, _ =>
          inl (issues product_name ++ issues tagline ++ issues vibe ++ issues size
               ++ issues output_format)
      end
  | _ => inl (notAnObject args)
  end.

Definition beautifyScreenshotInputSchema (args : value) : V BeautifyScreenshotInput :=
  match args with
  | Obj f =>
      let input_image_path :=
        string_ 1 None "input_image_path" (Js.assoc "input_image_path" f) in
      let goal := string_ 1 (Some 1000%nat) "goal" (Js.assoc "goal" f) in
      let output_format :=
        default outputFormatSchema "png" "output_format" (Js.assoc "output_format" f) in
      match input_image_path, goal, output_format with
      | inr a, inr b, inr c =>
          inr {| bs_input_image_path := a; bs_goal := b; bs_output_format := c |}
      | _, _, _ => inl (issues input_image_path ++ issues goal ++ issues output_format)
      end
  | _ => inl (notAnObject args)
  end.

(** [schema.parse(args)]: returns the parsed input or throws a [ZodError]
    whose message is the library's rendering of the issues. *)
Definition parse {A} (message : list Issue -> string)
           (schema : value -> V A) (args : value) : result A :=
  match schema args with
  | inl l => inl (ZodError (message l))
  | inr a => inr a
  end.

End Zod.

(** ** The outside world

    One tool call reads the clock, the random generator, the network and
    the file system.  What they answer during the call is an [Oracle]; what
    the call asks of them is recorded, in order, in the [trace] of the
    [World], next to the one piece of state the server keeps between calls,
    the rate-limit map. *)

Record Response := {
  ok : bool;
  status : Z;
  statusText : string;
  text : result string;          (* await response.text() *)
  json : result value;           (* await response.json() *)
  arrayBuffer : result string    (* await response.arrayBuffer() *)
}.

Inductive Buffer :=
| BufferFromBase64 (base64 : string)
| BufferFromBody (bytes : string).

(** The calls a tool call makes: [fetch(endpoint, {method: 'POST', headers,
    body})], [fetch(url)], [fs.mkdir(path, ...)] and [fs.writeFile(path,
    content)]. *)
Inductive event :=
| FetchApi (endpoint : string) (headers : list (string * string)) (body : value)
| FetchUrl (url : value)
| Mkdir (path : string)
| WriteFile (path : string) (content : Buffer).

(** The three places that call [ensureOutputsDir]. *)
Inductive EnsureSite := InWriteBase64Image | InDownloadImage | InWriteImageBuffer.

Record Oracle := {
  dateNow : Z;                          (* Date.now() *)
  isoString : string;                   (* new Date().toISOString() *)
  randomHex : string;                   (* crypto.randomBytes(4).toString('hex') *)
  isUrl : string -> bool;               (* does new URL(s) accept the text *)
  apiFetch : result Response;           (* the POST to the provider *)
  urlFetch : result Response;           (* the GET of a returned image URL *)
  fsAccess : EnsureSite -> bool;        (* does fs.access(outputsDir) succeed *)
  fsMkdir : EnsureSite -> option exn;   (* what fs.mkdir throws, if anything *)
  fsWriteFile : string -> option exn    (* what fs.writeFile throws, if anything *)
}.

Record World := {
  rateLimitMap : gmap string (list Z);
  trace : list event
}.

(** Before it sends anything, [fetch] parses the resource as a URL and
    then looks at the request headers: each value is stripped of HTTP
    white space (TAB, LF, CR, SP) at both ends, and a value that then still
    holds a NUL, LF or CR makes the call fail with a [TypeError] that
    quotes the value. *)
Module Fetch.

Definition isHttpWhiteSpace (c : ascii) : bool :=
  let n := Ascii.nat_of_ascii c in
  (n =? 9)%nat || (n =? 10)%nat || (n =? 13)%nat || (n =? 32)%nat.

Definition headerValueNormalize (v : string) : string :=
  Str.dropWhileEnd isHttpWhiteSpace (Str.dropWhile isHttpWhiteSpace v).

Definition isValidHeaderValue (v : string) : bool :=
  Str.lacks (Ascii.ascii_of_nat 0) v && Str.lacks (Ascii.ascii_of_nat 10) v
  && Str.lacks (Ascii.ascii_of_nat 13) v.

Definition doubleQuote : string := String (Ascii.ascii_of_nat 34) EmptyString.

Definition invalidHeaderValue (v : string) : exn :=
  TypeError ("Headers.append: " +:+ doubleQuote +:+ v +:+ doubleQuote
             +:+ " is an invalid header value.").

Fixpoint checkHeaders (headers : list (string * string)) : option exn :=
  match headers with
  | [] => None
  | (_, v) :: rest =>
      let v := headerValueNormalize v in
      if isValidHeaderValue v then checkHeaders rest else Some (invalidHeaderValue v)
  end.

(** What [await fetch(resource, {headers, ...})] gives, where [answer] is
    what it gives for this resource when nothing is wrong with the
    headers: the rejection of the resource if it does not parse as a URL,
    the answer of the network if it does. *)
Definition fetch (parses : bool) (headers : list (string * string))
           (answer : result Response) : result Response :=
  if parses then
    match checkHeaders headers with
    | Some e => inl e
    | None => answer
    end
  else answer.

End Fetch.

Definition M (A : Type) : Type := World -> result A * World.

Definition ret {A} (a : A) : M A := fun w => (inr a, w).

Definition throw {A} (e : exn) : M A := fun w => (inl e, w).

Definition lift {A} (r : result A) : M A := fun w => (r, w).

Definition bindM {A B} (m : M A) (k : A -> M B) : M B :=
  fun w =>
    match m w with
    | (inl e, w') => (inl e, w')
    | (inr a, w') => k a w'
    end.

(** [try { m } catch (error) { handler(error) }] *)
Definition tryCatch {A} (m : M A) (handler : exn -> M A) : M A :=
  fun w =>
    match m w with
    | (inl e, w') => handler e w'
    | (inr a, w') => (inr a, w')
    end.

Definition emit (e : event) : M unit :=
  fun w => (inr tt, {| rateLimitMap := rateLimitMap w; trace := trace w ++ [e] |}).

Definition raiseIf (o : option exn) : M unit :=
  match o with
  | Some e => throw e
  | None => ret tt
  end.

Notation "'let*' x := m 'in' k" := (bindM m (fun x => k))
  (at level 10, x name, m at level 100, k at level 200).
Notation "m ;; k" := (bindM m (fun _ => k))
  (at level 100, k at level 200, right associativity).

(** ** The provider interface ([src/providers/imageProvider.ts]) *)

Record ImageGenerationOptions := {
  prompt : string;
  style : option string;
  size : option string;
  background : option string;
  format : option string
}.

Inductive DataFormat := base64 | url.

Record ImageGenerationResult := {
  data : value;
  dataFormat : DataFormat;
  width : float;
  height : option float      (* [None]: [undefined] *)
}.

Record ImageProvider := {
  generateImage : ImageGenerationOptions -> Oracle -> M ImageGenerationResult;
  isConfigured : bool;
  getName : string
}.

(** [parseSize] of [src/utils/files.ts] *)
Definition parseSize (size : string) : float * option float :=
  match List.map Num.ofString (Str.split (Ascii.ascii_of_nat 120) size) with
  | w :: h :: _ => (w, Some h)
  | [w] => (w, None)
  | [] => (PrimFloat.nan, None)
  end.

(** [ToNumber] of a possibly [undefined] number *)
Definition toNumber (n : option float) : float := default PrimFloat.nan n.

(** ** The provider adapter, current revision *)

Record GeminiConfig := { apiKey : string; baseUrl : string; model : string }.

Module GeminiProvider.

(** [isConfigured()] *)
Definition isConfigured (config : GeminiConfig) : bool :=
  Str.truthy (apiKey config) && Str.truthy (baseUrl config).

Definition getName : string := "Gemini Nano Banana".

(** [getAspectRatio(width, height)] *)
Definition getAspectRatio (width height : float) : string :=
  if Num.eqb width height then "1:1"
  else if Num.gtb width height then
    let ratio := Num.div width height in
    if Num.geb ratio 1.4%float && Num.leb ratio 1.6%float then "3:2"
    else if Num.geb ratio 1.7%float then "16:9"
    else "4:3"
  else
    let ratio := Num.div height width in
    if Num.geb ratio 1.4%float && Num.leb ratio 1.6%float then "2:3"
    else if Num.geb ratio 1.7%float then "9:16"
    else "3:4".

(** [getImageSize(width, height)] *)
Definition getImageSize (width height : float) : string :=
  let maxDim := Num.max width height in
  if Num.leb maxDim (Num.of_Z 1024) then "1K"
  else if Num.leb maxDim (Num.of_Z 2048) then "2K"
  else "4K".

Definition styleDescriptions : list (string * value) :=
  [ ("3d", Str "3D rendered style"); ("flat", Str "flat design style");
    ("photoreal", Str "photorealistic style"); ("anime", Str "anime art style");
    ("pixel", Str "pixel art style") ].

(** [`${styleDescriptions[style] || style}`] *)
Definition describeStyle (style : string) : string :=
  match Js.or (Js.member styleDescriptions style) (Str style) with
  | Str description => description
  | Fn name => Js.functionText name
  | Obj _ => "[object Object]"
  | _ => style
  end.

Definition orDefaultSize (size : option string) : string :=
  match size with
  | Some s => if Str.truthy s then s else "1024x1024"
  | None => "1024x1024"
  end.

(** [buildRequestBody(options)] *)
Definition buildRequestBody (options : ImageGenerationOptions) : value :=
  let '(width, height) := parseSize (orDefaultSize (size options)) in
  let height := toNumber height in
  let enhancedPrompt := prompt options in
  let enhancedPrompt :=
    match style options with
    | Some st =>
        if Str.truthy st && negb (String.eqb st "illustration")
        then describeStyle st +:+ ", " +:+ enhancedPrompt
        else enhancedPrompt
    | None => enhancedPrompt
    end in
  let enhancedPrompt :=
    match background options with
    | Some "transparent" => enhancedPrompt +:+ ", transparent background"
    | _ => enhancedPrompt
    end in
  let aspectRatio := getAspectRatio width height in
  Obj [ ("contents", Arr [ Obj [ ("parts", Arr [ Obj [ ("text", Str enhancedPrompt) ] ]) ] ]);
        ("generationConfig",
          Obj [ ("responseModalities", Arr [ Str "IMAGE" ]);
                ("imageConfig",
                  Obj [ ("aspectRatio", Str aspectRatio);
                        ("imageSize", Str (getImageSize width height)) ]) ]) ].

(** The inner loop of [parseResponse]: the first part whose
    [inline_data?.data] is truthy. *)
Fixpoint scanParts (parts : list value) : result (option value) :=
  match parts with
  | [] => inr None
  | part :: rest =>
      do inline_data <- Js.get part "inline_data";
      let d := Js.getOpt inline_data "data" in
      if Js.truthy d then inr (Some d) else scanParts rest
  end.

(** [for (const part of parts)] on a truthy [parts]: arrays are walked,
    a string yields one-character strings, none of which has
    [inline_data], and nothing else is iterable. *)
Definition iterateParts (parts : value) : result (option value) :=
  match parts with
  | Arr items => scanParts items
  | Str _ => inr None
  | _ => inl (TypeError "candidate.content.parts is not iterable")
  end.

(** The outer loop of [parseResponse]. *)
Fixpoint scanCandidates (candidates : list value) : result (option value) :=
  match candidates with
  | [] => inr None
  | candidate :: rest =>
      do content <- Js.get candidate "content";
      let parts := Js.getOpt content "parts" in
      if Js.truthy parts then
        do found <- iterateParts parts;
        match found with
        | Some d => inr (Some d)
        | None => scanCandidates rest
        end
      else scanCandidates rest
  end.

Definition unparseable : string :=
  "Unable to parse image from Gemini response. Expected format: candidates[0].content.parts[].inline_data.data".

Definition formatOf (s : string) : DataFormat :=
  if Str.startsWith s "http" then url else base64.

(** [parseResponse(response, size)] *)
Definition parseResponse (response : value) (size : string)
  : result ImageGenerationResult :=
  let '(width, height) := parseSize size in
  let found dat fmt :=
    inr {| data := dat; dataFormat := fmt; width := width; height := height |} in
  do candidates <- Js.get response "candidates";
  do official <-
    match candidates with
    | Arr items => scanCandidates items
    | _ => inr None
    end;
  match official with
  | Some d => found d base64
  | None =>
      match Js.getOpt response "image" with
      | Str (String c i) => found (Str (String c i)) (formatOf (String c i))
      | _ =>
          match Js.getOpt response "data" with
          | Str (String c d) => found (Str (String c d)) (formatOf (String c d))
          | _ =>
              match Js.getOpt response "url" with
              | Str (String c u) => found (Str (String c u)) url
              | _ => inl (Error unparseable)
              end
          end
      end
  end.

Definition errorText (e : exn) : string :=
  if instanceofError e then messageOf e else "Unknown error".

Definition notConfigured : string :=
  "Gemini provider not configured. Set GEMINI_API_KEY in your .env file".

(** [generateImage(options)] *)
Definition generateImage (config : GeminiConfig)
           (options : ImageGenerationOptions) (o : Oracle) : M ImageGenerationResult :=
  if negb (isConfigured config) then throw (Error notConfigured)
  else
    let requestBody := buildRequestBody options in
    let endpoint :=
      baseUrl config +:+ "/v1beta/models/" +:+ model config +:+ ":generateContent" in
    let headers :=
      [ ("Content-Type", "application/json"); ("x-goog-api-key", apiKey config) ] in
    tryCatch
      (emit (FetchApi endpoint headers requestBody) ;;
       let* response := lift (Fetch.fetch (isUrl o endpoint) headers (apiFetch o)) in
       (if negb (ok response) then
          (let* _ := lift (text response) in
           throw (Error ("Gemini API error: " +:+ Show.ofZ (status response)
                         +:+ " " +:+ statusText response)))
        else ret tt) ;;
       let* body := lift (json response) in
       lift (parseResponse body (orDefaultSize (size options))))
      (fun error => throw (Error ("Image generation failed: " +:+ errorText error))).

(** [new GeminiProvider()] seen through the [ImageProvider] interface *)
Definition provider (config : GeminiConfig) : ImageProvider :=
  Build_ImageProvider (generateImage config) (isConfigured config) getName.

End GeminiProvider.

(** ** The provider adapter, earlier revision

    [parseResponse] of the generic adapter that the current revision
    replaced; it knows no [candidates] and has two further fallbacks. *)

Module GeminiProviderLegacy.

Definition unparseable : string :=
  "Unable to parse image from Gemini response. Check geminiProvider.ts parseResponse()".

(** [parseResponse(response, size)] *)
Definition parseResponse (response : value) (size : string)
  : result ImageGenerationResult :=
  let '(width, height) := parseSize size in
  let found dat fmt :=
    inr {| data := dat; dataFormat := fmt; width := width; height := height |} in
  do image <- Js.get response "image";
  match image with
  | Str (String c i) =>
      found image (GeminiProvider.formatOf (String c i))
  | _ =>
      match Js.getOpt response "data" with
      | Str (String c d) => found (Str (String c d)) (GeminiProvider.formatOf (String c d))
      | _ =>
          match Js.getOpt response "url" with
          | Str (String c u) => found (Str (String c u)) url
          | _ =>
              let nested :=
                Js.or (Js.getOpt (Js.getOpt response "result") "image")
                      (Js.getOpt (Js.getOpt response "output") "image") in
              if Js.truthy nested then
                match nested with
                | Str s => found nested (GeminiProvider.formatOf s)
                | _ => inl (TypeError "imageData.startsWith is not a function")
                end
              else
                match Js.getOpt response "images" with
                | Arr (imageData :: _) =>
                    match imageData with
                    | Str s => found imageData (GeminiProvider.formatOf s)
                    | _ =>
                        do u <- Js.get imageData "url";
                        do d <- Js.get imageData "data";
                        found (Js.or u d) base64
                    end
                | _ => inl (Error unparseable)
                end
          end
      end
  end.

End GeminiProviderLegacy.

(** ** Process configuration *)

Record ProcessEnv := {
  GEMINI_API_KEY : option string;
  GEMINI_BASE_URL : option string;
  GEMINI_MODEL : option string;
  RATE_LIMIT_PER_MINUTE : option string;
  OUTPUT_DIR_ : option string
}.

(** [process.env.X || fallback] *)
Definition orElse (v : option string) (fallback : string) : string :=
  match v with
  | Some s => if Str.truthy s then s else fallback
  | None => fallback
  end.

(** The constructor of [GeminiProvider] *)
Definition geminiConfig (env : ProcessEnv) : GeminiConfig :=
  {| apiKey := orElse (GEMINI_API_KEY env) "";
     baseUrl := orElse (GEMINI_BASE_URL env) "https://generativelanguage.googleapis.com";
     model := orElse (GEMINI_MODEL env) "gemini-2.5-flash-image" |}.

(** What a handler returns: one text item holding [JSON.stringify] of an
    object; the object is kept instead of its rendering. *)
Inductive JsonText := Stringify (v : value) (pretty : bool).

Record TextContent := { ctype : string; ctext : JsonText }.

Record ToolResponse := { content : list TextContent }.

Definition textResponse (v : value) (pretty : bool) : ToolResponse :=
  {| content := [ {| ctype := "text"; ctext := Stringify v pretty |} ] |}.

Section Server.

Variable env : ProcessEnv.
(** [process.cwd()] *)
Variable cwd : string.
(** [__dirname] of [utils/paths] is ["/"] followed by [moduleDir]. *)
Variable moduleDir : string.
(** The text of a [ZodError]. *)
Variable zodMessage : list Zod.Issue -> string.

(** *** [src/utils/paths.ts] *)

Definition __dirname : string := Path.sep +:+ moduleDir.

Definition PROJECT_ROOT : string := Path.resolve cwd [__dirname; ".."; ".."].

Definition OUTPUT_DIR : string := orElse (OUTPUT_DIR_ env) "./outputs".

Definition OUTPUTS_PATH : string := Path.resolve cwd [PROJECT_ROOT; OUTPUT_DIR].

Definition safeJoinOutputs (filename : string) : result string :=
  let safeName := Path.basename filename in
  let fullPath := Path.join [OUTPUTS_PATH; safeName] in
  let resolvedPath := Path.resolve cwd [fullPath] in
  if negb (Str.startsWith resolvedPath OUTPUTS_PATH)
  then inl (Error "Invalid output path: path traversal detected")
  else inr resolvedPath.

Definition validateOutputPath (filePath : string) : result string :=
  let resolvedPath := Path.resolve cwd [PROJECT_ROOT; filePath] in
  if negb (Str.startsWith resolvedPath OUTPUTS_PATH)
  then inl (Error "Invalid output path: must be within outputs directory")
  else inr resolvedPath.

Definition getOutputsDir : string := OUTPUTS_PATH.

Definition toRelativePath (absolutePath : string) : string :=
  Path.relative PROJECT_ROOT absolutePath.

(** *** [src/utils/files.ts] *)

Definition colonOrPeriodToDash (c : ascii) : ascii :=
  let n := Ascii.nat_of_ascii c in
  if (n =? 58)%nat || (n =? 46)%nat then Ascii.ascii_of_nat 45 else c.

Definition generateFilename (toolName extension : string) (o : Oracle) : string :=
  let timestamp := Str.take 19 (Str.map colonOrPeriodToDash (isoString o)) in
  let hash := randomHex o in
  toolName +:+ "_" +:+ timestamp +:+ "_" +:+ hash +:+ "." +:+ extension.

Definition ensureOutputsDir (site : EnsureSite) (o : Oracle) : M unit :=
  let outputsDir := getOutputsDir in
  if fsAccess o site then ret tt
  else emit (Mkdir outputsDir) ;; raiseIf (fsMkdir o site).

(** [base64Data.replace(/^data:image\/\w+;base64,/, '')] *)
Definition stripDataUrlPrefix (s : string) : string :=
  if Str.startsWith s "data:image/" then
    let afterSlash := Str.drop 11 s in
    let afterWord := Str.dropWordChars afterSlash in
    if (String.length afterWord <? String.length afterSlash)%nat
       && Str.startsWith afterWord ";base64,"
    then Str.drop 8 afterWord
    else s
  else s.

Definition writeBase64Image (base64Data : value) (filename : string) (o : Oracle)
  : M string :=
  ensureOutputsDir InWriteBase64Image o ;;
  let* base64Clean :=
    match base64Data with
    | Str s => ret (stripDataUrlPrefix s)
    | Undefined | Null =>
        throw (TypeError ("Cannot read properties of " +:+ Js.describe base64Data
                          +:+ " (reading 'replace')"))
    | _ => throw (TypeError "base64Data.replace is not a function")
    end in
  let buffer := BufferFromBase64 base64Clean in
  let* filePath := lift (safeJoinOutputs filename) in
  emit (WriteFile filePath buffer) ;;
  raiseIf (fsWriteFile o filePath) ;;
  ret filePath.

Definition writeImageBuffer (buffer : Buffer) (filename : string) (o : Oracle)
  : M string :=
  ensureOutputsDir InWriteImageBuffer o ;;
  let* filePath := lift (safeJoinOutputs filename) in
  emit (WriteFile filePath buffer) ;;
  raiseIf (fsWriteFile o filePath) ;;
  ret filePath.

Definition downloadImage (imageUrl : value) (filename : string) (o : Oracle)
  : M string :=
  ensureOutputsDir InDownloadImage o ;;
  emit (FetchUrl imageUrl) ;;
  let* response := lift (urlFetch o) in
  (if negb (ok response)
   then throw (Error ("Failed to download image: " +:+ statusText response))
   else ret tt) ;;
  let* bytes := lift (arrayBuffer response) in
  writeImageBuffer (BufferFromBody bytes) filename o.

Definition mimeTypes : list (string * value) :=
  [ ("png", Str "image/png"); ("webp", Str "image/webp");
    ("jpg", Str "image/jpeg"); ("jpeg", Str "image/jpeg") ].

(** [mimeTypes[extension.toLowerCase()] || 'application/octet-stream']:
    declared to return a string, but what the table inherits is returned
    as it is. *)
Definition getMimeType (extension : string) : value :=
  Js.or (Js.member mimeTypes (Str.toLowerCase extension))
        (Str "application/octet-stream").

(** *** [src/mcp/server.ts] *)

Definition RATE_LIMIT_WINDOW : Z := 60000.

(** [parseInt(process.env.RATE_LIMIT_PER_MINUTE || '20', 10)], as the
    integer read; [None] is [NaN]. *)
Definition RATE_LIMIT_MAX : option Z :=
  Num.parseInt10 (orElse (RATE_LIMIT_PER_MINUTE env) "20").

(** [validTimestamps.length >= RATE_LIMIT_MAX].  The length of an array is
    below [2 ^ 32], and a number below [2 ^ 53] is at least the number of an
    integer exactly when it is at least that integer. *)
Definition atCapacity (validTimestamps : list Z) : bool :=
  match RATE_LIMIT_MAX with
  | Some cap => cap <=? Z.of_nat (length validTimestamps)
  | None => false
  end.

Definition rateLimitMessage : string :=
  "Rate limit exceeded: max "
  +:+ match RATE_LIMIT_MAX with Some cap => Show.ofNumber cap | None => "NaN" end
  +:+ " requests per minute".

(** [checkRateLimit(toolName)] with [Date.now() = now] *)
Definition checkRateLimit (toolName : string) (now : Z) : M unit :=
  fun w =>
    let timestamps := default [] (rateLimitMap w !! toolName) in
    let validTimestamps :=
      List.filter (fun t => now - t <? RATE_LIMIT_WINDOW) timestamps in
    if atCapacity validTimestamps then (inl (Error rateLimitMessage), w)
    else
      (inr tt,
       {| rateLimitMap := <[toolName := validTimestamps ++ [now]]> (rateLimitMap w);
          trace := trace w |}).

Definition imageProvider : ImageProvider := GeminiProvider.provider (geminiConfig env).

Definition saveImage (result : ImageGenerationResult) (filename : string) (o : Oracle)
  : M string :=
  match dataFormat result with
  | base64 => writeBase64Image (data result) filename o
  | url => downloadImage (data result) filename o
  end.

Definition optionalNumber (n : option float) : value :=
  match n with Some x => Number x | None => Undefined end.

Definition imageOutput (filePath extension : string) (w : value) (h : value) : value :=
  Obj [ ("ok", Bool true);
        ("file_path", Str (toRelativePath filePath));
        ("mime_type", getMimeType extension);
        ("width", w);
        ("height", h) ].

Definition handleGenerateImage (args : value) (provider : ImageProvider) (o : Oracle)
  : M ToolResponse :=
  let* input := lift (Zod.parse zodMessage Zod.generateImageInputSchema args) in
  let* filename :=
    match Zod.gi_output_path input with
    | Some (String c p) =>
        let* _ := lift (validateOutputPath (String c p)) in
        ret (String c p)
    | _ => ret (generateFilename "generate_image" (Zod.gi_output_format input) o)
    end in
  let* result :=
    generateImage provider
      {| prompt := Zod.gi_prompt input;
         style := Some (Zod.gi_style input);
         size := Some (Zod.gi_size input);
         background := Some (Zod.gi_background input);
         format := Some (Zod.gi_output_format input) |} o in
  let* filePath := saveImage result filename o in
  ret (textResponse
         (imageOutput filePath (Zod.gi_output_format input)
            (Number (width result)) (optionalNumber (height result)))
         true).

Definition themeDescriptions (theme : string) : string :=
  if String.eqb theme "minimal" then "minimalist, clean lines, simple shapes, modern"
  else if String.eqb theme "playful" then "fun, colorful, rounded shapes, friendly"
  else if String.eqb theme "corporate" then "professional, sleek, business-like, polished"
  else "undefined".

Definition handleGenerateIcon (args : value) (provider : ImageProvider) (o : Oracle)
  : M ToolResponse :=
  let* input := lift (Zod.parse zodMessage Zod.generateIconInputSchema args) in
  let prompt_ :=
    "A " +:+ themeDescriptions (Zod.gc_theme input) +:+ " icon representing: "
    +:+ Zod.gc_concept input +:+ ". Icon design, centered, clean background." in
  let filename := generateFilename "generate_icon" (Zod.gc_output_format input) o in
  let* result :=
    generateImage provider
      {| prompt := prompt_;
         style := Some "flat";
         size := Some (Zod.gc_size input);
         background := Some "transparent";
         format := Some (Zod.gc_output_format input) |} o in
  let* filePath := saveImage result filename o in
  let '(w, h) := parseSize (Zod.gc_size input) in
  ret (textResponse
         (imageOutput filePath (Zod.gc_output_format input)
            (Number w) (optionalNumber h))
         true).

Definition quote : string := String (Ascii.ascii_of_nat 34) EmptyString.

Definition heroPrompt (input : Zod.GenerateHeroInput) : string :=
  let vibeText :=
    match Zod.gh_vibe input with
    | Some (String c v) => ", " +:+ String c v +:+ " vibe"
    | _ => ""
    end in
  "Hero banner image for " +:+ quote +:+ Zod.gh_product_name input +:+ quote +:+ ". "
  +:+ Zod.gh_tagline input +:+ vibeText
  +:+ ". Professional, eye-catching, suitable for website header.".

Definition heroNotConfigured : string :=
  "Image provider not configured. Configure GEMINI_API_KEY to generate images.".

Definition handleGenerateHero (args : value) (provider : ImageProvider) (o : Oracle)
  : M ToolResponse :=
  let* input := lift (Zod.parse zodMessage Zod.generateHeroInputSchema args) in
  let prompt_ := heroPrompt input in
  if negb (isConfigured provider) then
    ret (textResponse
           (Obj [ ("ok", Bool false);
                  ("suggested_prompt", Str prompt_);
                  ("message", Str heroNotConfigured) ])
           true)
  else
    let filename := generateFilename "generate_hero" (Zod.gh_output_format input) o in
    let* result :=
      generateImage provider
        {| prompt := prompt_;
           style := Some "photoreal";
           size := Some (Zod.gh_size input);
           background := Some "solid";
           format := Some (Zod.gh_output_format input) |} o in
    let* filePath := saveImage result filename o in
    ret (textResponse
           (imageOutput filePath (Zod.gh_output_format input)
              (Number (width result)) (optionalNumber (height result)))
           true).

Definition suggestions : list string :=
  [ "Increase whitespace and padding for a cleaner look";
    "Use a consistent color palette throughout the UI";
    "Improve typography hierarchy with varied font sizes";
    "Add subtle shadows or borders to define sections";
    "Ensure proper alignment of all elements";
    "Consider using rounded corners for a modern feel";
    "Optimize button sizes and spacing for better UX" ].

Definition handleBeautifyScreenshot (args : value) : M ToolResponse :=
  let* input := lift (Zod.parse zodMessage Zod.beautifyScreenshotInputSchema args) in
  tryCatch
    (let* _ := lift (validateOutputPath (Zod.bs_input_image_path input)) in ret tt)
    (fun _ => throw (Error "Input image must be in outputs/ directory")) ;;
  ret (textResponse
         (Obj [ ("ok", Bool true);
                ("message", Str "Beautify screenshot is currently a stub implementation");
                ("suggested_steps", Arr (List.map Str suggestions));
                ("note", Str "To implement image editing, integrate an image manipulation API or library") ])
         true).

(** The [switch] of the call handler. *)
Definition route (name : string) (args : value) (provider : ImageProvider) (o : Oracle)
  : M ToolResponse :=
  if String.eqb name "generate_image" then handleGenerateImage args provider o
  else if String.eqb name "generate_icon" then handleGenerateIcon args provider o
  else if String.eqb name "generate_hero" then handleGenerateHero args provider o
  else if String.eqb name "beautify_screenshot" then handleBeautifyScreenshot args
  else throw (Error ("Unknown tool: " +:+ name)).

(** The body of the [try] block. *)
Definition dispatch (name : string) (args : value) (provider : ImageProvider) (o : Oracle)
  : M ToolResponse :=
  checkRateLimit name (dateNow o) ;; route name args provider o.

Definition errorResponse (error : exn) : ToolResponse :=
  let errorMessage := if instanceofError error then messageOf error else "Unknown error" in
  textResponse (Obj [ ("ok", Bool false); ("error", Str errorMessage) ]) false.

(** The [CallToolRequestSchema] handler: [try { ... } catch (error) { ... }]. *)
Definition callToolWith (provider : ImageProvider)
           (name : string) (args : value) (o : Oracle) (w : World)
  : ToolResponse * World :=
  match dispatch name args provider o w with
  | (inr response, w') => (response, w')
  | (inl error, w') => (errorResponse error, w')
  end.

Definition callTool : string -> value -> Oracle -> World -> ToolResponse * World :=
  callToolWith imageProvider.

End Server.

(** * Properties *)

(** ** Facts about binary64 comparisons *)

Module FloatFacts.

Lemma SFcompare_antisym (a b : spec_float) :
  SFcompare b a = option_map CompOpp (SFcompare a b).
Proof.
  destruct a as [sa|sa| |sa ma ea], b as [sb|sb| |sb mb eb]; simpl; try reflexivity;
    try (destruct sa; reflexivity); try (destruct sb; reflexivity);
    try (destruct sa, sb; reflexivity).
  destruct sa, sb; simpl; try reflexivity;
    rewrite (Z.compare_antisym ea eb); destruct (ea ?= eb); simpl; try reflexivity;
    rewrite !Pos.compare_cont_spec; unfold Pos.switch_Eq;
    rewrite (Pos.compare_antisym ma mb);
    destruct (ma ?= mb)%positive; reflexivity.
Qed.

Lemma gt_not_eq (a b : float) : Num.gtb a b = true -> Num.eqb a b = false.
Proof.
  unfold Num.gtb, Num.eqb.
  rewrite FloatAxioms.ltb_spec, FloatAxioms.eqb_spec. unfold SFltb, SFeqb.
  rewrite (SFcompare_antisym (Prim2SF a) (Prim2SF b)).
  destruct (SFcompare (Prim2SF a) (Prim2SF b)) as [[]|]; simpl; congruence.
Qed.

Lemma gt_asym (a b : float) : Num.gtb a b = true -> Num.gtb b a = false.
Proof.
  unfold Num.gtb.
  rewrite !FloatAxioms.ltb_spec. unfold SFltb.
  rewrite (SFcompare_antisym (Prim2SF a) (Prim2SF b)).
  destruct (SFcompare (Prim2SF a) (Prim2SF b)) as [[]|]; simpl; congruence.
Qed.

Lemma eq_sym (a b : float) : Num.eqb a b = Num.eqb b a.
Proof.
  unfold Num.eqb. rewrite !FloatAxioms.eqb_spec. unfold SFeqb.
  rewrite (SFcompare_antisym (Prim2SF a) (Prim2SF b)).
  destruct (SFcompare (Prim2SF a) (Prim2SF b)) as [[]|]; reflexivity.
Qed.

(** Two numbers above zero are comparable. *)
Lemma positive_trichotomy (a b : float) :
  Num.gtb a 0%float = true -> Num.gtb b 0%float = true ->
  Num.eqb a b = true \/ Num.gtb a b = true \/ Num.gtb b a = true.
Proof.
  unfold Num.gtb, Num.eqb.
  rewrite !FloatAxioms.ltb_spec, FloatAxioms.eqb_spec. unfold SFltb, SFeqb.
  rewrite (SFcompare_antisym (Prim2SF a) (Prim2SF b)).
  change (Prim2SF 0%float) with (S754_zero false).
  destruct (Prim2SF a) as [sa|sa| |sa ma ea]; simpl; try discriminate;
    destruct (Prim2SF b) as [sb|sb| |sb mb eb]; simpl; try discriminate;
    intros Ha Hb.
  - destruct sa, sb; simpl in *; try discriminate; auto.
  - destruct sa, sb; simpl in *; try discriminate; auto.
  - destruct sa, sb; simpl in *; try discriminate; auto.
  - destruct sa, sb; simpl in *; try discriminate.
    destruct (ea ?= eb); simpl; auto.
    destruct (Pos.compare_cont Eq ma mb); simpl; auto.
Qed.

Lemma sf14 : Prim2SF 1.4%float = S754_finite false 6305039478318694 (-52).
Proof. vm_compute. reflexivity. Qed.

Lemma sf16 : Prim2SF 1.6%float = S754_finite false 7205759403792794 (-52).
Proof. vm_compute. reflexivity. Qed.

Lemma sf17 : Prim2SF 1.7%float = S754_finite false 7656119366529843 (-52).
Proof. vm_compute. reflexivity. Qed.

Lemma sf175 : Prim2SF 1.75%float = S754_finite false 7881299347898368 (-52).
Proof. vm_compute. reflexivity. Qed.

Lemma SFleb_finite_pos (m1 m2 : positive) (e1 e2 : Z) :
  SFleb (S754_finite false m1 e1) (S754_finite false m2 e2) = true ->
  e1 < e2 \/ (e1 = e2 /\ (m1 <= m2)%positive).
Proof.
  unfold SFleb, SFcompare.
  destruct (Z.compare_spec e1 e2) as [E|E|E].
  - rewrite Pos.compare_cont_spec. unfold Pos.switch_Eq.
    destruct (Pos.compare_spec m1 m2) as [P|P|P]; intros H; try discriminate H;
      right; split; auto.
    + rewrite P. apply Pos.le_refl.
    + apply Pos.lt_le_incl, P.
  - intros _. left. exact E.
  - intros H; discriminate H.
Qed.

(** No number is both at least 1.7 and at most 1.6. *)
Lemma ge17_not_le16 (r : float) :
  Num.geb r 1.7%float = true -> Num.leb r 1.6%float = false.
Proof.
  unfold Num.geb, Num.leb.
  rewrite !FloatAxioms.leb_spec, sf17, sf16.
  destruct (Prim2SF r) as [s|s| |s m e].
  - destruct s; intros H; try reflexivity; discriminate H.
  - destruct s; intros H; try reflexivity; discriminate H.
  - intros H; discriminate H.
  - destruct s.
    + intros H; discriminate H.
    + intros H. apply SFleb_finite_pos in H.
      destruct (SFleb (S754_finite false m e) _) eqn:G; [|reflexivity].
      apply SFleb_finite_pos in G.
      destruct H as [H|[H1 H2]], G as [G|[G1 G2]].
      * exfalso. exact (Z.lt_asymm _ _ H G).
      * exfalso. rewrite G1 in H. exact (Z.lt_irrefl _ H).
      * exfalso. rewrite <- H1 in G. exact (Z.lt_irrefl _ G).
      * exfalso. pose proof (Pos.le_trans _ _ _ H2 G2) as T.
        apply T. vm_compute. reflexivity.
Qed.

Lemma SFeqb_finite_pos (x : spec_float) (m2 : positive) (e2 : Z) :
  SFeqb x (S754_finite false m2 e2) = true -> x = S754_finite false m2 e2.
Proof.
  unfold SFeqb, SFcompare.
  destruct x as [s|s| |s m e].
  - destruct s; intros H; discriminate H.
  - destruct s; intros H; discriminate H.
  - intros H; discriminate H.
  - destruct s; [intros H; discriminate H|].
    destruct (Z.compare_spec e e2) as [E|E|E]; try (intros H; discriminate H).
    rewrite Pos.compare_cont_spec. unfold Pos.switch_Eq.
    destruct (Pos.compare_spec m m2) as [P|P|P]; try (intros H; discriminate H).
    intros _. rewrite E, P. reflexivity.
Qed.

(** A number equal to 1.75 is at least 1.7. *)
Lemma eq175_ge17 (r : float) :
  Num.eqb r 1.75%float = true -> Num.geb r 1.7%float = true.
Proof.
  unfold Num.geb, Num.eqb.
  rewrite FloatAxioms.leb_spec, FloatAxioms.eqb_spec, sf17, sf175.
  intros H. rewrite (SFeqb_finite_pos _ _ _ H). vm_compute. reflexivity.
Qed.

End FloatFacts.

(** ** Aspect-ratio derivation *)

(** The tie-break bands of the specification: [tag] is [mid] for a ratio in
    [[1.4, 1.6]], [wide] for a ratio of at least [1.7], [narrow] otherwise. *)
Definition bands (ratio : float) (mid wide narrow tag : string) : Prop :=
  (Num.geb ratio 1.4%float = true -> Num.leb ratio 1.6%float = true -> tag = mid) /\
  (Num.geb ratio 1.7%float = true -> tag = wide) /\
  (Num.geb ratio 1.4%float && Num.leb ratio 1.6%float = false ->
   Num.geb ratio 1.7%float = false -> tag = narrow).

Lemma bands_landscape (width height : float) :
  Num.gtb width height = true ->
  bands (Num.div width height) "3:2" "16:9" "4:3"
        (GeminiProvider.getAspectRatio width height).
Proof.
  intros Hgt. unfold GeminiProvider.getAspectRatio.
  rewrite (FloatFacts.gt_not_eq _ _ Hgt), Hgt. cbv zeta.
  repeat split.
  - intros H1 H2. rewrite H1, H2. reflexivity.
  - intros H. rewrite (FloatFacts.ge17_not_le16 _ H), andb_false_r, H. reflexivity.
  - intros H1 H2. rewrite H1, H2. reflexivity.
Qed.

Lemma bands_portrait (width height : float) :
  Num.gtb height width = true ->
  bands (Num.div height width) "2:3" "9:16" "3:4"
        (GeminiProvider.getAspectRatio width height).
Proof.
  intros Hgt. unfold GeminiProvider.getAspectRatio.
  rewrite FloatFacts.eq_sym, (FloatFacts.gt_not_eq _ _ Hgt), (FloatFacts.gt_asym _ _ Hgt).
  cbv zeta.
  repeat split.
  - intros H1 H2. rewrite H1, H2. reflexivity.
  - intros H. rewrite (FloatFacts.ge17_not_le16 _ H), andb_false_r, H. reflexivity.
  - intros H1 H2. rewrite H1, H2. reflexivity.
Qed.

(** C6. For all positive [width] and [height] exactly one of "equal",
    "landscape" and "portrait" applies, and the tag returned by
    [getAspectRatio] is ["1:1"] when they are equal; for a landscape size
    with [r = width / height] it is ["3:2"] when [r] lies in [[1.4, 1.6]],
    ["16:9"] when [r >= 1.7] and ["4:3"] otherwise; portrait sizes mirror
    this with ["2:3"], ["9:16"] and ["3:4"].  In particular (1024, 1024)
    gives ["1:1"], (1536, 1024) gives ["3:2"], (1024, 1536) gives ["2:3"],
    and every landscape size whose ratio is exactly 1.75 gives ["16:9"]. *)
Theorem C6_aspect_ratio_bands :
  (forall width height : float,
      Num.gtb width 0%float = true -> Num.gtb height 0%float = true ->
      (Num.eqb width height = true \/ Num.gtb width height = true
       \/ Num.gtb height width = true) /\
      (Num.eqb width height = true ->
       GeminiProvider.getAspectRatio width height = "1:1") /\
      (Num.gtb width height = true ->
       bands (Num.div width height) "3:2" "16:9" "4:3"
             (GeminiProvider.getAspectRatio width height)) /\
      (Num.gtb height width = true ->
       bands (Num.div height width) "2:3" "9:16" "3:4"
             (GeminiProvider.getAspectRatio width height))) /\
  GeminiProvider.getAspectRatio (Num.of_Z 1024) (Num.of_Z 1024) = "1:1" /\
  GeminiProvider.getAspectRatio (Num.of_Z 1536) (Num.of_Z 1024) = "3:2" /\
  GeminiProvider.getAspectRatio (Num.of_Z 1024) (Num.of_Z 1536) = "2:3" /\
  (forall width height : float,
      Num.gtb width height = true ->
      Num.eqb (Num.div width height) 1.75%float = true ->
      GeminiProvider.getAspectRatio width height = "16:9").
Proof.
  split; [|split; [|split; [|split]]].
  - intros width height Hw Hh. split; [|split; [|split]].
    + apply FloatFacts.positive_trichotomy; assumption.
    + intros Heq. unfold GeminiProvider.getAspectRatio. rewrite Heq. reflexivity.
    + apply bands_landscape.
    + apply bands_portrait.
  - vm_compute. reflexivity.
  - vm_compute. reflexivity.
  - vm_compute. reflexivity.
  - intros width height Hgt Heq.
    apply (bands_landscape width height Hgt).
    apply FloatFacts.eq175_ge17, Heq.
Qed.

(** The bands at 1792 x 1024, whose ratio is exactly 1.75. *)
Lemma C6_aspect_ratio_bands_witness :
  Num.gtb (Num.of_Z 1792) 0%float = true /\
  Num.gtb (Num.of_Z 1024) 0%float = true /\
  Num.gtb (Num.of_Z 1792) (Num.of_Z 1024) = true /\
  Num.eqb (Num.div (Num.of_Z 1792) (Num.of_Z 1024)) 1.75%float = true /\
  GeminiProvider.getAspectRatio (Num.of_Z 1792) (Num.of_Z 1024) = "16:9".
Proof.
  split; [vm_compute; reflexivity|].
  split; [vm_compute; reflexivity|].
  split; [vm_compute; reflexivity|].
  split; [vm_compute; reflexivity|].
  apply (proj2 (proj2 (proj2 (proj2 C6_aspect_ratio_bands)))).
  - vm_compute. reflexivity.
  - vm_compute. reflexivity.
Defined.

(** ** The rate limiter *)

(** Successive calls of [checkRateLimit] for one tool name at the given
    clock readings; the outcomes are returned in call order. *)
Fixpoint runChecks (env : ProcessEnv) (toolName : string) (times : list Z) (w : World)
  : list (result unit) * World :=
  match times with
  | [] => ([], w)
  | now :: rest =>
      let '(r, w') := checkRateLimit env toolName now w in
      let '(rs, w'') := runChecks env toolName rest w' in
      (r :: rs, w'')
  end.

(** The timestamps kept for a tool name. *)
Definition timestampsOf (w : World) (toolName : string) : list Z :=
  default [] (rateLimitMap w !! toolName).

(** The timestamps of [l] still inside the window at [now]. *)
Definition inWindow (now : Z) (l : list Z) : list Z :=
  List.filter (fun t => now - t <? RATE_LIMIT_WINDOW) l.

Lemma checkRateLimit_unfold (env : ProcessEnv) (toolName : string) (now : Z) (w : World) :
  checkRateLimit env toolName now w =
  if atCapacity env (inWindow now (timestampsOf w toolName))
  then (inl (Error (rateLimitMessage env)), w)
  else (inr tt,
        {| rateLimitMap :=
             <[toolName := inWindow now (timestampsOf w toolName) ++ [now]]> (rateLimitMap w);
           trace := trace w |}).
Proof. reflexivity. Qed.

Lemma inWindow_In (now t : Z) (l : list Z) :
  In t (inWindow now l) <-> In t l /\ now - t < RATE_LIMIT_WINDOW.
Proof.
  unfold inWindow. rewrite filter_In. rewrite Z.ltb_lt. reflexivity.
Qed.

Lemma inWindow_all (now : Z) (l : list Z) :
  Forall (fun t => now - t < RATE_LIMIT_WINDOW) l -> inWindow now l = l.
Proof.
  induction 1 as [|t l Ht _ IH]; [reflexivity|].
  unfold inWindow in *. simpl.
  destruct (Z.ltb_spec (now - t) RATE_LIMIT_WINDOW); [|lia].
  rewrite IH. reflexivity.
Qed.

Lemma inWindow_none (now : Z) (l : list Z) :
  Forall (fun t => RATE_LIMIT_WINDOW <= now - t) l -> inWindow now l = [].
Proof.
  induction 1 as [|t l Ht _ IH]; [reflexivity|].
  unfold inWindow in *. simpl.
  destruct (Z.ltb_spec (now - t) RATE_LIMIT_WINDOW); [lia|].
  exact IH.
Qed.

Lemma timestampsOf_insert (w : World) (toolName : string) (l : list Z) (tr : list event) :
  timestampsOf {| rateLimitMap := <[toolName := l]> (rateLimitMap w); trace := tr |}
               toolName = l.
Proof. unfold timestampsOf. simpl. rewrite lookup_insert_eq. reflexivity. Qed.

(** While the stored timestamps and the new ones fit under the capacity and
    inside one window, every check passes and appends its clock reading. *)
Lemma runChecks_within (env : ProcessEnv) (toolName : string) (cap : Z) (t0 : Z) :
  RATE_LIMIT_MAX env = Some cap ->
  forall (times : list Z) (w : World),
    Forall (fun t => t0 <= t < t0 + RATE_LIMIT_WINDOW) (timestampsOf w toolName ++ times) ->
    Z.of_nat (length (timestampsOf w toolName ++ times)) <= cap ->
    Forall (fun r => r = inr tt) (fst (runChecks env toolName times w)) /\
    length (fst (runChecks env toolName times w)) = length times /\
    timestampsOf (snd (runChecks env toolName times w)) toolName
      = timestampsOf w toolName ++ times /\
    trace (snd (runChecks env toolName times w)) = trace w.
Proof.
  intros Hcap times. induction times as [|now rest IH]; intros w Hwin Hlen.
  - simpl. rewrite app_nil_r. repeat split; constructor.
  - simpl. rewrite checkRateLimit_unfold.
    assert (Hkeep : inWindow now (timestampsOf w toolName) = timestampsOf w toolName).
    { apply inWindow_all. rewrite Forall_app in Hwin. destruct Hwin as [Hold Hnew].
      inversion Hnew as [|? ? Hnow _]; subst.
      eapply Forall_impl; [exact Hold|]. simpl. intros t Ht. unfold RATE_LIMIT_WINDOW in *. lia. }
    rewrite Hkeep.
    assert (Hroom : atCapacity env (timestampsOf w toolName) = false).
    { unfold atCapacity. rewrite Hcap. apply Z.leb_gt.
      rewrite length_app in Hlen. simpl in Hlen. lia. }
    rewrite Hroom.
    set (w1 := {| rateLimitMap := _; trace := trace w |}).
    assert (Hw1 : timestampsOf w1 toolName = timestampsOf w toolName ++ [now])
      by apply timestampsOf_insert.
    specialize (IH w1).
    destruct (runChecks env toolName rest w1) as [rs w2] eqn:Hrun. simpl in *.
    rewrite Hw1, <- app_assoc in IH. simpl in IH.
    destruct (IH Hwin Hlen) as (Hall & Hn & Hts & Htr).
    repeat split.
    + constructor; [reflexivity|exact Hall].
    + rewrite Hn. reflexivity.
    + exact Hts.
    + exact Htr.
Qed.

(** C3. For every tool name, [checkRateLimit] keeps exactly the stored
    timestamps less than 60 seconds old (older ones are pruned), fails,
    leaving the state as it was, when at least the capacity remain, and
    otherwise records the new timestamp after them.  With the default
    capacity of 20 and no earlier calls for the tool, 20 calls inside one
    60-second window all pass, the 21st call inside that window fails, and
    the same call made once every recorded timestamp is 60 seconds old
    passes. *)
Theorem C3_rate_limit_window :
  (forall (env : ProcessEnv) (toolName : string) (now : Z) (w : World),
      let validTimestamps := inWindow now (timestampsOf w toolName) in
      (forall t, In t validTimestamps <->
                 In t (timestampsOf w toolName) /\ now - t < 60000) /\
      (atCapacity env validTimestamps = true ->
       checkRateLimit env toolName now w = (inl (Error (rateLimitMessage env)), w)) /\
      (atCapacity env validTimestamps = false ->
       checkRateLimit env toolName now w =
       (inr tt, {| rateLimitMap := <[toolName := validTimestamps ++ [now]]> (rateLimitMap w);
                   trace := trace w |})) /\
      (forall cap, RATE_LIMIT_MAX env = Some cap ->
                   atCapacity env validTimestamps = true
                   <-> cap <= Z.of_nat (length validTimestamps))) /\
  (forall (env : ProcessEnv) (toolName : string) (times : list Z) (t0 t21 t' : Z)
          (w : World),
      RATE_LIMIT_PER_MINUTE env = None ->
      rateLimitMap w !! toolName = None ->
      length times = 20%nat ->
      Forall (fun t => t0 <= t < t0 + 60000) (times ++ [t21]) ->
      Forall (fun t => 60000 <= t' - t) times ->
      let w20 := snd (runChecks env toolName times w) in
      fst (runChecks env toolName times w) = repeat (inr tt) 20 /\
      checkRateLimit env toolName t21 w20 =
        (inl (Error "Rate limit exceeded: max 20 requests per minute"), w20) /\
      fst (checkRateLimit env toolName t' w20) = inr tt).
Proof.
  split.
  - intros env toolName now w validTimestamps. split; [|split; [|split]].
    + intros t. apply inWindow_In.
    + intros H. rewrite checkRateLimit_unfold. fold validTimestamps. rewrite H. reflexivity.
    + intros H. rewrite checkRateLimit_unfold. fold validTimestamps. rewrite H. reflexivity.
    + intros cap H. unfold atCapacity. rewrite H. apply Z.leb_le.
  - intros env toolName times t0 t21 t' w Henv Hfresh Hlen Hwin Hlate w20.
    assert (Hcap : RATE_LIMIT_MAX env = Some 20).
    { unfold RATE_LIMIT_MAX. rewrite Henv. reflexivity. }
    assert (Hmsg : rateLimitMessage env = "Rate limit exceeded: max 20 requests per minute").
    { unfold rateLimitMessage. rewrite Hcap. reflexivity. }
    assert (Hts0 : timestampsOf w toolName = []).
    { unfold timestampsOf. rewrite Hfresh. reflexivity. }
    rewrite Forall_app in Hwin. destruct Hwin as [Hwin H21].
    inversion H21 as [|? ? Ht21 _]; subst.
    destruct (runChecks_within env toolName 20 t0 Hcap times w) as (Hall & Hn & Hts & _).
    { rewrite Hts0. exact Hwin. }
    { rewrite Hts0. simpl. lia. }
    fold w20 in Hts. rewrite Hts0 in Hts. simpl in Hts.
    split; [|split].
    + rewrite <- Hlen, <- Hn.
      clear -Hall. induction Hall as [|r rs Hr _ IH]; [reflexivity|].
      simpl. rewrite Hr. f_equal. exact IH.
    + rewrite checkRateLimit_unfold, Hts, Hmsg.
      rewrite inWindow_all.
      * unfold atCapacity. rewrite Hcap, Hlen. reflexivity.
      * eapply Forall_impl; [exact Hwin|]. simpl. unfold RATE_LIMIT_WINDOW. intros; lia.
    + rewrite checkRateLimit_unfold, Hts.
      rewrite inWindow_none by exact Hlate.
      unfold atCapacity. rewrite Hcap. reflexivity.
Qed.

(** Twenty calls one millisecond apart, a 21st right after them and the
    same call a minute later, in a process with no configuration. *)
Lemma C3_rate_limit_window_witness :
  let env := {| GEMINI_API_KEY := None; GEMINI_BASE_URL := None; GEMINI_MODEL := None;
                RATE_LIMIT_PER_MINUTE := None; OUTPUT_DIR_ := None |} in
  let times := [0; 1; 2; 3; 4; 5; 6; 7; 8; 9; 10; 11; 12; 13; 14; 15; 16; 17; 18; 19] in
  let w := {| rateLimitMap := ∅; trace := [] |} in
  let w20 := snd (runChecks env "generate_icon" times w) in
  fst (runChecks env "generate_icon" times w) = repeat (inr tt) 20 /\
  checkRateLimit env "generate_icon" 20 w20 =
    (inl (Error "Rate limit exceeded: max 20 requests per minute"), w20) /\
  fst (checkRateLimit env "generate_icon" 60019 w20) = inr tt.
Proof.
  intros env times w w20.
  apply (proj2 C3_rate_limit_window env "generate_icon" times 0 20 60019 w).
  - reflexivity.
  - apply lookup_empty.
  - reflexivity.
  - repeat constructor; lia.
  - repeat constructor; lia.
Defined.

(** ** The dispatcher *)

(** The names the [switch] of the call handler knows. *)
Definition knownTool (name : string) : bool :=
  existsb (String.eqb name)
          ["generate_image"; "generate_icon"; "generate_hero"; "beautify_screenshot"].

(** The state right after a passed rate-limit check. *)
Definition recorded (toolName : string) (now : Z) (w : World) : World :=
  {| rateLimitMap :=
       <[toolName := inWindow now (timestampsOf w toolName) ++ [now]]> (rateLimitMap w);
     trace := trace w |}.

(** The response of the [catch] block: one text item, the rendering of
    [{ok: false, error: message}]. *)
Definition failure (message : string) : ToolResponse :=
  {| content :=
       [ {| ctype := "text";
            ctext := Stringify (Obj [ ("ok", Bool false); ("error", Str message) ])
                               false |} ] |}.

Section Dispatch.

Variable env : ProcessEnv.
Variables cwd moduleDir : string.
Variable zodMessage : list Zod.Issue -> string.

Lemma dispatch_over (name : string) (args : value) (provider : ImageProvider)
      (o : Oracle) (w : World) :
  atCapacity env (inWindow (dateNow o) (timestampsOf w name)) = true ->
  dispatch env cwd moduleDir zodMessage name args provider o w = (inl (Error (rateLimitMessage env)), w).
Proof.
  intros H. unfold dispatch, bindM.
  rewrite checkRateLimit_unfold, H. reflexivity.
Qed.

Lemma dispatch_under (name : string) (args : value) (provider : ImageProvider)
      (o : Oracle) (w : World) :
  atCapacity env (inWindow (dateNow o) (timestampsOf w name)) = false ->
  dispatch env cwd moduleDir zodMessage name args provider o w = route env cwd moduleDir zodMessage name args provider o (recorded name (dateNow o) w).
Proof.
  intros H. unfold dispatch, bindM.
  rewrite checkRateLimit_unfold, H. reflexivity.
Qed.

Lemma route_unknown (name : string) (args : value) (provider : ImageProvider)
      (o : Oracle) (w : World) :
  knownTool name = false ->
  route env cwd moduleDir zodMessage name args provider o w = (inl (Error ("Unknown tool: " +:+ name)), w).
Proof.
  unfold knownTool. simpl. rewrite !orb_false_iff.
  intros (H1 & H2 & H3 & H4 & _).
  unfold route. rewrite H1, H2, H3, H4. reflexivity.
Qed.

Lemma errorResponse_failure (e : exn) :
  errorResponse e = failure (if instanceofError e then messageOf e else "Unknown error").
Proof. reflexivity. Qed.

(** What the [catch] block makes of the outcome of the [try] block. *)
Lemma callToolWith_dispatch (provider : ImageProvider) (name : string) (args : value)
      (o : Oracle) (w : World) :
  callToolWith env cwd moduleDir zodMessage provider name args o w =
  (match fst (dispatch env cwd moduleDir zodMessage name args provider o w) with
   | inr response => response
   | inl e => failure (if instanceofError e then messageOf e else "Unknown error")
   end,
   snd (dispatch env cwd moduleDir zodMessage name args provider o w)).
Proof.
  unfold callToolWith.
  destruct (dispatch env cwd moduleDir zodMessage name args provider o w) as [[e|r] w']; reflexivity.
Qed.

Lemma handleGenerateImage_invalid (args : value) (issues : list Zod.Issue)
      (provider : ImageProvider) (o : Oracle) (w : World) :
  Zod.generateImageInputSchema args = inl issues ->
  handleGenerateImage env cwd moduleDir zodMessage args provider o w
  = (inl (ZodError (zodMessage issues)), w).
Proof.
  intros H. unfold handleGenerateImage, bindM, lift, Zod.parse. rewrite H. reflexivity.
Qed.

Lemma handleGenerateIcon_invalid (args : value) (issues : list Zod.Issue)
      (provider : ImageProvider) (o : Oracle) (w : World) :
  Zod.generateIconInputSchema args = inl issues ->
  handleGenerateIcon env cwd moduleDir zodMessage args provider o w
  = (inl (ZodError (zodMessage issues)), w).
Proof.
  intros H. unfold handleGenerateIcon, bindM, lift, Zod.parse. rewrite H. reflexivity.
Qed.

Lemma handleGenerateHero_invalid (args : value) (issues : list Zod.Issue)
      (provider : ImageProvider) (o : Oracle) (w : World) :
  Zod.generateHeroInputSchema args = inl issues ->
  handleGenerateHero env cwd moduleDir zodMessage args provider o w
  = (inl (ZodError (zodMessage issues)), w).
Proof.
  intros H. unfold handleGenerateHero, bindM, lift, Zod.parse. rewrite H. reflexivity.
Qed.

Lemma handleBeautifyScreenshot_invalid (args : value) (issues : list Zod.Issue)
      (w : World) :
  Zod.beautifyScreenshotInputSchema args = inl issues ->
  handleBeautifyScreenshot env cwd moduleDir zodMessage args w
  = (inl (ZodError (zodMessage issues)), w).
Proof.
  intros H. unfold handleBeautifyScreenshot, bindM, lift, Zod.parse. rewrite H. reflexivity.
Qed.

(** A caller-supplied [output_path] that fails [validateOutputPath] stops
    [generate_image] before the provider is asked for anything. *)
Lemma handleGenerateImage_bad_path (args : value) (input : Zod.GenerateImageInput)
      (p : string) (e : exn) (provider : ImageProvider) (o : Oracle) (w : World) :
  Zod.generateImageInputSchema args = inr input ->
  Zod.gi_output_path input = Some p ->
  Str.truthy p = true ->
  validateOutputPath env cwd moduleDir p = inl e ->
  handleGenerateImage env cwd moduleDir zodMessage args provider o w = (inl e, w).
Proof.
  intros H Hp Ht Hv. unfold handleGenerateImage, bindM, lift, Zod.parse.
  rewrite H, Hp. destruct p as [|c p]; [discriminate Ht|].
  rewrite Hv. reflexivity.
Qed.

Lemma validateOutputPath_error (p : string) (e : exn) :
  validateOutputPath env cwd moduleDir p = inl e ->
  e = Error "Invalid output path: must be within outputs directory".
Proof.
  unfold validateOutputPath. destruct (negb _); congruence.
Qed.

Lemma handleBeautifyScreenshot_bad_path (args : value) (input : Zod.BeautifyScreenshotInput)
      (e : exn) (w : World) :
  Zod.beautifyScreenshotInputSchema args = inr input ->
  validateOutputPath env cwd moduleDir (Zod.bs_input_image_path input) = inl e ->
  handleBeautifyScreenshot env cwd moduleDir zodMessage args w
  = (inl (Error "Input image must be in outputs/ directory"), w).
Proof.
  intros H Hv. unfold handleBeautifyScreenshot, bindM, lift, tryCatch, Zod.parse.
  rewrite H, Hv. reflexivity.
Qed.

(** An error thrown by the provider leaves each of the three generating
    handlers as it is. *)
Lemma handleGenerateImage_provider_throws (args : value) (input : Zod.GenerateImageInput)
      (e : exn) (provider : ImageProvider) (o : Oracle) (w w' : World) :
  Zod.generateImageInputSchema args = inr input ->
  (forall p, Zod.gi_output_path input = Some p -> Str.truthy p = true ->
             exists q, validateOutputPath env cwd moduleDir p = inr q) ->
  generateImage provider
    {| prompt := Zod.gi_prompt input;
       style := Some (Zod.gi_style input);
       size := Some (Zod.gi_size input);
       background := Some (Zod.gi_background input);
       format := Some (Zod.gi_output_format input) |} o w = (inl e, w') ->
  handleGenerateImage env cwd moduleDir zodMessage args provider o w = (inl e, w').
Proof.
  intros H Hp Hg. unfold handleGenerateImage, bindM, lift, Zod.parse, ret. rewrite H.
  destruct (Zod.gi_output_path input) as [[|c p]|].
  - rewrite Hg. reflexivity.
  - destruct (Hp (String c p) eq_refl eq_refl) as [q ->]. rewrite Hg. reflexivity.
  - rewrite Hg. reflexivity.
Qed.

Lemma handleGenerateIcon_provider_throws (args : value) (input : Zod.GenerateIconInput)
      (e : exn) (provider : ImageProvider) (o : Oracle) (w w' : World) :
  Zod.generateIconInputSchema args = inr input ->
  generateImage provider
    {| prompt := "A " +:+ themeDescriptions (Zod.gc_theme input) +:+ " icon representing: "
                 +:+ Zod.gc_concept input +:+ ". Icon design, centered, clean background.";
       style := Some "flat";
       size := Some (Zod.gc_size input);
       background := Some "transparent";
       format := Some (Zod.gc_output_format input) |} o w = (inl e, w') ->
  handleGenerateIcon env cwd moduleDir zodMessage args provider o w = (inl e, w').
Proof.
  intros H Hg. unfold handleGenerateIcon, bindM, lift, Zod.parse.
  rewrite H, Hg. reflexivity.
Qed.

Lemma handleGenerateHero_provider_throws (args : value) (input : Zod.GenerateHeroInput)
      (e : exn) (provider : ImageProvider) (o : Oracle) (w w' : World) :
  Zod.generateHeroInputSchema args = inr input ->
  isConfigured provider = true ->
  generateImage provider
    {| prompt := heroPrompt input;
       style := Some "photoreal";
       size := Some (Zod.gh_size input);
       background := Some "solid";
       format := Some (Zod.gh_output_format input) |} o w = (inl e, w') ->
  handleGenerateHero env cwd moduleDir zodMessage args provider o w = (inl e, w').
Proof.
  intros H Hc Hg. unfold handleGenerateHero, bindM, lift, Zod.parse.
  rewrite H, Hc. change (negb true) with false. cbv beta iota zeta.
  rewrite Hg. reflexivity.
Qed.

(** C7. Whatever is thrown inside the [try] block of the call handler is
    turned into a response of one text item, the rendering of
    [{ok: false, error: <message>}], and nothing is rethrown; the message
    is that of the error, and ["Unknown error"] for a thrown value that is
    no [Error].  Spelled out for each cause: the rate limit, an unknown
    tool name, arguments rejected by any of the four schemas, a rejected
    output or input path, and an error thrown by the provider in each of
    the three generating tools. *)
Theorem C7_failures_become_payloads
        (provider : ImageProvider) (name : string) (args : value) (o : Oracle) (w : World) :
  let payload message :=
    {| content :=
         [ {| ctype := "text";
              ctext := Stringify (Obj [ ("ok", Bool false); ("error", Str message) ])
                                 false |} ] |} in
  let reported e :=
    match e with
    | Error m | TypeError m | ZodError m => m
    | Thrown _ => "Unknown error"
    end in
  let response := fst (callToolWith env cwd moduleDir zodMessage provider name args o w) in
  let counted := recorded name (dateNow o) w in
  (forall e w',
      dispatch env cwd moduleDir zodMessage name args provider o w = (inl e, w') ->
      callToolWith env cwd moduleDir zodMessage provider name args o w
      = (payload (reported e), w')) /\
  (forall cap,
      RATE_LIMIT_MAX env = Some cap ->
      atCapacity env (inWindow (dateNow o) (timestampsOf w name)) = true ->
      response = payload ("Rate limit exceeded: max " +:+ Show.ofNumber cap
                          +:+ " requests per minute")) /\
  (atCapacity env (inWindow (dateNow o) (timestampsOf w name)) = false ->
   (knownTool name = false -> response = payload ("Unknown tool: " +:+ name)) /\
   (forall issues,
       (name = "generate_image" /\ Zod.generateImageInputSchema args = inl issues)
       \/ (name = "generate_icon" /\ Zod.generateIconInputSchema args = inl issues)
       \/ (name = "generate_hero" /\ Zod.generateHeroInputSchema args = inl issues)
       \/ (name = "beautify_screenshot"
           /\ Zod.beautifyScreenshotInputSchema args = inl issues) ->
       response = payload (zodMessage issues)) /\
   (forall input p e,
       name = "generate_image" ->
       Zod.generateImageInputSchema args = inr input ->
       Zod.gi_output_path input = Some p -> Str.truthy p = true ->
       validateOutputPath env cwd moduleDir p = inl e ->
       response = payload "Invalid output path: must be within outputs directory") /\
   (forall input e,
       name = "beautify_screenshot" ->
       Zod.beautifyScreenshotInputSchema args = inr input ->
       validateOutputPath env cwd moduleDir (Zod.bs_input_image_path input) = inl e ->
       response = payload "Input image must be in outputs/ directory") /\
   (forall input e w',
       name = "generate_image" ->
       Zod.generateImageInputSchema args = inr input ->
       (forall p, Zod.gi_output_path input = Some p -> Str.truthy p = true ->
                  exists q, validateOutputPath env cwd moduleDir p = inr q) ->
       generateImage provider
         {| prompt := Zod.gi_prompt input;
            style := Some (Zod.gi_style input);
            size := Some (Zod.gi_size input);
            background := Some (Zod.gi_background input);
            format := Some (Zod.gi_output_format input) |} o counted = (inl e, w') ->
       response = payload (reported e)) /\
   (forall input e w',
       name = "generate_icon" ->
       Zod.generateIconInputSchema args = inr input ->
       generateImage provider
         {| prompt := "A " +:+ themeDescriptions (Zod.gc_theme input)
                      +:+ " icon representing: " +:+ Zod.gc_concept input
                      +:+ ". Icon design, centered, clean background.";
            style := Some "flat";
            size := Some (Zod.gc_size input);
            background := Some "transparent";
            format := Some (Zod.gc_output_format input) |} o counted = (inl e, w') ->
       response = payload (reported e)) /\
   (forall input e w',
       name = "generate_hero" ->
       Zod.generateHeroInputSchema args = inr input ->
       isConfigured provider = true ->
       generateImage provider
         {| prompt := heroPrompt input;
            style := Some "photoreal";
            size := Some (Zod.gh_size input);
            background := Some "solid";
            format := Some (Zod.gh_output_format input) |} o counted = (inl e, w') ->
       response = payload (reported e))).
Proof.
  intros payload reported response counted. subst response counted.
  assert (Hfail : forall e, failure (if instanceofError e then messageOf e else "Unknown error")
                            = payload (reported e)).
  { intros [m|m|m|v]; reflexivity. }
  split; [|split].
  - intros e w' H. rewrite callToolWith_dispatch, H. simpl. rewrite Hfail. reflexivity.
  - intros cap Hcap H. rewrite callToolWith_dispatch, dispatch_over by exact H. simpl.
    unfold rateLimitMessage. rewrite Hcap. reflexivity.
  - intros H. rewrite callToolWith_dispatch, dispatch_under by exact H.
    split; [|split; [|split; [|split; [|split; [|split]]]]].
    + intros Hu. rewrite route_unknown by exact Hu. reflexivity.
    + intros issues [[-> Hs]|[[-> Hs]|[[-> Hs]|[-> Hs]]]]; unfold route; simpl.
      * rewrite (handleGenerateImage_invalid _ _ _ _ _ Hs). reflexivity.
      * rewrite (handleGenerateIcon_invalid _ _ _ _ _ Hs). reflexivity.
      * rewrite (handleGenerateHero_invalid _ _ _ _ _ Hs). reflexivity.
      * rewrite (handleBeautifyScreenshot_invalid _ _ _ Hs). reflexivity.
    + intros input p e -> Hs Hp Ht Hv. unfold route; simpl.
      rewrite (handleGenerateImage_bad_path _ _ _ _ _ _ _ Hs Hp Ht Hv).
      rewrite (validateOutputPath_error _ _ Hv). reflexivity.
    + intros input e -> Hs Hv. unfold route; simpl.
      rewrite (handleBeautifyScreenshot_bad_path _ _ _ _ Hs Hv). reflexivity.
    + intros input e w' -> Hs Hp Hg. unfold route; simpl.
      rewrite (handleGenerateImage_provider_throws _ _ _ _ _ _ _ Hs Hp Hg). simpl.
      apply Hfail.
    + intros input e w' -> Hs Hg. unfold route; simpl.
      rewrite (handleGenerateIcon_provider_throws _ _ _ _ _ _ _ Hs Hg). simpl.
      apply Hfail.
    + intros input e w' -> Hs Hc Hg. unfold route; simpl.
      rewrite (handleGenerateHero_provider_throws _ _ _ _ _ _ _ Hs Hc Hg). simpl.
      apply Hfail.
Qed.

(** C10 (amended). The rate-limit check runs before the tool name is
    matched.  A call whose name is still under its quota and is not one of
    the four tools returns [{ok: false, error: "Unknown tool: <name>"}] and
    leaves a new timestamp recorded under that name; a call whose name is
    at its quota returns the rate-limit error instead, whatever the name,
    and changes nothing. *)
Theorem C10_unknown_tool_consumes_quota
        (name : string) (args : value) (o : Oracle) (w : World) :
  (atCapacity env (inWindow (dateNow o) (timestampsOf w name)) = false ->
   knownTool name = false ->
   callTool env cwd moduleDir zodMessage name args o w
   = (failure ("Unknown tool: " +:+ name), recorded name (dateNow o) w)
   /\ timestampsOf (recorded name (dateNow o) w) name
      = inWindow (dateNow o) (timestampsOf w name) ++ [dateNow o]) /\
  (atCapacity env (inWindow (dateNow o) (timestampsOf w name)) = true ->
   callTool env cwd moduleDir zodMessage name args o w
   = (failure (rateLimitMessage env), w)).
Proof.
  unfold callTool. split.
  - intros H Hu. split.
    + rewrite callToolWith_dispatch, dispatch_under by exact H.
      rewrite route_unknown by exact Hu. reflexivity.
    + apply timestampsOf_insert.
  - intros H. rewrite callToolWith_dispatch, dispatch_over by exact H. reflexivity.
Qed.

(** C5. For every argument structure the hero schema accepts, a provider
    that is not configured makes [handleGenerateHero] return, as an
    ordinary result and not an exception, one text item rendering
    [{ok: false, suggested_prompt, message}], where the suggested prompt is
    the hero banner sentence built from product name, tagline and vibe and
    the message asks for [GEMINI_API_KEY]; the world is left exactly as it
    was, whatever the provider's [generateImage] would have done: it is
    not invoked, so no network call is made.  Through the call handler,
    with no credential in the environment, the same response comes back,
    the call is counted against the quota and the trace of outside calls
    is unchanged. *)
Theorem C5_hero_degraded_mode
        (args : value) (input : Zod.GenerateHeroInput) (o : Oracle) (w : World) :
  Zod.generateHeroInputSchema args = inr input ->
  let vibeText :=
    match Zod.gh_vibe input with
    | Some vibe => if Str.truthy vibe then ", " +:+ vibe +:+ " vibe" else ""
    | None => ""
    end in
  let suggested :=
    "Hero banner image for "
    +:+ String (Ascii.ascii_of_nat 34)
          (Zod.gh_product_name input
           +:+ String (Ascii.ascii_of_nat 34)
                 (". " +:+ Zod.gh_tagline input +:+ vibeText
                  +:+ ". Professional, eye-catching, suitable for website header.")) in
  let degraded :=
    {| content :=
         [ {| ctype := "text";
              ctext :=
                Stringify
                  (Obj [ ("ok", Bool false);
                         ("suggested_prompt", Str suggested);
                         ("message", Str "Image provider not configured. Configure GEMINI_API_KEY to generate images.") ])
                  true |} ] |} in
  (forall provider : ImageProvider,
      isConfigured provider = false ->
      handleGenerateHero env cwd moduleDir zodMessage args provider o w = (inr degraded, w)) /\
  (apiKey (geminiConfig env) = "" ->
   atCapacity env (inWindow (dateNow o) (timestampsOf w "generate_hero")) = false ->
   callTool env cwd moduleDir zodMessage "generate_hero" args o w
   = (degraded, recorded "generate_hero" (dateNow o) w) /\
   trace (snd (callTool env cwd moduleDir zodMessage "generate_hero" args o w)) = trace w).
Proof.
  intros Hs vibeText suggested degraded.
  assert (Hprompt : heroPrompt input = suggested).
  { unfold heroPrompt, suggested, vibeText.
    destruct (Zod.gh_vibe input) as [[|c v]|]; reflexivity. }
  assert (Hh : forall provider w0, isConfigured provider = false ->
               handleGenerateHero env cwd moduleDir zodMessage args provider o w0
               = (inr degraded, w0)).
  { intros provider w0 Hc. unfold handleGenerateHero, bindM, lift, Zod.parse.
    rewrite Hs, Hc, Hprompt. reflexivity. }
  split.
  - intros provider Hc. apply Hh, Hc.
  - intros Hk Hq.
    assert (Hcall : callTool env cwd moduleDir zodMessage "generate_hero" args o w
                    = (degraded, recorded "generate_hero" (dateNow o) w)).
    { unfold callTool.
      rewrite callToolWith_dispatch, dispatch_under by exact Hq.
      unfold route; simpl. rewrite Hh; [reflexivity|].
      unfold imageProvider, GeminiProvider.provider, GeminiProvider.isConfigured. simpl.
      simpl in Hk. rewrite Hk. reflexivity. }
    split; [exact Hcall|]. rewrite Hcall. reflexivity.
Qed.

End Dispatch.

(** An oracle for a provider that answers with one inline image. *)
Definition answering (now : Z) (image : string) : Oracle :=
  {| dateNow := now;
     isoString := "2024-05-06T07:08:09.123Z";
     randomHex := "0a1b2c3d";
     isUrl := fun _ => true;
     apiFetch :=
       inr {| ok := true; status := 200; statusText := "OK";
              text := inr "";
              json := inr (Obj [ ("candidates",
                                   Arr [ Obj [ ("content",
                                                 Obj [ ("parts",
                                                         Arr [ Obj [ ("inline_data",
                                                                       Obj [ ("data", Str image) ]) ] ]) ]) ] ]) ]);
              arrayBuffer := inr "" |};
     urlFetch := inl (TypeError "fetch failed");
     fsAccess := fun _ => true;
     fsMkdir := fun _ => None;
     fsWriteFile := fun _ => None |}.

(** An oracle for a process that cannot reach the network: every fetch is
    rejected; the outputs directory exists and writes succeed. *)
Definition offline (now : Z) : Oracle :=
  {| dateNow := now;
     isoString := "2024-05-06T07:08:09.123Z";
     randomHex := "0a1b2c3d";
     isUrl := fun _ => true;
     apiFetch := inl (TypeError "fetch failed");
     urlFetch := inl (TypeError "fetch failed");
     fsAccess := fun _ => true;
     fsMkdir := fun _ => None;
     fsWriteFile := fun _ => None |}.

Definition noEnv : ProcessEnv :=
  {| GEMINI_API_KEY := None; GEMINI_BASE_URL := None; GEMINI_MODEL := None;
     RATE_LIMIT_PER_MINUTE := None; OUTPUT_DIR_ := None |}.

Definition freshWorld : World := {| rateLimitMap := ∅; trace := [] |}.

(** The environment with another credential. *)
Definition withKey (env : ProcessEnv) (key : string) : ProcessEnv :=
  {| GEMINI_API_KEY := Some key;
     GEMINI_BASE_URL := GEMINI_BASE_URL env;
     GEMINI_MODEL := GEMINI_MODEL env;
     RATE_LIMIT_PER_MINUTE := RATE_LIMIT_PER_MINUTE env;
     OUTPUT_DIR_ := OUTPUT_DIR_ env |}.

(** A provider whose [generateImage] throws a value that is no [Error]. *)
Definition throwing (v : value) : ImageProvider :=
  {| generateImage := fun _ _ => throw (Thrown v);
     isConfigured := true;
     getName := "throwing" |}.

(** An icon request in a configured process that cannot reach the
    network, and the same request to a provider that throws a string. *)
Lemma C7_failures_become_payloads_witness :
  let env := withKey noEnv "k" in
  let args := Obj [ ("concept", Str "a rocket") ] in
  let payload message :=
    {| content :=
         [ {| ctype := "text";
              ctext := Stringify (Obj [ ("ok", Bool false); ("error", Str message) ])
                                 false |} ] |} in
  fst (callToolWith env "/" "srv/dist/utils" (fun _ => "invalid")
         (imageProvider env) "generate_icon" args (offline 5) freshWorld)
  = payload "Image generation failed: fetch failed" /\
  fst (callToolWith env "/" "srv/dist/utils" (fun _ => "invalid")
         (throwing (Str "boom")) "generate_icon" args (offline 5) freshWorld)
  = payload "Unknown error".
Proof.
  intros env args payload. split.
  - apply (proj1 (proj2 (proj2 (proj2 (proj2 (proj2
             (proj2 (proj2 (C7_failures_become_payloads env "/" "srv/dist/utils"
                              (fun _ => "invalid") (imageProvider env) "generate_icon"
                              args (offline 5) freshWorld)) eq_refl))))))
             {| Zod.gc_concept := "a rocket"; Zod.gc_theme := "minimal";
                Zod.gc_size := "512x512"; Zod.gc_output_format := "png" |}
             (Error "Image generation failed: fetch failed")
             (snd (generateImage (imageProvider env)
                     {| prompt := "A minimalist, clean lines, simple shapes, modern icon representing: a rocket. Icon design, centered, clean background.";
                        style := Some "flat"; size := Some "512x512";
                        background := Some "transparent"; format := Some "png" |}
                     (offline 5) (recorded "generate_icon" 5 freshWorld)))).
    + reflexivity.
    + reflexivity.
    + reflexivity.
  - apply (proj1 (proj2 (proj2 (proj2 (proj2 (proj2
             (proj2 (proj2 (C7_failures_become_payloads env "/" "srv/dist/utils"
                              (fun _ => "invalid") (throwing (Str "boom")) "generate_icon"
                              args (offline 5) freshWorld)) eq_refl))))))
             {| Zod.gc_concept := "a rocket"; Zod.gc_theme := "minimal";
                Zod.gc_size := "512x512"; Zod.gc_output_format := "png" |}
             (Thrown (Str "boom"))
             (recorded "generate_icon" 5 freshWorld)).
    + reflexivity.
    + reflexivity.
    + reflexivity.
Defined.

(** An unknown tool name in a fresh process uses up one unit of quota. *)
Lemma C10_unknown_tool_consumes_quota_witness :
  callTool noEnv "/" "srv/dist/utils" (fun _ => "invalid")
           "resize_image" Undefined (offline 5) freshWorld
  = (failure "Unknown tool: resize_image", recorded "resize_image" 5 freshWorld) /\
  timestampsOf (recorded "resize_image" 5 freshWorld) "resize_image" = [5].
Proof.
  apply (C10_unknown_tool_consumes_quota noEnv "/" "srv/dist/utils" (fun _ => "invalid")
           "resize_image" Undefined (offline 5) freshWorld).
  - reflexivity.
  - reflexivity.
Defined.

(** C10 as the specification words it: every call with an unknown tool
    name returns the unknown-tool payload and records a timestamp. *)
Definition unknownToolAlwaysRecorded : Prop :=
  forall (env : ProcessEnv) (cwd moduleDir : string) (zodMessage : list Zod.Issue -> string)
         (name : string) (args : value) (o : Oracle) (w : World),
    knownTool name = false ->
    callTool env cwd moduleDir zodMessage name args o w
    = (failure ("Unknown tool: " +:+ name), recorded name (dateNow o) w).

(** A name that already has twenty timestamps inside the window. *)
Definition saturated : World :=
  {| rateLimitMap := {[ "resize_image" := repeat 0 20 ]}; trace := [] |}.

(** The 21st call with an unknown name gets the rate-limit error, not the
    unknown-tool error, and no timestamp is recorded for it. *)
Lemma C10_counterexample :
  knownTool "resize_image" = false /\
  callTool noEnv "/" "srv/dist/utils" (fun _ => "invalid")
           "resize_image" Undefined (offline 5) saturated
  = (failure "Rate limit exceeded: max 20 requests per minute", saturated) /\
  ~ unknownToolAlwaysRecorded.
Proof.
  assert (Hcall : callTool noEnv "/" "srv/dist/utils" (fun _ => "invalid")
                    "resize_image" Undefined (offline 5) saturated
                  = (failure "Rate limit exceeded: max 20 requests per minute", saturated)).
  { unfold callTool. rewrite callToolWith_dispatch, dispatch_over; [reflexivity|].
    unfold timestampsOf, saturated. simpl. rewrite lookup_singleton_eq. reflexivity. }
  split; [reflexivity|]. split; [exact Hcall|].
  intros H.
  specialize (H noEnv "/" "srv/dist/utils" (fun _ => "invalid")
                "resize_image" Undefined (offline 5) saturated eq_refl).
  rewrite Hcall in H. discriminate H.
Qed.

(** A hero request in a process without a credential. *)
Lemma C5_hero_degraded_mode_witness :
  let args := Obj [ ("product_name", Str "BananaMCP");
                    ("tagline", Str "The sweetest MCP server");
                    ("vibe", Str "playful") ] in
  callTool noEnv "/" "srv/dist/utils" (fun _ => "invalid")
           "generate_hero" args (offline 5) freshWorld
  = ({| content :=
          [ {| ctype := "text";
               ctext :=
                 Stringify
                   (Obj [ ("ok", Bool false);
                          ("suggested_prompt",
                            Str ("Hero banner image for "
                                 +:+ String (Ascii.ascii_of_nat 34)
                                       ("BananaMCP"
                                        +:+ String (Ascii.ascii_of_nat 34)
                                              ". The sweetest MCP server, playful vibe. Professional, eye-catching, suitable for website header.")));
                          ("message", Str "Image provider not configured. Configure GEMINI_API_KEY to generate images.") ])
                   true |} ] |},
     recorded "generate_hero" 5 freshWorld).
Proof.
  intros args.
  apply (proj2 (C5_hero_degraded_mode noEnv "/" "srv/dist/utils" (fun _ => "invalid")
                  args
                  {| Zod.gh_product_name := "BananaMCP";
                     Zod.gh_tagline := "The sweetest MCP server";
                     Zod.gh_vibe := Some "playful";
                     Zod.gh_size := "1536x1024";
                     Zod.gh_output_format := "png" |}
                  (offline 5) freshWorld eq_refl)).
  - reflexivity.
  - reflexivity.
Defined.

(** ** Response parsing *)

(** The specification's reading of the parser: an ordered list of shapes,
    each either recognising the response or not; the first that does
    wins. *)
Module Shapes.

Definition shape : Type := value -> option (value * DataFormat).

(** The inline image data of one content part, if it holds any. *)
Definition inlineData (part : value) : option value :=
  let d := Js.getOpt (Js.getOpt part "inline_data") "data" in
  if Js.truthy d then Some d else None.

(** The content parts of one candidate. *)
Definition partsOf (candidate : value) : list value :=
  match Js.getOpt (Js.getOpt candidate "content") "parts" with
  | Arr items => items
  | _ => []
  end.

(** The documented shape: the first inline image data among the parts of
    the candidates, in order. *)
Definition nested : shape := fun response =>
  match Js.getOpt response "candidates" with
  | Arr candidates =>
      match omap inlineData (concat (List.map partsOf candidates)) with
      | d :: _ => Some (d, base64)
      | [] => None
      end
  | _ => None
  end.

(** A non-empty string under [key], tagged by its [http] prefix. *)
Definition stringField (key : string) : shape := fun response =>
  match Js.getOpt response key with
  | Str s => if Str.truthy s then Some (Str s, GeminiProvider.formatOf s) else None
  | _ => None
  end.

Definition image : shape := stringField "image".

Definition data_ : shape := stringField "data".

Definition url_ : shape := fun response =>
  match Js.getOpt response "url" with
  | Str s => if Str.truthy s then Some (Str s, url) else None
  | _ => None
  end.

(** The first element of a non-empty [images] array. *)
Definition images : shape := fun response =>
  match Js.getOpt response "images" with
  | Arr (Str s :: _) => Some (Str s, GeminiProvider.formatOf s)
  | Arr (first :: _) =>
      Some (Js.or (Js.getOpt first "url") (Js.getOpt first "data"), base64)
  | _ => None
  end.

Fixpoint firstMatch (shapes : list shape) (response : value)
  : option (value * DataFormat) :=
  match shapes with
  | [] => None
  | s :: rest =>
      match s response with
      | Some found => Some found
      | None => firstMatch rest response
      end
  end.

(** Parsing by an ordered list of shapes. *)
Definition parseWith (shapes : list shape) (unparseable : string)
           (response : value) (size : string) : result ImageGenerationResult :=
  let '(w, h) := parseSize size in
  match firstMatch shapes response with
  | Some (d, f) => inr {| data := d; dataFormat := f; width := w; height := h |}
  | None => inl (Error unparseable)
  end.

(** The five shapes of the specification, in its order. *)
Definition five : list shape := [nested; image; data_; url_; images].

(** The four shapes of the current adapter, in its order. *)
Definition four : list shape := [nested; image; data_; url_].

(** No entry of the candidates list or of a parts list is [null], and
    every truthy [parts] is an array or a string: walking the documented
    shape raises no [TypeError]. *)
Definition partsOk (parts : value) : bool :=
  match parts with
  | Arr items => forallb (fun part => negb (Js.nullish part)) items
  | Str _ => true
  | other => negb (Js.truthy other)
  end.

Definition candidateOk (candidate : value) : bool :=
  negb (Js.nullish candidate)
  && partsOk (Js.getOpt (Js.getOpt candidate "content") "parts").

Definition walkable (response : value) : bool :=
  negb (Js.nullish response)
  && match Js.getOpt response "candidates" with
     | Arr candidates => forallb candidateOk candidates
     | _ => true
     end.

End Shapes.

Lemma get_getOpt (v : value) (k : string) :
  Js.nullish v = false -> Js.get v k = inr (Js.getOpt v k).
Proof. destruct v; simpl; intros H; try discriminate H; reflexivity. Qed.

Lemma scanParts_omap (items : list value) :
  forallb (fun part => negb (Js.nullish part)) items = true ->
  GeminiProvider.scanParts items = inr (head (omap Shapes.inlineData items)).
Proof.
  induction items as [|part rest IH]; [reflexivity|].
  simpl. rewrite andb_true_iff, negb_true_iff. intros [Hp Hrest].
  rewrite (get_getOpt _ _ Hp). simpl.
  unfold Shapes.inlineData at 1.
  destruct (Js.truthy _); [reflexivity|]. apply IH, Hrest.
Qed.

Lemma iterateParts_omap (candidate : value) :
  Shapes.partsOk (Js.getOpt (Js.getOpt candidate "content") "parts") = true ->
  Js.truthy (Js.getOpt (Js.getOpt candidate "content") "parts") = true ->
  GeminiProvider.iterateParts (Js.getOpt (Js.getOpt candidate "content") "parts")
  = inr (head (omap Shapes.inlineData (Shapes.partsOf candidate))).
Proof.
  unfold Shapes.partsOf.
  destruct (Js.getOpt (Js.getOpt candidate "content") "parts") as [| |b|n|s|items|fields|fn];
    simpl; intros Hok Ht; try discriminate Ht; try reflexivity.
  - rewrite Ht in Hok. discriminate Hok.
  - rewrite Ht in Hok. discriminate Hok.
  - apply scanParts_omap, Hok.
  - discriminate Hok.
  - discriminate Hok.
Qed.

Lemma partsOf_falsy (candidate : value) :
  Js.truthy (Js.getOpt (Js.getOpt candidate "content") "parts") = false ->
  Shapes.partsOf candidate = [].
Proof.
  unfold Shapes.partsOf.
  destruct (Js.getOpt (Js.getOpt candidate "content") "parts");
    simpl; intros H; try reflexivity; discriminate H.
Qed.

Lemma scanCandidates_omap (candidates : list value) :
  forallb Shapes.candidateOk candidates = true ->
  GeminiProvider.scanCandidates candidates
  = inr (head (omap Shapes.inlineData (concat (List.map Shapes.partsOf candidates)))).
Proof.
  induction candidates as [|candidate rest IH]; [reflexivity|].
  simpl. rewrite andb_true_iff. unfold Shapes.candidateOk at 1.
  rewrite andb_true_iff, negb_true_iff. intros [[Hc Hp] Hrest].
  rewrite (get_getOpt _ _ Hc). simpl.
  rewrite omap_app.
  destruct (Js.truthy (Js.getOpt (Js.getOpt candidate "content") "parts")) eqn:Ht.
  - rewrite (iterateParts_omap _ Hp Ht). simpl.
    destruct (omap Shapes.inlineData (Shapes.partsOf candidate)) as [|d ds]; simpl.
    + apply IH, Hrest.
    + reflexivity.
  - rewrite (partsOf_falsy _ Ht). simpl. apply IH, Hrest.
Qed.



(** C2 as the specification words it: the current adapter parses by the
    five shapes. *)
Definition parsesByFiveShapes : Prop :=
  forall (response : value) (size : string),
    GeminiProvider.parseResponse response size
    = Shapes.parseWith Shapes.five GeminiProvider.unparseable response size.


(** ** The credential and the returned payloads *)

(** An event without its request headers. *)
Definition withoutHeaders (e : event) : event :=
  match e with
  | FetchApi endpoint _ body => FetchApi endpoint [] body
  | other => other
  end.

(** Two worlds that differ at most in the headers of recorded requests. *)
Definition sameButHeaders (w1 w2 : World) : Prop :=
  rateLimitMap w1 = rateLimitMap w2 /\
  List.map withoutHeaders (trace w1) = List.map withoutHeaders (trace w2).

(** Two computations that, from such worlds, give the same outcome and
    lead to such worlds. *)
Definition related {A : Type} (m1 m2 : M A) : Prop :=
  forall w1 w2, sameButHeaders w1 w2 ->
    fst (m1 w1) = fst (m2 w2) /\ sameButHeaders (snd (m1 w1)) (snd (m2 w2)).

Section Related.

Context {A B : Type}.

Lemma related_ret (a : A) : related (ret a) (ret a).
Proof. intros w1 w2 H. split; [reflexivity|exact H]. Qed.

Lemma related_throw (e : exn) : related (@throw A e) (throw e).
Proof. intros w1 w2 H. split; [reflexivity|exact H]. Qed.

Lemma related_lift (r : result A) : related (lift r) (lift r).
Proof. intros w1 w2 H. split; [reflexivity|exact H]. Qed.

Lemma related_bind (m1 m2 : M A) (k1 k2 : A -> M B) :
  related m1 m2 -> (forall a, related (k1 a) (k2 a)) ->
  related (bindM m1 k1) (bindM m2 k2).
Proof.
  intros Hm Hk w1 w2 H. unfold bindM.
  destruct (Hm w1 w2 H) as [Hr Hw].
  destruct (m1 w1) as [[e1|a1] w1'], (m2 w2) as [[e2|a2] w2']; simpl in *;
    try discriminate Hr.
  - split; [congruence|exact Hw].
  - injection Hr as ->. apply Hk, Hw.
Qed.

Lemma related_tryCatch (m1 m2 : M A) (h1 h2 : exn -> M A) :
  related m1 m2 -> (forall e, related (h1 e) (h2 e)) ->
  related (tryCatch m1 h1) (tryCatch m2 h2).
Proof.
  intros Hm Hh w1 w2 H. unfold tryCatch.
  destruct (Hm w1 w2 H) as [Hr Hw].
  destruct (m1 w1) as [[e1|a1] w1'], (m2 w2) as [[e2|a2] w2']; simpl in *;
    try discriminate Hr.
  - injection Hr as ->. apply Hh, Hw.
  - split; [congruence|exact Hw].
Qed.

End Related.

Lemma related_emit (e1 e2 : event) :
  withoutHeaders e1 = withoutHeaders e2 -> related (emit e1) (emit e2).
Proof.
  intros He w1 w2 [Hm Ht]. split; [reflexivity|].
  split; simpl; [exact Hm|].
  rewrite !map_app, Ht. simpl. rewrite He. reflexivity.
Qed.

Lemma related_raiseIf (o : option exn) : related (raiseIf o) (raiseIf o).
Proof. destruct o; [apply related_throw|apply related_ret]. Qed.

Lemma related_checkRateLimit (env : ProcessEnv) (toolName : string) (now : Z) :
  related (checkRateLimit env toolName now) (checkRateLimit env toolName now).
Proof.
  intros w1 w2 [Hm Ht]. rewrite !checkRateLimit_unfold.
  unfold timestampsOf. rewrite Hm.
  destruct (atCapacity env _); simpl.
  - split; [reflexivity|]. split; assumption.
  - split; [reflexivity|]. split; simpl; [reflexivity|exact Ht].
Qed.

(** Relatedness of composite computations, piece by piece. *)
Ltac related_step :=
  first
    [ apply related_ret
    | apply related_throw
    | apply related_lift
    | apply related_raiseIf
    | apply related_checkRateLimit
    | apply related_emit; reflexivity
    | apply related_bind; [|intros ?]
    | apply related_tryCatch; [|intros ?] ].

Section RelatedHandlers.

Variable env : ProcessEnv.
Variables cwd moduleDir : string.
Variable zodMessage : list Zod.Issue -> string.

Lemma related_ensureOutputsDir (site : EnsureSite) (o : Oracle) :
  related (ensureOutputsDir env cwd moduleDir site o)
          (ensureOutputsDir env cwd moduleDir site o).
Proof.
  unfold ensureOutputsDir. destruct (fsAccess o site); repeat related_step.
Qed.

Lemma related_writeImageBuffer (buffer : Buffer) (filename : string) (o : Oracle) :
  related (writeImageBuffer env cwd moduleDir buffer filename o)
          (writeImageBuffer env cwd moduleDir buffer filename o).
Proof.
  unfold writeImageBuffer.
  apply related_bind; [apply related_ensureOutputsDir|intros _].
  repeat related_step.
Qed.

Lemma related_writeBase64Image (d : value) (filename : string) (o : Oracle) :
  related (writeBase64Image env cwd moduleDir d filename o)
          (writeBase64Image env cwd moduleDir d filename o).
Proof.
  unfold writeBase64Image.
  apply related_bind; [apply related_ensureOutputsDir|intros _].
  apply related_bind; [destruct d; related_step|intros ?].
  repeat related_step.
Qed.

Lemma related_downloadImage (u : value) (filename : string) (o : Oracle) :
  related (downloadImage env cwd moduleDir u filename o)
          (downloadImage env cwd moduleDir u filename o).
Proof.
  unfold downloadImage.
  apply related_bind; [apply related_ensureOutputsDir|intros _].
  apply related_bind; [related_step|intros _].
  apply related_bind; [related_step|intros response].
  apply related_bind; [destruct (negb (ok response)); related_step|intros _].
  apply related_bind; [related_step|intros bytes].
  apply related_writeImageBuffer.
Qed.

Lemma related_saveImage (r : ImageGenerationResult) (filename : string) (o : Oracle) :
  related (saveImage env cwd moduleDir r filename o)
          (saveImage env cwd moduleDir r filename o).
Proof.
  unfold saveImage. destruct (dataFormat r).
  - apply related_writeBase64Image.
  - apply related_downloadImage.
Qed.

(** Two providers that agree on being configured and whose
    [generateImage] are related. *)
Definition relatedProviders (p1 p2 : ImageProvider) : Prop :=
  isConfigured p1 = isConfigured p2 /\
  forall options o, related (generateImage p1 options o) (generateImage p2 options o).

Variables p1 p2 : ImageProvider.
Hypothesis Hp : relatedProviders p1 p2.

Lemma related_handleGenerateImage (args : value) (o : Oracle) :
  related (handleGenerateImage env cwd moduleDir zodMessage args p1 o)
          (handleGenerateImage env cwd moduleDir zodMessage args p2 o).
Proof.
  unfold handleGenerateImage.
  apply related_bind; [related_step|intros input].
  apply related_bind.
  { destruct (Zod.gi_output_path input) as [[|c p]|]; repeat related_step. }
  intros filename.
  apply related_bind; [apply Hp|intros r].
  apply related_bind; [apply related_saveImage|intros filePath].
  related_step.
Qed.

Lemma related_handleGenerateIcon (args : value) (o : Oracle) :
  related (handleGenerateIcon env cwd moduleDir zodMessage args p1 o)
          (handleGenerateIcon env cwd moduleDir zodMessage args p2 o).
Proof.
  unfold handleGenerateIcon.
  apply related_bind; [related_step|intros input].
  apply related_bind; [apply Hp|intros r].
  apply related_bind; [apply related_saveImage|intros filePath].
  destruct (parseSize (Zod.gc_size input)). related_step.
Qed.

Lemma related_handleGenerateHero (args : value) (o : Oracle) :
  related (handleGenerateHero env cwd moduleDir zodMessage args p1 o)
          (handleGenerateHero env cwd moduleDir zodMessage args p2 o).
Proof.
  unfold handleGenerateHero.
  apply related_bind; [related_step|intros input].
  destruct Hp as [Hc Hg]. rewrite Hc.
  destruct (negb (isConfigured p2)); [related_step|].
  apply related_bind; [apply Hg|intros r].
  apply related_bind; [apply related_saveImage|intros filePath].
  related_step.
Qed.

Lemma related_handleBeautifyScreenshot (args : value) :
  related (handleBeautifyScreenshot env cwd moduleDir zodMessage args)
          (handleBeautifyScreenshot env cwd moduleDir zodMessage args).
Proof. unfold handleBeautifyScreenshot. repeat related_step. Qed.

Lemma related_dispatch (name : string) (args : value) (o : Oracle) :
  related (dispatch env cwd moduleDir zodMessage name args p1 o)
          (dispatch env cwd moduleDir zodMessage name args p2 o).
Proof.
  unfold dispatch. apply related_bind; [related_step|intros _].
  unfold route.
  destruct (String.eqb name "generate_image"); [apply related_handleGenerateImage|].
  destruct (String.eqb name "generate_icon"); [apply related_handleGenerateIcon|].
  destruct (String.eqb name "generate_hero"); [apply related_handleGenerateHero|].
  destruct (String.eqb name "beautify_screenshot");
    [apply related_handleBeautifyScreenshot|].
  related_step.
Qed.

End RelatedHandlers.

(** A credential that [fetch] accepts as the value of a header: stripped
    of blanks at both ends it holds no NUL, LF or CR. *)
Definition acceptedKey (key : string) : bool :=
  Fetch.isValidHeaderValue (Fetch.headerValueNormalize key).

(** With an accepted credential the headers of the provider request pass
    the check of [fetch], whose outcome is then the answer of the network. *)
Lemma fetch_accepted (parses : bool) (key : string) (answer : result Response) :
  acceptedKey key = true ->
  Fetch.fetch parses
    [ ("Content-Type", "application/json"); ("x-goog-api-key", key) ] answer
  = answer.
Proof.
  unfold acceptedKey, Fetch.fetch. intros H. destruct parses; [|reflexivity].
  cbn [Fetch.checkHeaders].
  change (Fetch.isValidHeaderValue (Fetch.headerValueNormalize "application/json"))
    with true.
  cbv iota. rewrite H. reflexivity.
Qed.

(** With any other credential, and an endpoint that is a URL, the call
    fails before anything is sent, and the error quotes the credential. *)
Lemma fetch_refused (key : string) (answer : result Response) :
  acceptedKey key = false ->
  Fetch.fetch true
    [ ("Content-Type", "application/json"); ("x-goog-api-key", key) ] answer
  = inl (Fetch.invalidHeaderValue (Fetch.headerValueNormalize key)).
Proof.
  unfold acceptedKey, Fetch.fetch. intros H.
  cbn [Fetch.checkHeaders].
  change (Fetch.isValidHeaderValue (Fetch.headerValueNormalize "application/json"))
    with true.
  cbv iota. rewrite H. reflexivity.
Qed.

Lemma related_generateImage (c1 c2 : GeminiConfig)
      (options : ImageGenerationOptions) (o : Oracle) :
  baseUrl c1 = baseUrl c2 -> model c1 = model c2 ->
  Str.truthy (apiKey c1) = Str.truthy (apiKey c2) ->
  acceptedKey (apiKey c1) = true -> acceptedKey (apiKey c2) = true ->
  related (GeminiProvider.generateImage c1 options o)
          (GeminiProvider.generateImage c2 options o).
Proof.
  intros Hb Hm Hk Ha1 Ha2.
  unfold GeminiProvider.generateImage, GeminiProvider.isConfigured.
  rewrite Hb, Hm, Hk.
  destruct (negb (Str.truthy (apiKey c2) && Str.truthy (baseUrl c2))); [related_step|].
  cbv zeta. rewrite !fetch_accepted by assumption.
  apply related_tryCatch; [|intros e; related_step].
  apply related_bind; [related_step|intros _].
  apply related_bind; [related_step|intros response].
  apply related_bind.
  { destruct (negb (ok response)); repeat related_step. }
  intros _. repeat related_step.
Qed.

Lemma relatedProviders_withKey (env : ProcessEnv) (key1 key2 : string) :
  Str.truthy key1 = true -> Str.truthy key2 = true ->
  acceptedKey key1 = true -> acceptedKey key2 = true ->
  relatedProviders (imageProvider (withKey env key1)) (imageProvider (withKey env key2)).
Proof.
  intros H1 H2 Ha1 Ha2.
  assert (Hk : forall k, Str.truthy k = true -> apiKey (geminiConfig (withKey env k)) = k).
  { intros k Hk. unfold geminiConfig, withKey, orElse. simpl. rewrite Hk. reflexivity. }
  split.
  - unfold imageProvider, GeminiProvider.provider, GeminiProvider.isConfigured.
    cbn [isConfigured]. rewrite !Hk by assumption. rewrite H1, H2. reflexivity.
  - intros options o. unfold imageProvider, GeminiProvider.provider. simpl.
    apply related_generateImage; try reflexivity;
      rewrite ?Hk by assumption; congruence.
Qed.



(** C8 as the specification words it: no error payload contains the
    configured credential. *)
Definition errorNeverContainsCredential : Prop :=
  forall (env : ProcessEnv) (cwd moduleDir : string)
         (zodMessage : list Zod.Issue -> string)
         (name : string) (args : value) (o : Oracle) (w : World) (message : string),
    Str.truthy (apiKey (geminiConfig env)) = true ->
    fst (callTool env cwd moduleDir zodMessage name args o w) = failure message ->
    Str.includes message (apiKey (geminiConfig env)) = false.

(** A credential with a line break in it, as a value pasted from a file
    may have. *)
Definition brokenKey : string :=
  "AIzaSy-first-line" +:+ String (Ascii.ascii_of_nat 10) "second-line".


(** ** Facts about strings and paths *)

Module StrFacts.

Lemma app_cons (x : ascii) (a b : string) : String x a +:+ b = String x (a +:+ b).
Proof. reflexivity. Qed.

Lemma app_nil_l (a : string) : "" +:+ a = a.
Proof. reflexivity. Qed.

Lemma app_assoc (a b c : string) : (a +:+ b) +:+ c = a +:+ (b +:+ c).
Proof.
  induction a as [|x a IH]; [reflexivity|].
  rewrite !app_cons, IH. reflexivity.
Qed.

Lemma app_nil_r (a : string) : a +:+ "" = a.
Proof.
  induction a as [|x a IH]; [reflexivity|].
  rewrite app_cons, IH. reflexivity.
Qed.

Lemma length_app (a b : string) :
  String.length (a +:+ b) = (String.length a + String.length b)%nat.
Proof.
  induction a as [|x a IH]; [reflexivity|].
  rewrite app_cons. simpl. rewrite IH. reflexivity.
Qed.

Lemma startsWith_app (p s : string) : Str.startsWith (p +:+ s) p = true.
Proof.
  induction p as [|c p IH]; [destruct s; reflexivity|].
  rewrite app_cons. simpl. rewrite Ascii.eqb_refl. exact IH.
Qed.

Lemma startsWith_refl (p : string) : Str.startsWith p p = true.
Proof. rewrite <- (app_nil_r p) at 1. apply startsWith_app. Qed.

Lemma startsWith_nil (s : string) : Str.startsWith s "" = true.
Proof. destruct s; reflexivity. Qed.

(** A prefix is what the string begins with. *)
Lemma startsWith_inv (s p : string) :
  Str.startsWith s p = true -> exists rest, s = p +:+ rest.
Proof.
  revert s. induction p as [|c p IH]; intros s H.
  - exists s. reflexivity.
  - destruct s as [|d s]; simpl in H; [discriminate H|].
    destruct (Ascii.eqb_spec c d) as [->|]; [|discriminate H].
    destruct (IH s H) as [rest ->]. exists rest. reflexivity.
Qed.

Lemma startsWith_length (s p : string) :
  Str.startsWith s p = true -> (String.length p <= String.length s)%nat.
Proof.
  intros H. destruct (startsWith_inv s p H) as [rest ->].
  rewrite length_app. lia.
Qed.

(** A common beginning can be dropped from both sides. *)
Lemma startsWith_cancel (a s p : string) :
  Str.startsWith (a +:+ s) (a +:+ p) = Str.startsWith s p.
Proof.
  induction a as [|c a IH].
  - reflexivity.
  - rewrite !app_cons. simpl. rewrite Ascii.eqb_refl. exact IH.
Qed.

Lemma lacks_app (c : ascii) (a b : string) :
  Str.lacks c (a +:+ b) = Str.lacks c a && Str.lacks c b.
Proof.
  induction a as [|x a IH]; [reflexivity|].
  rewrite app_cons. simpl. rewrite IH, andb_assoc. reflexivity.
Qed.

Lemma split_nonempty (c : ascii) (s : string) : Str.split c s <> [].
Proof.
  induction s as [|x s IH]; simpl; [discriminate|].
  destruct (Ascii.eqb x c); [discriminate|].
  destruct (Str.split c s); discriminate.
Qed.

(** Splitting at a separator occurrence splits the list of pieces. *)
Lemma split_app (c : ascii) (a b : string) :
  Str.split c (a +:+ String c b) = Str.split c a ++ Str.split c b.
Proof.
  induction a as [|x a IH].
  - rewrite app_nil_l. simpl. rewrite Ascii.eqb_refl. reflexivity.
  - rewrite app_cons. simpl.
    destruct (Ascii.eqb x c); [rewrite IH; reflexivity|].
    rewrite IH. pose proof (split_nonempty c a) as Hne.
    destruct (Str.split c a) as [|h t]; [congruence|]. reflexivity.
Qed.

Lemma split_lacks (c : ascii) (s : string) :
  Str.lacks c s = true -> Str.split c s = [s].
Proof.
  induction s as [|x s IH]; simpl; [reflexivity|].
  rewrite andb_true_iff, negb_true_iff. intros [Hx Hs].
  rewrite Hx, (IH Hs). reflexivity.
Qed.

(** No piece of a split contains the separator. *)
Lemma split_pieces (c : ascii) (s : string) :
  Forall (fun piece => Str.lacks c piece = true) (Str.split c s).
Proof.
  induction s as [|x s IH]; simpl; [repeat constructor|].
  destruct (Ascii.eqb x c) eqn:Hx; [constructor; [reflexivity|exact IH]|].
  destruct (Str.split c s) as [|h t]; [repeat constructor; simpl; rewrite Hx; reflexivity|].
  inversion IH as [|? ? Hh Ht]; subst.
  constructor; [simpl; rewrite Hx, Hh; reflexivity|exact Ht].
Qed.

(** [join] undoes [split]. *)
Lemma join_split (c : ascii) (s : string) :
  Str.join (String c "") (Str.split c s) = s.
Proof.
  induction s as [|x s IH]; simpl; [reflexivity|].
  destruct (Ascii.eqb_spec x c) as [->|Hx].
  - pose proof (split_nonempty c s) as Hne.
    destruct (Str.split c s) as [|h t] eqn:E; [congruence|].
    simpl in *. rewrite IH. reflexivity.
  - pose proof (split_nonempty c s) as Hne.
    destruct (Str.split c s) as [|h t] eqn:E; [congruence|].
    destruct t as [|h' t]; simpl in *; rewrite <- IH; reflexivity.
Qed.

End StrFacts.

Module PathFacts.

(** An ordinary path segment: not empty, not ["."], not [".."], no slash. *)
Definition clean (s : string) : bool :=
  Str.truthy s && negb (String.eqb s ".") && negb (String.eqb s "..")
  && Str.lacks Path.slash s.

(** The absolute path with the given segments. *)
Definition render (segs : list string) : string :=
  Path.sep +:+ Str.join Path.sep segs.

(** Every segment preceded by a slash. *)
Fixpoint slashed (segs : list string) : string :=
  match segs with
  | [] => ""
  | s :: rest => Path.sep +:+ s +:+ slashed rest
  end.

(** [dir/name], with no second slash after the root directory. *)
Definition child (dir name : string) : string :=
  if String.eqb dir Path.sep then dir +:+ name else dir +:+ Path.sep +:+ name.

Lemma sep_app (s : string) : Path.sep +:+ s = String Path.slash s.
Proof. reflexivity. Qed.

Lemma slashed_join (s : string) (rest : list string) :
  slashed (s :: rest) = Path.sep +:+ Str.join Path.sep (s :: rest).
Proof.
  revert s. induction rest as [|y rest IH]; intros s.
  - simpl. rewrite StrFacts.app_nil_r. reflexivity.
  - change (slashed (s :: y :: rest)) with (Path.sep +:+ s +:+ slashed (y :: rest)).
    rewrite IH. reflexivity.
Qed.

Lemma render_slashed (segs : list string) :
  segs <> [] -> render segs = slashed segs.
Proof.
  destruct segs as [|s rest]; [congruence|]. intros _.
  unfold render. rewrite slashed_join. reflexivity.
Qed.

Lemma slashed_app (a b : list string) : slashed (a ++ b) = slashed a +:+ slashed b.
Proof.
  induction a as [|s a IH]; [reflexivity|].
  simpl. rewrite IH, !StrFacts.app_assoc. reflexivity.
Qed.

Lemma clean_parts (s : string) :
  clean s = true ->
  Str.truthy s = true /\ String.eqb s "." = false /\ String.eqb s ".." = false
  /\ Str.lacks Path.slash s = true.
Proof.
  unfold clean. rewrite !andb_true_iff, !negb_true_iff. tauto.
Qed.

Lemma render_not_root (s : string) (rest : list string) :
  Str.truthy s = true -> String.eqb (render (s :: rest)) Path.sep = false.
Proof.
  intros Hs. apply String.eqb_neq. unfold render. rewrite sep_app. unfold Path.sep.
  destruct s as [|c s]; [discriminate Hs|].
  destruct rest; simpl; discriminate.
Qed.

Lemma render_snoc (segs : list string) (name : string) :
  Forall (fun s => clean s = true) segs ->
  render (segs ++ [name]) = child (render segs) name.
Proof.
  unfold child. destruct segs as [|s rest]; intros Hc.
  - reflexivity.
  - inversion Hc as [|? ? Hs _]; subst.
    rewrite (render_not_root s rest) by apply (clean_parts s Hs).
    rewrite !render_slashed by (try discriminate; destruct rest; discriminate).
    rewrite slashed_app. simpl. rewrite StrFacts.app_nil_r, !StrFacts.app_assoc.
    reflexivity.
Qed.

(** *** Normalisation of segment lists *)

Lemma step_clean (a : bool) (stack : list string) (s : string) :
  clean s = true -> Path.step a stack s = s :: stack.
Proof.
  intros Hc. destruct (clean_parts s Hc) as (Ht & Hd & Hdd & _).
  unfold Path.step. rewrite Hd, Hdd.
  destruct s; [discriminate Ht|]. reflexivity.
Qed.

Lemma step_up (top : string) (below : list string) :
  clean top = true -> Path.step false (top :: below) ".." = below.
Proof.
  intros Hc. destruct (clean_parts top Hc) as (_ & _ & Hdd & _).
  unfold Path.step. change (String.eqb ".." "" || String.eqb ".." ".") with false.
  change (String.eqb ".." "..") with true. cbv iota. rewrite Hdd. reflexivity.
Qed.

Lemma fold_clean (a : bool) (l stack : list string) :
  Forall (fun s => clean s = true) l ->
  fold_left (Path.step a) l stack = rev l ++ stack.
Proof.
  intros H. revert stack. induction H as [|s l Hs _ IH]; intros stack; [reflexivity|].
  simpl. rewrite (step_clean a stack s Hs), IH, <- app_assoc. reflexivity.
Qed.

(** Without permission to climb above the root, the stack stays clean. *)
Lemma step_keeps_clean (stack : list string) (s : string) :
  Forall (fun s => clean s = true) stack -> Str.lacks Path.slash s = true ->
  Forall (fun s => clean s = true) (Path.step false stack s).
Proof.
  intros Hstack Hs. unfold Path.step.
  destruct (String.eqb s "") eqn:E1; [exact Hstack|].
  destruct (String.eqb s ".") eqn:E2; [exact Hstack|]. simpl.
  destruct (String.eqb s "..") eqn:E3.
  - destruct stack as [|top below]; [constructor|].
    inversion Hstack as [|? ? Htop Hbelow]; subst.
    destruct (clean_parts top Htop) as (_ & _ & Hdd & _). rewrite Hdd. exact Hbelow.
  - constructor; [|exact Hstack].
    unfold clean. rewrite E2, E3, Hs.
    destruct s; [discriminate E1|]. reflexivity.
Qed.

Lemma fold_keeps_clean (l stack : list string) :
  Forall (fun s => clean s = true) stack ->
  Forall (fun s => Str.lacks Path.slash s = true) l ->
  Forall (fun s => clean s = true) (fold_left (Path.step false) l stack).
Proof.
  intros Hstack Hl. revert stack Hstack.
  induction Hl as [|s l Hs _ IH]; intros stack Hstack; [exact Hstack|].
  simpl. apply IH, step_keeps_clean; assumption.
Qed.

Lemma clean_lacks (l : list string) :
  Forall (fun s => clean s = true) l ->
  Forall (fun s => Str.lacks Path.slash s = true) l.
Proof.
  intros H. eapply Forall_impl; [exact H|]. intros s Hs. apply (clean_parts s Hs).
Qed.

Lemma split_join (l : list string) :
  l <> [] -> Forall (fun s => Str.lacks Path.slash s = true) l ->
  Str.split Path.slash (Str.join Path.sep l) = l.
Proof.
  intros Hne H. induction H as [|s l Hs Hl IH]; [congruence|].
  destruct l as [|y l].
  - simpl. apply StrFacts.split_lacks, Hs.
  - change (Str.join Path.sep (s :: y :: l))
      with (s +:+ String Path.slash (Str.join Path.sep (y :: l))).
    rewrite StrFacts.split_app, (StrFacts.split_lacks _ _ Hs), IH by discriminate.
    reflexivity.
Qed.

(** Normalising a rendered clean path from the empty stack gives its
    segments back, innermost first. *)
Lemma fold_render (R : list string) :
  Forall (fun s => clean s = true) R ->
  fold_left (Path.step false) (Str.split Path.slash (render R)) [] = rev R.
Proof.
  intros HR. destruct R as [|s R]; [reflexivity|].
  unfold render. rewrite sep_app.
  change (String Path.slash (Str.join Path.sep (s :: R)))
    with ("" +:+ String Path.slash (Str.join Path.sep (s :: R))).
  rewrite StrFacts.split_app, split_join by (try discriminate; apply clean_lacks, HR).
  simpl Str.split. rewrite fold_left_app. simpl fold_left at 2.
  change (Path.step false [] "") with (@nil string).
  rewrite (fold_clean false _ [] HR), app_nil_r. reflexivity.
Qed.

Lemma render_absolute (R : list string) : Path.isAbsolute (render R) = true.
Proof. reflexivity. Qed.

Lemma absolute_truthy (p : string) : Path.isAbsolute p = true -> Str.truthy p = true.
Proof. destruct p; [discriminate|reflexivity]. Qed.

Lemma normalizeSegments_trailing (a : bool) (l : list string) :
  Path.normalizeSegments a (l ++ [""]) = Path.normalizeSegments a l.
Proof. unfold Path.normalizeSegments. rewrite fold_left_app. reflexivity. Qed.

(** *** [path.resolve] *)

Lemma resolve_absolute (cwd p : string) :
  Path.isAbsolute p = true ->
  Path.resolve cwd [p]
  = render (Path.normalizeSegments false (Str.split Path.slash p)).
Proof.
  intros Ha. unfold Path.resolve. simpl.
  rewrite (absolute_truthy p Ha), Ha. simpl.
  unfold Path.normalizeString, render.
  rewrite !sep_app, StrFacts.split_app. simpl (Str.split Path.slash "").
  rewrite normalizeSegments_trailing. reflexivity.
Qed.

Lemma resolve_onto_absolute (cwd p f : string) :
  Path.isAbsolute f = true -> Path.resolve cwd [p; f] = Path.resolve cwd [f].
Proof.
  intros Ha. unfold Path.resolve. simpl.
  rewrite (absolute_truthy f Ha), Ha. reflexivity.
Qed.

Lemma resolve_onto_empty (cwd p : string) :
  Path.resolve cwd [p; ""] = Path.resolve cwd [p].
Proof. reflexivity. Qed.

Lemma resolve_relative (cwd p f : string) :
  Path.isAbsolute p = true -> Path.isAbsolute f = false -> Str.truthy f = true ->
  Path.resolve cwd [p; f]
  = render (Path.normalizeSegments false
              (Str.split Path.slash p ++ Str.split Path.slash f)).
Proof.
  intros Hp Hf Ht. unfold Path.resolve. simpl.
  rewrite Ht, Hf, (absolute_truthy p Hp), Hp. simpl.
  unfold Path.normalizeString, render.
  rewrite !sep_app, !StrFacts.split_app. simpl (Str.split Path.slash "").
  rewrite app_assoc, normalizeSegments_trailing. reflexivity.
Qed.

(** Resolving against a clean absolute path walks the segments of the
    relative path from the stack of that path. *)
Lemma resolve_from (cwd : string) (R : list string) (f : string) :
  Forall (fun s => clean s = true) R ->
  Path.isAbsolute f = false ->
  Path.resolve cwd [render R; f]
  = render (rev (fold_left (Path.step false) (Str.split Path.slash f) (rev R))).
Proof.
  intros HR Hf. destruct f as [|c f].
  - rewrite resolve_onto_empty, resolve_absolute by reflexivity.
    unfold Path.normalizeSegments. rewrite (fold_render R HR). reflexivity.
  - rewrite resolve_relative by (try reflexivity; exact Hf).
    unfold Path.normalizeSegments. rewrite fold_left_app, (fold_render R HR).
    reflexivity.
Qed.

Lemma normalize_clean (a : string) :
  Forall (fun s => clean s = true)
         (Path.normalizeSegments false (Str.split Path.slash a)).
Proof.
  unfold Path.normalizeSegments. apply Forall_rev.
  apply fold_keeps_clean; [constructor|apply StrFacts.split_pieces].
Qed.

Lemma resolve_clean (cwd : string) (R : list string) :
  Forall (fun s => clean s = true) R -> Path.resolve cwd [render R] = render R.
Proof.
  intros HR. rewrite resolve_absolute by reflexivity.
  unfold Path.normalizeSegments. rewrite (fold_render R HR), rev_involutive.
  reflexivity.
Qed.

(** *** [path.basename] *)

Lemma basename_fold (l : list string) (acc : string) :
  Str.lacks Path.slash acc = true ->
  Forall (fun s => Str.lacks Path.slash s = true) l ->
  Str.lacks Path.slash
    (fold_left (fun acc seg => if Str.truthy seg then seg else acc) l acc) = true.
Proof.
  intros Hacc Hl. revert acc Hacc.
  induction Hl as [|s l Hs _ IH]; intros acc Hacc; [exact Hacc|].
  simpl. apply IH. destruct (Str.truthy s); assumption.
Qed.

(** The base name never contains a separator. *)
Lemma basename_lacks (f : string) : Str.lacks Path.slash (Path.basename f) = true.
Proof.
  unfold Path.basename. apply basename_fold; [reflexivity|apply StrFacts.split_pieces].
Qed.

Lemma basename_bare (f : string) :
  Str.lacks Path.slash f = true -> Path.basename f = f.
Proof.
  intros H. unfold Path.basename. rewrite (StrFacts.split_lacks _ _ H). simpl.
  destruct f; reflexivity.
Qed.

Lemma basename_join (l : list string) (name : string) :
  Forall (fun s => Str.lacks Path.slash s = true) (l ++ [name]) ->
  Str.truthy name = true ->
  Path.basename (Str.join Path.sep (l ++ [name])) = name.
Proof.
  intros Hl Hn. unfold Path.basename.
  rewrite split_join by (try exact Hl; destruct l; discriminate).
  rewrite fold_left_app. simpl. rewrite Hn. reflexivity.
Qed.

(** A name without separator is an ordinary segment, empty, ["."] or [".."]. *)
Lemma segment_cases (b : string) :
  Str.lacks Path.slash b = true ->
  clean b = true \/ b = "" \/ b = "." \/ b = "..".
Proof.
  intros H. unfold clean. rewrite H.
  destruct (String.eqb_spec b "."); [auto|].
  destruct (String.eqb_spec b ".."); [auto|].
  destruct b; [auto|]. left. reflexivity.
Qed.

(** *** [path.join] onto a clean directory *)

Lemma last_split_render (s : string) (R : list string) :
  Forall (fun s => clean s = true) (s :: R) ->
  Path.endsWithSlash (render (s :: R)) = false.
Proof.
  intros HR. unfold Path.endsWithSlash, render. rewrite sep_app.
  change (String Path.slash (Str.join Path.sep (s :: R)))
    with ("" +:+ String Path.slash (Str.join Path.sep (s :: R))).
  rewrite StrFacts.split_app, split_join by (try discriminate; apply clean_lacks, HR).
  simpl Str.split.
  assert (Hl : exists x, last ([""] ++ s :: R) = Some x /\ clean x = true).
  { clear -HR. change ([""] ++ s :: R) with ("" :: s :: R).
    revert s HR. induction R as [|y R IH]; intros s HR.
    - exists s. split; [reflexivity|]. inversion HR; assumption.
    - inversion HR as [|? ? _ HR']; subst. destruct (IH y HR') as (x & Hx & Hc).
      exists x. split; [|exact Hc]. exact Hx. }
  destruct Hl as (x & -> & Hx).
  destruct (clean_parts x Hx) as (Ht & _). destruct x; [discriminate Ht|reflexivity].
Qed.

Lemma join_truthy (s : string) (R : list string) :
  Str.truthy s = true -> Str.truthy (Str.join Path.sep (s :: R)) = true.
Proof.
  intros Hs. destruct s; [discriminate Hs|]. destruct R; reflexivity.
Qed.

Lemma normalize_render (R : list string) :
  Forall (fun s => clean s = true) R -> Path.normalize (render R) = render R.
Proof.
  intros HR. destruct R as [|s R]; [reflexivity|].
  unfold Path.normalize. change (Str.truthy (render (s :: R))) with true.
  change (Path.isAbsolute (render (s :: R))) with true. cbv zeta. simpl negb.
  rewrite (last_split_render s R HR).
  unfold Path.normalizeString, Path.normalizeSegments.
  rewrite (fold_render _ HR), rev_involutive.
  inversion HR as [|? ? Hs _]; subst.
  rewrite (join_truthy s R) by apply (clean_parts s Hs). reflexivity.
Qed.

Lemma normalize_onto (R : list string) (b : string) :
  Forall (fun s => clean s = true) R ->
  Str.lacks Path.slash b = true -> Str.truthy b = true ->
  Path.normalize (render R +:+ Path.sep +:+ b)
  = render (rev (Path.step false (rev R) b)).
Proof.
  intros HR Hb Ht. unfold Path.normalize.
  assert (Hsplit : Str.split Path.slash (render R +:+ Path.sep +:+ b)
                   = Str.split Path.slash (render R) ++ [b]).
  { rewrite sep_app, StrFacts.split_app, (StrFacts.split_lacks _ _ Hb). reflexivity. }
  assert (Htr : Path.endsWithSlash (render R +:+ Path.sep +:+ b) = false).
  { unfold Path.endsWithSlash. rewrite Hsplit, last_snoc.
    destruct b; [discriminate Ht|reflexivity]. }
  rewrite Htr.
  change (Str.truthy (render R +:+ Path.sep +:+ b)) with true.
  change (Path.isAbsolute (render R +:+ Path.sep +:+ b)) with true.
  cbv zeta. simpl negb.
  unfold Path.normalizeString, Path.normalizeSegments.
  rewrite Hsplit, fold_left_app, (fold_render R HR). simpl fold_left.
  unfold render.
  destruct (Str.truthy (Str.join Path.sep (rev (Path.step false (rev R) b)))) eqn:E;
    simpl negb; cbv iota; [reflexivity|].
  destruct (Str.join Path.sep (rev (Path.step false (rev R) b)));
    [reflexivity|discriminate E].
Qed.

(** Joining a name without separator onto a clean directory. *)
Lemma join_onto (R : list string) (b : string) :
  Forall (fun s => clean s = true) R ->
  Str.lacks Path.slash b = true ->
  Path.join [render R; b] = render (rev (Path.step false (rev R) b)).
Proof.
  intros HR Hb. unfold Path.join.
  destruct b as [|c b].
  - change (filter _ [render R; ""]) with [render R].
    change (Path.step false (rev R) "") with (rev R). rewrite rev_involutive.
    simpl Str.join. apply normalize_render, HR.
  - change (filter _ [render R; String c b]) with [render R; String c b].
    change (Str.join Path.sep [render R; String c b])
      with (render R +:+ Path.sep +:+ String c b).
    apply normalize_onto; [exact HR|exact Hb|reflexivity].
Qed.

(** *** String prefixes of rendered paths *)

Definition boundary (r : string) : Prop := r = "" \/ exists r', r = String Path.slash r'.

Lemma slashed_boundary (l : list string) : boundary (slashed l).
Proof. destruct l; [left; reflexivity|right; eexists; reflexivity]. Qed.

(** A prefix without slash cannot reach past a segment boundary. *)
Lemma prefix_stops (a b r : string) :
  Str.lacks Path.slash a = true -> boundary r ->
  Str.startsWith (b +:+ r) a = true -> Str.startsWith b a = true.
Proof.
  intros Ha Hr. revert a Ha. induction b as [|y b IH]; intros a Ha H.
  - rewrite StrFacts.app_nil_l in H. destruct a as [|x a]; [reflexivity|].
    destruct Hr as [-> | [r' ->]]; [discriminate H|].
    cbn [Str.startsWith Str.lacks] in H, Ha.
    destruct (Ascii.eqb x Path.slash) eqn:E; [discriminate Ha|discriminate H].
  - destruct a as [|x a]; [reflexivity|].
    rewrite StrFacts.app_cons in H. cbn [Str.startsWith Str.lacks] in H, Ha |- *.
    destruct (Ascii.eqb x y); [|discriminate H].
    apply IH; [|exact H]. apply andb_true_iff in Ha. apply Ha.
Qed.

(** Two segments followed by a boundary agree when one, with its slash,
    is a prefix of the other with what follows. *)
Lemma segment_match (s b r t : string) :
  Str.lacks Path.slash s = true -> Str.lacks Path.slash b = true -> boundary r ->
  Str.startsWith (b +:+ r) (s +:+ String Path.slash t) = true ->
  s = b /\ Str.startsWith r (String Path.slash t) = true.
Proof.
  intros Hs Hb Hr. revert b Hb. induction s as [|x s IH]; intros b Hb H.
  - rewrite StrFacts.app_nil_l in H. destruct b as [|y b].
    + split; [reflexivity|exact H].
    + rewrite StrFacts.app_cons in H. cbn [Str.startsWith Str.lacks] in H, Hb.
      destruct (Ascii.eqb_spec Path.slash y) as [E|]; [|discriminate H].
      subst y. rewrite Ascii.eqb_refl in Hb. discriminate Hb.
  - rewrite StrFacts.app_cons in H. cbn [Str.lacks] in Hs.
    apply andb_true_iff in Hs. destruct Hs as [Hx Hs].
    destruct b as [|y b].
    + rewrite StrFacts.app_nil_l in H.
      destruct Hr as [-> | [r' ->]]; [discriminate H|].
      cbn [Str.startsWith] in H.
      destruct (Ascii.eqb x Path.slash) eqn:E; [discriminate Hx|discriminate H].
    + rewrite StrFacts.app_cons in H. cbn [Str.startsWith Str.lacks] in H, Hb.
      apply andb_true_iff in Hb. destruct Hb as [_ Hb].
      destruct (Ascii.eqb_spec x y) as [->|]; [|discriminate H].
      destruct (IH Hs b Hb H) as [-> Hrest]. split; [reflexivity|exact Hrest].
Qed.

(** If the rendering of [A] followed by a segment [a] is a string prefix
    of the rendering of [B], then [B] goes through [A] and continues with
    a segment that begins with [a]. *)
Lemma slashed_prefix (A : list string) (a : string) (B : list string) :
  Forall (fun s => Str.lacks Path.slash s = true) A ->
  Str.lacks Path.slash a = true ->
  Forall (fun s => Str.lacks Path.slash s = true) B ->
  Str.startsWith (slashed B) (slashed (A ++ [a])) = true ->
  exists b B', B = A ++ b :: B' /\ Str.startsWith b a = true.
Proof.
  intros HA Ha. revert B. induction HA as [|s A Hs _ IH]; intros B HB H.
  - destruct B as [|b B']; [discriminate H|].
    inversion HB as [|? ? Hb _]; subst.
    exists b, B'. split; [reflexivity|].
    change (slashed ([] ++ [a])) with (Path.sep +:+ a +:+ "") in H.
    change (slashed (b :: B')) with (Path.sep +:+ b +:+ slashed B') in H.
    rewrite !sep_app in H. cbn [Str.startsWith] in H.
    rewrite Ascii.eqb_refl, StrFacts.app_nil_r in H.
    apply (prefix_stops a b (slashed B') Ha (slashed_boundary B') H).
  - destruct B as [|b B']; [discriminate H|].
    inversion HB as [|? ? Hb HB']; subst.
    change (slashed ((s :: A) ++ [a])) with (Path.sep +:+ s +:+ slashed (A ++ [a])) in H.
    change (slashed (b :: B')) with (Path.sep +:+ b +:+ slashed B') in H.
    rewrite !sep_app in H. cbn [Str.startsWith] in H. rewrite Ascii.eqb_refl in H.
    assert (Hnext : exists t, slashed (A ++ [a]) = String Path.slash t).
    { destruct A; eexists; reflexivity. }
    destruct Hnext as [t Ht]. rewrite Ht in H.
    destruct (segment_match s b _ t Hs Hb (slashed_boundary B') H) as [-> Hrest].
    rewrite <- Ht in Hrest.
    destruct (IH B' HB' Hrest) as (b0 & B'' & -> & Hb0).
    exists b0, B''. split; [reflexivity|exact Hb0].
Qed.

Lemma lacks_relative (f : string) :
  Str.lacks Path.slash f = true -> Path.isAbsolute f = false.
Proof.
  destruct f as [|c f]; [reflexivity|]. simpl.
  destruct (Ascii.eqb c Path.slash); [discriminate|reflexivity].
Qed.

End PathFacts.

(** ** The path guard *)

Section PathGuard.

Variable env : ProcessEnv.
Variables cwd moduleDir : string.

Import PathFacts.

(** The project root is a clean absolute path. *)
Lemma PROJECT_ROOT_render :
  exists R, Forall (fun s => clean s = true) R /\ PROJECT_ROOT cwd moduleDir = render R.
Proof.
  exists (Path.normalizeSegments false
            (Str.split Path.slash
               (__dirname moduleDir +:+ Path.sep +:+ ".." +:+ Path.sep +:+ ".."
                +:+ Path.sep +:+ ""))).
  split; [apply normalize_clean|reflexivity].
Qed.

Lemma OUTPUT_DIR_truthy : Str.truthy (OUTPUT_DIR env) = true.
Proof.
  unfold OUTPUT_DIR, orElse. destruct (OUTPUT_DIR_ env) as [s|]; [|reflexivity].
  destruct (Str.truthy s) eqn:E; [exact E|reflexivity].
Qed.

(** So is the outputs directory, whatever [OUTPUT_DIR] says. *)
Lemma OUTPUTS_PATH_render :
  exists O, Forall (fun s => clean s = true) O
            /\ OUTPUTS_PATH env cwd moduleDir = render O.
Proof.
  unfold OUTPUTS_PATH. destruct PROJECT_ROOT_render as (R & HR & ->).
  destruct (Path.isAbsolute (OUTPUT_DIR env)) eqn:Ha.
  - rewrite resolve_onto_absolute, resolve_absolute by exact Ha.
    eexists. split; [apply normalize_clean|reflexivity].
  - rewrite resolve_relative by (try reflexivity; try exact Ha; apply OUTPUT_DIR_truthy).
    rewrite <- StrFacts.split_app.
    eexists. split; [apply normalize_clean|reflexivity].
Qed.

(** With [OUTPUT_DIR] unset it is [outputs] under the project root. *)
Lemma OUTPUTS_PATH_default (R : list string) :
  OUTPUT_DIR_ env = None ->
  Forall (fun s => clean s = true) R -> PROJECT_ROOT cwd moduleDir = render R ->
  OUTPUTS_PATH env cwd moduleDir = render (R ++ ["outputs"]).
Proof.
  intros He HR HP. unfold OUTPUTS_PATH, OUTPUT_DIR. rewrite He, HP. simpl orElse.
  rewrite resolve_from by (try exact HR; reflexivity).
  change (fold_left (Path.step false) (Str.split Path.slash "./outputs") (rev R))
    with ("outputs" :: rev R).
  simpl rev. rewrite rev_involutive. reflexivity.
Qed.

(** What [safeJoinOutputs] computes before its check. *)
Lemma safeJoinOutputs_unfold (O : list string) (filename : string) :
  Forall (fun s => clean s = true) O ->
  OUTPUTS_PATH env cwd moduleDir = render O ->
  safeJoinOutputs env cwd moduleDir filename
  = let resolvedPath := render (rev (Path.step false (rev O) (Path.basename filename))) in
    if negb (Str.startsWith resolvedPath (render O))
    then inl (Error "Invalid output path: path traversal detected")
    else inr resolvedPath.
Proof.
  intros HO HP. unfold safeJoinOutputs. rewrite HP.
  rewrite (join_onto O _ HO (basename_lacks filename)).
  rewrite resolve_clean; [reflexivity|].
  apply Forall_rev, step_keeps_clean; [apply Forall_rev, HO|apply basename_lacks].
Qed.

Lemma startsWith_child (dir name : string) :
  Str.startsWith (child dir name) dir = true.
Proof.
  unfold child. destruct (String.eqb dir Path.sep); apply StrFacts.startsWith_app.
Qed.

(** A name whose last component is an ordinary segment is stored directly
    under the outputs directory, under that component. *)
Lemma safeJoinOutputs_clean (filename : string) :
  clean (Path.basename filename) = true ->
  safeJoinOutputs env cwd moduleDir filename
  = inr (child (OUTPUTS_PATH env cwd moduleDir) (Path.basename filename)).
Proof.
  intros Hb. destruct OUTPUTS_PATH_render as (O & HO & HP).
  rewrite (safeJoinOutputs_unfold O filename HO HP), HP. cbv zeta.
  rewrite step_clean by exact Hb. simpl rev. rewrite rev_involutive.
  rewrite render_snoc by exact HO. rewrite startsWith_child. reflexivity.
Qed.

(** An empty last component or ["."] gives the outputs directory itself. *)
Lemma safeJoinOutputs_dot (filename : string) :
  Path.basename filename = "" \/ Path.basename filename = "." ->
  safeJoinOutputs env cwd moduleDir filename = inr (OUTPUTS_PATH env cwd moduleDir).
Proof.
  intros Hb. destruct OUTPUTS_PATH_render as (O & HO & HP).
  rewrite (safeJoinOutputs_unfold O filename HO HP), HP. cbv zeta.
  assert (Hs : Path.step false (rev O) (Path.basename filename) = rev O)
    by (destruct Hb as [-> | ->]; reflexivity).
  rewrite Hs, rev_involutive, StrFacts.startsWith_refl. reflexivity.
Qed.

Lemma render_longer (O : list string) (x : string) :
  Forall (fun s => clean s = true) (O ++ [x]) ->
  Str.startsWith (render O) (render (O ++ [x])) = false.
Proof.
  intros H. destruct (Str.startsWith _ _) eqn:E; [|reflexivity]. exfalso.
  apply StrFacts.startsWith_length in E.
  rewrite Forall_app in H. destruct H as [HO Hx].
  inversion Hx as [|? ? Hc _]; subst.
  destruct (clean_parts x Hc) as (Ht & _).
  rewrite render_snoc in E by exact HO. unfold child in E.
  destruct (String.eqb (render O) Path.sep);
    rewrite ?StrFacts.length_app in E; destruct x; try discriminate Ht;
    simpl in E; lia.
Qed.

(** A last component [".."] is refused, unless the outputs directory is
    the file-system root, whose parent is itself. *)
Lemma safeJoinOutputs_up (filename : string) :
  Path.basename filename = ".." ->
  safeJoinOutputs env cwd moduleDir filename
  = if String.eqb (OUTPUTS_PATH env cwd moduleDir) Path.sep
    then inr Path.sep
    else inl (Error "Invalid output path: path traversal detected").
Proof.
  intros Hb. destruct OUTPUTS_PATH_render as (O & HO & HP).
  rewrite (safeJoinOutputs_unfold O filename HO HP), HP, Hb. cbv zeta.
  destruct O as [|s O'] using rev_ind; [reflexivity|].
  rewrite rev_app_distr. simpl rev at 1. simpl app.
  assert (Hs : clean s = true).
  { rewrite Forall_app in HO. destruct HO as [_ Hx]. inversion Hx; assumption. }
  rewrite (step_up s (rev O') Hs).
  rewrite rev_involutive, (render_longer O' s HO). simpl negb.
  assert (Hne : String.eqb (render (O' ++ [s])) Path.sep = false).
  { destruct O' as [|y O'']; simpl app.
    - apply render_not_root, (clean_parts s Hs).
    - rewrite Forall_app in HO. destruct HO as [HO' _].
      inversion HO' as [|? ? Hy _]; subst.
      apply render_not_root, (clean_parts y Hy). }
  rewrite Hne. reflexivity.
Qed.

(** Every path [safeJoinOutputs] returns begins with the outputs
    directory, and is that directory or a file directly in it. *)
Lemma safeJoinOutputs_inside (filename p : string) :
  safeJoinOutputs env cwd moduleDir filename = inr p ->
  Str.startsWith p (OUTPUTS_PATH env cwd moduleDir) = true /\
  (p = OUTPUTS_PATH env cwd moduleDir
   \/ (clean (Path.basename filename) = true
       /\ p = child (OUTPUTS_PATH env cwd moduleDir) (Path.basename filename))).
Proof.
  intros H.
  destruct (segment_cases _ (basename_lacks filename)) as [Hc|[Hb|[Hb|Hb]]].
  - rewrite (safeJoinOutputs_clean filename Hc) in H. injection H as <-.
    split; [apply startsWith_child|]. right. split; [exact Hc|reflexivity].
  - rewrite safeJoinOutputs_dot in H by (left; exact Hb). injection H as <-.
    split; [apply StrFacts.startsWith_refl|left; reflexivity].
  - rewrite safeJoinOutputs_dot in H by (right; exact Hb). injection H as <-.
    split; [apply StrFacts.startsWith_refl|left; reflexivity].
  - rewrite (safeJoinOutputs_up filename Hb) in H.
    destruct (String.eqb_spec (OUTPUTS_PATH env cwd moduleDir) Path.sep) as [E|];
      [|discriminate H].
    injection H as <-. rewrite E.
    split; [reflexivity|left; reflexivity].
Qed.

(** What [validateOutputPath] computes for a relative path. *)
Lemma validateOutputPath_relative (R : list string) (filePath : string) :
  Forall (fun s => clean s = true) R -> PROJECT_ROOT cwd moduleDir = render R ->
  Path.isAbsolute filePath = false ->
  validateOutputPath env cwd moduleDir filePath
  = let resolvedPath :=
      render (rev (fold_left (Path.step false) (Str.split Path.slash filePath) (rev R))) in
    if negb (Str.startsWith resolvedPath (OUTPUTS_PATH env cwd moduleDir))
    then inl (Error "Invalid output path: must be within outputs directory")
    else inr resolvedPath.
Proof.
  intros HR HP Ha. unfold validateOutputPath. rewrite HP.
  rewrite (resolve_from cwd R filePath HR Ha). reflexivity.
Qed.

Lemma startsWith_children (dir a b : string) :
  Str.startsWith (child dir a) (child dir b) = Str.startsWith a b.
Proof.
  unfold child. destruct (String.eqb dir Path.sep).
  - apply StrFacts.startsWith_cancel.
  - rewrite !StrFacts.startsWith_cancel. reflexivity.
Qed.

(** With the default outputs directory, a bare file name passes
    [validateOutputPath] exactly when it begins with the letters
    [outputs]; it is resolved against the project root. *)
Lemma validateOutputPath_bare (name : string) :
  OUTPUT_DIR_ env = None -> clean name = true ->
  validateOutputPath env cwd moduleDir name
  = if Str.startsWith name "outputs"
    then inr (child (PROJECT_ROOT cwd moduleDir) name)
    else inl (Error "Invalid output path: must be within outputs directory").
Proof.
  intros He Hn. destruct PROJECT_ROOT_render as (R & HR & HP).
  destruct (clean_parts name Hn) as (_ & _ & _ & Hl).
  rewrite (validateOutputPath_relative R name HR HP (lacks_relative name Hl)).
  rewrite (OUTPUTS_PATH_default R He HR HP), HP. cbv zeta.
  rewrite (StrFacts.split_lacks _ _ Hl). simpl fold_left.
  rewrite (step_clean false _ name Hn). simpl rev. rewrite rev_involutive.
  rewrite !render_snoc by exact HR. rewrite startsWith_children.
  destruct (Str.startsWith name "outputs"); reflexivity.
Qed.

(** With the default outputs directory, [outputs/<dirs>/<name>] passes
    [validateOutputPath] as the path of that name below those directories,
    and [safeJoinOutputs] maps it to [<name>] directly in the outputs
    directory. *)
Lemma nested_output_path (dirs : list string) (name : string) :
  OUTPUT_DIR_ env = None ->
  Forall (fun s => clean s = true) dirs -> clean name = true ->
  let filePath := Str.join Path.sep ("outputs" :: dirs ++ [name]) in
  validateOutputPath env cwd moduleDir filePath
  = inr (OUTPUTS_PATH env cwd moduleDir +:+ slashed (dirs ++ [name])) /\
  safeJoinOutputs env cwd moduleDir filePath
  = inr (OUTPUTS_PATH env cwd moduleDir +:+ slashed [name]).
Proof.
  intros He Hd Hn filePath. destruct PROJECT_ROOT_render as (R & HR & HP).
  assert (Hall : Forall (fun s => clean s = true) ("outputs" :: dirs ++ [name])).
  { constructor; [reflexivity|]. apply Forall_app. split; [exact Hd|]. constructor; auto. }
  assert (Hsplit : Str.split Path.slash filePath = "outputs" :: dirs ++ [name]).
  { apply split_join; [discriminate|apply clean_lacks, Hall]. }
  assert (Hout : OUTPUTS_PATH env cwd moduleDir = slashed (R ++ ["outputs"])).
  { rewrite (OUTPUTS_PATH_default R He HR HP).
    apply render_slashed. destruct R; discriminate. }
  assert (Hrel : Path.isAbsolute filePath = false).
  { unfold filePath. destruct (dirs ++ [name]) eqn:E; reflexivity. }
  split.
  - rewrite (validateOutputPath_relative R filePath HR HP Hrel).
    cbv zeta. rewrite Hsplit, (fold_clean false _ _ Hall), rev_app_distr, !rev_involutive.
    rewrite Hout.
    rewrite render_slashed by (destruct R; discriminate).
    change ("outputs" :: dirs ++ [name]) with (["outputs"] ++ (dirs ++ [name])).
    rewrite app_assoc, slashed_app, StrFacts.startsWith_app. reflexivity.
  - assert (Hb : Path.basename filePath = name).
    { unfold filePath. change ("outputs" :: dirs ++ [name]) with (("outputs" :: dirs) ++ [name]).
      apply basename_join.
      + apply clean_lacks. exact Hall.
      + apply (clean_parts name Hn). }
    pose proof (safeJoinOutputs_clean filePath) as Hs. rewrite Hb in Hs.
    rewrite (Hs Hn). f_equal. unfold child.
    assert (Hne : String.eqb (OUTPUTS_PATH env cwd moduleDir) Path.sep = false).
    { rewrite (OUTPUTS_PATH_default R He HR HP).
      destruct R as [|r R']; [reflexivity|].
      apply render_not_root, (clean_parts r), (Forall_inv HR). }
    rewrite Hne. simpl slashed. rewrite StrFacts.app_nil_r. reflexivity.
Qed.

Lemma length_tl_tl (l : list string) :
  length (rev (tl (tl l))) = (length l - 2)%nat.
Proof. rewrite length_rev. destruct l as [|a [|b l]]; simpl; lia. Qed.

Lemma step_up_any (stack : list string) :
  Forall (fun s => clean s = true) stack -> Path.step false stack ".." = tl stack.
Proof.
  intros H. destruct stack as [|top below]; [reflexivity|].
  inversion H; subst. apply step_up. assumption.
Qed.

(** With the default outputs directory the traversal [../../etc/passwd]
    fails [validateOutputPath], wherever the project lives. *)
Lemma validateOutputPath_traversal :
  OUTPUT_DIR_ env = None ->
  validateOutputPath env cwd moduleDir "../../etc/passwd"
  = inl (Error "Invalid output path: must be within outputs directory").
Proof.
  intros He. destruct PROJECT_ROOT_render as (R & HR & HP).
  rewrite (validateOutputPath_relative R _ HR HP) by reflexivity.
  rewrite (OUTPUTS_PATH_default R He HR HP). cbv zeta.
  change (Str.split Path.slash "../../etc/passwd") with [".."; ".."; "etc"; "passwd"].
  assert (Hrev : Forall (fun s => clean s = true) (rev R)) by (apply Forall_rev, HR).
  assert (Htl : Forall (fun s => clean s = true) (tl (rev R))).
  { destruct (rev R); [constructor|]. inversion Hrev; assumption. }
  simpl fold_left.
  rewrite (step_up_any _ Hrev), (step_up_any _ Htl).
  rewrite (step_clean false _ "etc") by reflexivity.
  rewrite (step_clean false _ "passwd") by reflexivity.
  simpl rev. rewrite <- app_assoc. simpl app.
  set (T := rev (tl (tl (rev R)))).
  destruct (Str.startsWith (render (T ++ ["etc"; "passwd"])) (render (R ++ ["outputs"])))
    eqn:E; [exfalso|reflexivity].
  rewrite !render_slashed in E by (try (destruct T; discriminate); destruct R; discriminate).
  assert (HT : Forall (fun s => clean s = true) T).
  { unfold T. apply Forall_rev. destruct (tl (rev R)); [constructor|].
    inversion Htl; assumption. }
  apply slashed_prefix in E.
  - destruct E as (b & B' & HB & Hb).
    assert (Hlen : (length T + 2 = length R + 1 + length B')%nat).
    { apply (f_equal (@length string)) in HB.
      rewrite !length_app in HB. simpl in HB. lia. }
    unfold T in Hlen. rewrite length_tl_tl, length_rev in Hlen.
    destruct R as [|r [|r2 R'']]; simpl in Hlen; try lia.
    + simpl in HB. injection HB as <- _. discriminate Hb.
    + simpl in HB. injection HB as _ <- _. discriminate Hb.
  - apply clean_lacks, HR.
  - reflexivity.
  - apply clean_lacks, Forall_app. split; [exact HT|]. repeat constructor.
Qed.

End PathGuard.

(** ** Where a call writes *)

(** An outside call that stays within the outputs directory: a write goes
    to a path that begins with it and is the directory or a file directly
    in it, and only the directory itself is ever created. *)
Definition inside (outputsPath : string) (e : event) : Prop :=
  match e with
  | WriteFile p _ =>
      Str.startsWith p outputsPath = true /\
      (p = outputsPath
       \/ exists name, PathFacts.clean name = true /\ p = PathFacts.child outputsPath name)
  | Mkdir p => p = outputsPath
  | FetchApi _ _ _ | FetchUrl _ => True
  end.

(** A computation that leaves the rate-limit map alone, only appends
    events satisfying [P] to the trace, and returns values satisfying [Q]. *)
Definition confined {A : Type} (P : event -> Prop) (Q : A -> Prop) (m : M A) : Prop :=
  forall w,
    rateLimitMap (snd (m w)) = rateLimitMap w /\
    (exists events, trace (snd (m w)) = trace w ++ events /\ Forall P events) /\
    (forall a, fst (m w) = inr a -> Q a).

Definition anything {A : Type} (a : A) : Prop := True.

Section Confined.

Context {A B : Type}.
Variable P : event -> Prop.

Lemma confined_ret (Q : A -> Prop) (a : A) : Q a -> confined P Q (ret a).
Proof.
  intros HQ w. split; [reflexivity|]. split.
  - exists []. rewrite app_nil_r. split; [reflexivity|constructor].
  - simpl. intros a' H. injection H as <-. exact HQ.
Qed.

Lemma confined_throw (Q : A -> Prop) (e : exn) : confined P Q (throw e).
Proof.
  intros w. split; [reflexivity|]. split.
  - exists []. rewrite app_nil_r. split; [reflexivity|constructor].
  - simpl. intros a' H. discriminate H.
Qed.

Lemma confined_lift (Q : A -> Prop) (r : result A) :
  (forall a, r = inr a -> Q a) -> confined P Q (lift r).
Proof.
  intros HQ w. split; [reflexivity|]. split.
  - exists []. rewrite app_nil_r. split; [reflexivity|constructor].
  - simpl. exact HQ.
Qed.

Lemma confined_weaken (Q Q' : A -> Prop) (m : M A) :
  (forall a, Q a -> Q' a) -> confined P Q m -> confined P Q' m.
Proof.
  intros HQ Hm w. destruct (Hm w) as (H1 & H2 & H3).
  split; [exact H1|]. split; [exact H2|]. intros a Ha. apply HQ, H3, Ha.
Qed.

Lemma confined_bind (Q : A -> Prop) (Q' : B -> Prop) (m : M A) (k : A -> M B) :
  confined P Q m -> (forall a, Q a -> confined P Q' (k a)) ->
  confined P Q' (bindM m k).
Proof.
  intros Hm Hk w. unfold bindM.
  destruct (Hm w) as (H1 & (ev1 & H2 & H3) & H4).
  destruct (m w) as [[e|a] w1]; simpl in *.
  - split; [exact H1|]. split; [exists ev1; split; assumption|].
    intros b Hb. discriminate Hb.
  - destruct (Hk a (H4 a eq_refl) w1) as (K1 & (ev2 & K2 & K3) & K4).
    split; [congruence|]. split; [|exact K4].
    exists (ev1 ++ ev2). rewrite K2, H2, app_assoc.
    split; [reflexivity|apply Forall_app; split; assumption].
Qed.

Lemma confined_tryCatch (Q : A -> Prop) (m : M A) (h : exn -> M A) :
  confined P Q m -> (forall e, confined P Q (h e)) -> confined P Q (tryCatch m h).
Proof.
  intros Hm Hh w. unfold tryCatch.
  destruct (Hm w) as (H1 & (ev1 & H2 & H3) & H4).
  destruct (m w) as [[e|a] w1]; simpl in *.
  - destruct (Hh e w1) as (K1 & (ev2 & K2 & K3) & K4).
    split; [congruence|]. split; [|exact K4].
    exists (ev1 ++ ev2). rewrite K2, H2, app_assoc.
    split; [reflexivity|apply Forall_app; split; assumption].
  - split; [exact H1|]. split; [exists ev1; split; assumption|exact H4].
Qed.

End Confined.

Lemma confined_emit (P : event -> Prop) (e : event) :
  P e -> confined P anything (emit e).
Proof.
  intros HP w. split; [reflexivity|]. split.
  - exists [e]. split; [reflexivity|repeat constructor; exact HP].
  - intros a _. exact I.
Qed.

Lemma confined_raiseIf (P : event -> Prop) (o : option exn) :
  confined P anything (raiseIf o).
Proof.
  destruct o; [apply confined_throw|apply confined_ret; exact I].
Qed.

Section ConfinedHandlers.

Variable env : ProcessEnv.
Variables cwd moduleDir : string.
Variable zodMessage : list Zod.Issue -> string.

Let outputsPath : string := OUTPUTS_PATH env cwd moduleDir.

Lemma confined_ensureOutputsDir (site : EnsureSite) (o : Oracle) :
  confined (inside outputsPath) anything (ensureOutputsDir env cwd moduleDir site o).
Proof.
  unfold ensureOutputsDir. destruct (fsAccess o site).
  - apply confined_ret. exact I.
  - eapply confined_bind; [apply confined_emit; reflexivity|].
    intros _ _. apply confined_raiseIf.
Qed.

Lemma inside_safeJoinOutputs (filename p : string) (content : Buffer) :
  safeJoinOutputs env cwd moduleDir filename = inr p ->
  inside outputsPath (WriteFile p content).
Proof.
  intros H. destruct (safeJoinOutputs_inside env cwd moduleDir filename p H) as [Hs Hc].
  split; [exact Hs|]. destruct Hc as [->|[Hb ->]]; [left; reflexivity|].
  right. exists (Path.basename filename). split; [exact Hb|reflexivity].
Qed.

Lemma confined_writeImageBuffer (buffer : Buffer) (filename : string) (o : Oracle) :
  confined (inside outputsPath) anything
           (writeImageBuffer env cwd moduleDir buffer filename o).
Proof.
  unfold writeImageBuffer.
  eapply confined_bind; [apply confined_ensureOutputsDir|intros _ _].
  eapply (confined_bind _ (fun p => safeJoinOutputs env cwd moduleDir filename = inr p)).
  { apply confined_lift. auto. }
  intros p Hp.
  eapply confined_bind; [apply confined_emit, (inside_safeJoinOutputs _ _ _ Hp)|intros _ _].
  eapply confined_bind; [apply confined_raiseIf|intros _ _].
  apply confined_ret. exact I.
Qed.

Lemma confined_writeBase64Image (d : value) (filename : string) (o : Oracle) :
  confined (inside outputsPath) anything
           (writeBase64Image env cwd moduleDir d filename o).
Proof.
  unfold writeBase64Image.
  eapply confined_bind; [apply confined_ensureOutputsDir|intros _ _].
  eapply (confined_bind _ anything).
  { destruct d; try apply confined_throw. apply confined_ret. exact I. }
  intros clean_ _.
  eapply (confined_bind _ (fun p => safeJoinOutputs env cwd moduleDir filename = inr p)).
  { apply confined_lift. auto. }
  intros p Hp.
  eapply confined_bind; [apply confined_emit, (inside_safeJoinOutputs _ _ _ Hp)|intros _ _].
  eapply confined_bind; [apply confined_raiseIf|intros _ _].
  apply confined_ret. exact I.
Qed.

Lemma confined_downloadImage (u : value) (filename : string) (o : Oracle) :
  confined (inside outputsPath) anything
           (downloadImage env cwd moduleDir u filename o).
Proof.
  unfold downloadImage.
  eapply confined_bind; [apply confined_ensureOutputsDir|intros _ _].
  eapply confined_bind; [apply confined_emit; exact I|intros _ _].
  eapply (confined_bind _ anything); [apply confined_lift; intros; exact I|].
  intros response _.
  eapply (confined_bind _ anything).
  { destruct (negb (ok response)); [apply confined_throw|apply confined_ret; exact I]. }
  intros _ _.
  eapply (confined_bind _ anything); [apply confined_lift; intros; exact I|].
  intros bytes _. apply confined_writeImageBuffer.
Qed.

Lemma confined_saveImage (r : ImageGenerationResult) (filename : string) (o : Oracle) :
  confined (inside outputsPath) anything (saveImage env cwd moduleDir r filename o).
Proof.
  unfold saveImage. destruct (dataFormat r).
  - apply confined_writeBase64Image.
  - apply confined_downloadImage.
Qed.

(** The provider adapter only talks to the network. *)
Lemma confined_generateImage (config : GeminiConfig)
      (options : ImageGenerationOptions) (o : Oracle) :
  confined (inside outputsPath) anything (GeminiProvider.generateImage config options o).
Proof.
  unfold GeminiProvider.generateImage.
  destruct (negb (GeminiProvider.isConfigured config)); [apply confined_throw|].
  apply confined_tryCatch; [|intros e; apply confined_throw].
  eapply confined_bind; [apply confined_emit; exact I|intros _ _].
  eapply (confined_bind _ anything); [apply confined_lift; intros; exact I|].
  intros response _.
  eapply (confined_bind _ anything).
  { destruct (negb (ok response)); [|apply confined_ret; exact I].
    eapply (confined_bind _ anything); [apply confined_lift; intros; exact I|].
    intros _ _. apply confined_throw. }
  intros _ _.
  eapply (confined_bind _ anything); [apply confined_lift; intros; exact I|].
  intros body _. apply confined_lift. intros; exact I.
Qed.

Variable provider : ImageProvider.
Hypothesis provider_confined :
  forall options o, confined (inside outputsPath) anything (generateImage provider options o).

Lemma confined_handleGenerateImage (args : value) (o : Oracle) :
  confined (inside outputsPath) anything
           (handleGenerateImage env cwd moduleDir zodMessage args provider o).
Proof.
  unfold handleGenerateImage.
  eapply (confined_bind _ anything); [apply confined_lift; intros; exact I|].
  intros input _.
  eapply (confined_bind _ anything).
  { destruct (Zod.gi_output_path input) as [[|c p]|]; try (apply confined_ret; exact I).
    eapply (confined_bind _ anything); [apply confined_lift; intros; exact I|].
    intros _ _. apply confined_ret. exact I. }
  intros filename _.
  eapply confined_bind; [apply provider_confined|intros r _].
  eapply confined_bind; [apply confined_saveImage|intros filePath _].
  apply confined_ret. exact I.
Qed.

Lemma confined_handleGenerateIcon (args : value) (o : Oracle) :
  confined (inside outputsPath) anything
           (handleGenerateIcon env cwd moduleDir zodMessage args provider o).
Proof.
  unfold handleGenerateIcon.
  eapply (confined_bind _ anything); [apply confined_lift; intros; exact I|].
  intros input _.
  eapply confined_bind; [apply provider_confined|intros r _].
  eapply confined_bind; [apply confined_saveImage|intros filePath _].
  destruct (parseSize (Zod.gc_size input)). apply confined_ret. exact I.
Qed.

Lemma confined_handleGenerateHero (args : value) (o : Oracle) :
  confined (inside outputsPath) anything
           (handleGenerateHero env cwd moduleDir zodMessage args provider o).
Proof.
  unfold handleGenerateHero.
  eapply (confined_bind _ anything); [apply confined_lift; intros; exact I|].
  intros input _.
  destruct (negb (isConfigured provider)); [apply confined_ret; exact I|].
  eapply confined_bind; [apply provider_confined|intros r _].
  eapply confined_bind; [apply confined_saveImage|intros filePath _].
  apply confined_ret. exact I.
Qed.

Lemma confined_handleBeautifyScreenshot (args : value) :
  confined (inside outputsPath) anything
           (handleBeautifyScreenshot env cwd moduleDir zodMessage args).
Proof.
  unfold handleBeautifyScreenshot.
  eapply (confined_bind _ anything); [apply confined_lift; intros; exact I|].
  intros input _.
  eapply (confined_bind _ anything).
  { apply confined_tryCatch; [|intros e; apply confined_throw].
    eapply (confined_bind _ anything); [apply confined_lift; intros; exact I|].
    intros _ _. apply confined_ret. exact I. }
  intros _ _. apply confined_ret. exact I.
Qed.

Lemma confined_route (name : string) (args : value) (o : Oracle) :
  confined (inside outputsPath) anything
           (route env cwd moduleDir zodMessage name args provider o).
Proof.
  unfold route.
  destruct (String.eqb name "generate_image"); [apply confined_handleGenerateImage|].
  destruct (String.eqb name "generate_icon"); [apply confined_handleGenerateIcon|].
  destruct (String.eqb name "generate_hero"); [apply confined_handleGenerateHero|].
  destruct (String.eqb name "beautify_screenshot");
    [apply confined_handleBeautifyScreenshot|].
  apply confined_throw.
Qed.

(** One call through the call handler: the trace only grows, by events
    inside the outputs directory, and the rate-limit map is left as it
    was when the quota is used up and is the map with the call recorded
    otherwise. *)
Lemma callToolWith_effects (name : string) (args : value) (o : Oracle) (w : World) :
  let w' := snd (callToolWith env cwd moduleDir zodMessage provider name args o w) in
  (exists events, trace w' = trace w ++ events /\ Forall (inside outputsPath) events) /\
  rateLimitMap w'
  = if atCapacity env (inWindow (dateNow o) (timestampsOf w name))
    then rateLimitMap w
    else rateLimitMap (recorded name (dateNow o) w).
Proof.
  cbv zeta. rewrite callToolWith_dispatch. simpl snd.
  destruct (atCapacity env (inWindow (dateNow o) (timestampsOf w name))) eqn:Hq.
  - rewrite dispatch_over by exact Hq. simpl.
    split; [|reflexivity]. exists []. rewrite app_nil_r. split; [reflexivity|constructor].
  - rewrite dispatch_under by exact Hq.
    destruct (confined_route name args o (recorded name (dateNow o) w)) as (H1 & H2 & _).
    split; [exact H2|exact H1].
Qed.

End ConfinedHandlers.

(** A write attempted after [safeJoinOutputs] has refused the name would
    show in the trace; none does. *)
Lemma no_write_after_refusal
      (env : ProcessEnv) (cwd moduleDir : string) (d : value) (buffer : Buffer)
      (filename : string) (e : exn) (o : Oracle) (w0 : World)
      (p : string) (content : Buffer) :
  safeJoinOutputs env cwd moduleDir filename = inl e ->
  (In (WriteFile p content)
      (trace (snd (writeBase64Image env cwd moduleDir d filename o w0))) ->
   In (WriteFile p content) (trace w0)) /\
  (In (WriteFile p content)
      (trace (snd (writeImageBuffer env cwd moduleDir buffer filename o w0))) ->
   In (WriteFile p content) (trace w0)).
Proof.
  intros H. split.
  - unfold writeBase64Image, ensureOutputsDir, bindM, emit, raiseIf, lift, ret, throw.
    destruct (fsAccess o InWriteBase64Image); simpl.
    + destruct d; simpl; rewrite ?H; simpl; auto.
    + destruct (fsMkdir o InWriteBase64Image); simpl;
        [|destruct d; simpl; rewrite ?H; simpl];
        rewrite in_app_iff; simpl; intros [Hin|[Hin|[]]]; auto; discriminate Hin.
  - unfold writeImageBuffer, ensureOutputsDir, bindM, emit, raiseIf, lift, ret, throw.
    destruct (fsAccess o InWriteImageBuffer); simpl.
    + rewrite H. simpl. auto.
    + destruct (fsMkdir o InWriteImageBuffer); simpl; rewrite ?H; simpl;
        rewrite in_app_iff; simpl; intros [Hin|[Hin|[]]]; auto; discriminate Hin.
Qed.

(** C1, at an input where the code departs from it.  The output path
    [outputs_x/y.png] resolves to [/srv/outputs_x/y.png], in a directory
    next to the outputs directory [/srv/outputs] and not below it.  The
    request is not refused: [validateOutputPath] lets the path through,
    because that string begins with [/srv/outputs], the provider is called,
    and a file is written, as [/srv/outputs/y.png]. *)
Theorem C1_outside_path_written :
  let env := withKey noEnv "k" in
  let args := Obj [ ("prompt", Str "a banana"); ("output_path", Str "outputs_x/y.png") ] in
  OUTPUTS_PATH env "/" "srv/dist/utils" = "/srv/outputs" /\
  Path.resolve "/" [PROJECT_ROOT "/" "srv/dist/utils"; "outputs_x/y.png"]
  = "/srv/outputs_x/y.png" /\
  Str.startsWith "/srv/outputs_x/y.png" "/srv/outputs/" = false /\
  validateOutputPath env "/" "srv/dist/utils" "outputs_x/y.png"
  = inr "/srv/outputs_x/y.png" /\
  callTool env "/" "srv/dist/utils" (fun _ => "invalid")
           "generate_image" args (answering 5 "iVBORw0KGgo=") freshWorld
  = ({| content :=
          [ {| ctype := "text";
               ctext :=
                 Stringify
                   (Obj [ ("ok", Bool true); ("file_path", Str "outputs/y.png");
                          ("mime_type", Str "image/png");
                          ("width", Number (Num.of_Z 1024));
                          ("height", Number (Num.of_Z 1024)) ])
                   true |} ] |},
     {| rateLimitMap := rateLimitMap (recorded "generate_image" 5 freshWorld);
        trace :=
          [ FetchApi
              "https://generativelanguage.googleapis.com/v1beta/models/gemini-2.5-flash-image:generateContent"
              [ ("Content-Type", "application/json"); ("x-goog-api-key", "k") ]
              (GeminiProvider.buildRequestBody
                 {| prompt := "a banana"; style := Some "illustration";
                    size := Some "1024x1024"; background := Some "solid";
                    format := Some "png" |});
            WriteFile "/srv/outputs/y.png" (BufferFromBase64 "iVBORw0KGgo=") ] |}).
Proof.
  intros env args.
  split; [reflexivity|]. split; [reflexivity|]. split; [reflexivity|].
  split; [reflexivity|]. reflexivity.
Qed.

(** C4 (amended). With the outputs directory at its default,
    [validateOutputPath] rejects [../../etc/passwd].  [safeJoinOutputs]
    rejects no name for containing a separator: it keeps the last
    component only, so a name whose last component is an ordinary segment
    is accepted as that component directly under the outputs directory
    ([../../etc/passwd] becomes [passwd] there), and the only names it
    refuses are those whose last component is [".."].  In particular it
    accepts every bare file name, returning a path under the output
    root. *)
Theorem C4_path_guard (env : ProcessEnv) (cwd moduleDir : string) :
  let outputsPath := OUTPUTS_PATH env cwd moduleDir in
  (OUTPUT_DIR_ env = None ->
   validateOutputPath env cwd moduleDir "../../etc/passwd"
   = inl (Error "Invalid output path: must be within outputs directory")) /\
  (forall filename,
      PathFacts.clean (Path.basename filename) = true ->
      safeJoinOutputs env cwd moduleDir filename
      = inr (PathFacts.child outputsPath (Path.basename filename))) /\
  safeJoinOutputs env cwd moduleDir "../../etc/passwd"
  = inr (PathFacts.child outputsPath "passwd") /\
  (forall filename e,
      safeJoinOutputs env cwd moduleDir filename = inl e ->
      Path.basename filename = "..") /\
  (forall name,
      PathFacts.clean name = true ->
      safeJoinOutputs env cwd moduleDir name = inr (PathFacts.child outputsPath name) /\
      Str.startsWith (PathFacts.child outputsPath name) outputsPath = true).
Proof.
  intros outputsPath. split; [|split; [|split; [|split]]].
  - apply validateOutputPath_traversal.
  - intros filename Hb. apply safeJoinOutputs_clean, Hb.
  - apply (safeJoinOutputs_clean env cwd moduleDir "../../etc/passwd"). reflexivity.
  - intros filename e H.
    destruct (PathFacts.segment_cases _ (PathFacts.basename_lacks filename))
      as [Hc|[Hb|[Hb|Hb]]].
    + rewrite safeJoinOutputs_clean in H by exact Hc. discriminate H.
    + rewrite safeJoinOutputs_dot in H by (left; exact Hb). discriminate H.
    + rewrite safeJoinOutputs_dot in H by (right; exact Hb). discriminate H.
    + exact Hb.
  - intros name Hn.
    assert (Hb : Path.basename name = name).
    { apply PathFacts.basename_bare, (PathFacts.clean_parts name Hn). }
    split; [|apply startsWith_child].
    rewrite <- Hb at 2. apply safeJoinOutputs_clean. rewrite Hb. exact Hn.
Qed.

(** A bare file name in a process installed under [/srv]. *)
Lemma C4_path_guard_witness :
  PathFacts.clean "logo.png" = true /\
  safeJoinOutputs noEnv "/" "srv/dist/utils" "logo.png" = inr "/srv/outputs/logo.png" /\
  validateOutputPath noEnv "/" "srv/dist/utils" "../../etc/passwd"
  = inl (Error "Invalid output path: must be within outputs directory").
Proof.
  split; [reflexivity|]. split.
  - apply (proj2 (proj2 (proj2 (proj2 (C4_path_guard noEnv "/" "srv/dist/utils"))))
             "logo.png").
    reflexivity.
  - apply (proj1 (C4_path_guard noEnv "/" "srv/dist/utils")). reflexivity.
Defined.

(** C4 as the specification words it, for each of the two guards: a name
    that contains a separator is rejected. *)
Definition safeJoinRejectsSeparators : Prop :=
  forall (env : ProcessEnv) (cwd moduleDir filename : string),
    Str.lacks Path.slash filename = false ->
    exists e, safeJoinOutputs env cwd moduleDir filename = inl e.

Definition validateRejectsSeparators : Prop :=
  forall (env : ProcessEnv) (cwd moduleDir filePath : string),
    Str.lacks Path.slash filePath = false ->
    exists e, validateOutputPath env cwd moduleDir filePath = inl e.

(** [safeJoinOutputs] accepts [../../etc/passwd], as [passwd] in the
    outputs directory, and [validateOutputPath] accepts [outputs/logo.png]:
    neither guard rejects every name with a separator. *)
Lemma C4_counterexample :
  safeJoinOutputs noEnv "/" "srv/dist/utils" "../../etc/passwd"
  = inr "/srv/outputs/passwd" /\
  validateOutputPath noEnv "/" "srv/dist/utils" "outputs/logo.png"
  = inr "/srv/outputs/logo.png" /\
  ~ safeJoinRejectsSeparators /\ ~ validateRejectsSeparators.
Proof.
  split; [reflexivity|]. split; [reflexivity|]. split.
  - intros H.
    destruct (H noEnv "/" "srv/dist/utils" "../../etc/passwd" eq_refl) as [e He].
    discriminate He.
  - intros H.
    destruct (H noEnv "/" "srv/dist/utils" "outputs/logo.png" eq_refl) as [e He].
    discriminate He.
Qed.

(** C9, at the input where the code departs from it.  The bare file name
    [outputs.png] resolves to [/srv/outputs.png], next to the outputs
    directory [/srv/outputs] and not in it; [validateOutputPath] lets it
    through because that string begins with [/srv/outputs], and the image
    is then stored as [outputs/outputs.png]. *)
Lemma C9_bare_name_accepted :
  let env := withKey noEnv "k" in
  let args := Obj [ ("prompt", Str "a banana"); ("output_path", Str "outputs.png") ] in
  PathFacts.clean "outputs.png" = true /\
  OUTPUTS_PATH env "/" "srv/dist/utils" = "/srv/outputs" /\
  validateOutputPath env "/" "srv/dist/utils" "outputs.png" = inr "/srv/outputs.png" /\
  callTool env "/" "srv/dist/utils" (fun _ => "invalid")
           "generate_image" args (answering 5 "iVBORw0KGgo=") freshWorld
  = ({| content :=
          [ {| ctype := "text";
               ctext :=
                 Stringify
                   (Obj [ ("ok", Bool true); ("file_path", Str "outputs/outputs.png");
                          ("mime_type", Str "image/png");
                          ("width", Number (Num.of_Z 1024));
                          ("height", Number (Num.of_Z 1024)) ])
                   true |} ] |},
     {| rateLimitMap := rateLimitMap (recorded "generate_image" 5 freshWorld);
        trace :=
          [ FetchApi
              "https://generativelanguage.googleapis.com/v1beta/models/gemini-2.5-flash-image:generateContent"
              [ ("Content-Type", "application/json"); ("x-goog-api-key", "k") ]
              (GeminiProvider.buildRequestBody
                 {| prompt := "a banana"; style := Some "illustration";
                    size := Some "1024x1024"; background := Some "solid";
                    format := Some "png" |});
            WriteFile "/srv/outputs/outputs.png" (BufferFromBase64 "iVBORw0KGgo=") ] |}).
Proof.
  intros env args.
  split; [reflexivity|]. split; [reflexivity|]. split; [reflexivity|].
  reflexivity.
Qed.

(** * Further properties of the code *)

(** ** The rate limiter, beyond the default capacity *)

(** X1. When [RATE_LIMIT_PER_MINUTE] holds text that [parseInt] cannot read
    as a number, the capacity is [NaN], the comparison with it is always
    false, and [checkRateLimit] never fails: the limiter is switched off. *)
Theorem X1_unreadable_capacity_never_limits
        (env : ProcessEnv) (toolName : string) (now : Z) (w : World) :
  RATE_LIMIT_MAX env = None ->
  fst (checkRateLimit env toolName now w) = inr tt /\
  timestampsOf (snd (checkRateLimit env toolName now w)) toolName
  = inWindow now (timestampsOf w toolName) ++ [now].
Proof.
  intros H. rewrite checkRateLimit_unfold. unfold atCapacity. rewrite H.
  split; [reflexivity|]. apply timestampsOf_insert.
Qed.

Definition envWithLimit (limit : string) : ProcessEnv :=
  {| GEMINI_API_KEY := None; GEMINI_BASE_URL := None; GEMINI_MODEL := None;
     RATE_LIMIT_PER_MINUTE := Some limit; OUTPUT_DIR_ := None |}.

(** With the capacity spelled out in letters, a name that already has
    twenty timestamps inside the window passes and gets a twenty-first. *)
Lemma X1_unreadable_capacity_never_limits_witness :
  RATE_LIMIT_MAX (envWithLimit "twenty") = None /\
  timestampsOf saturated "resize_image" = repeat 0 20 /\
  fst (checkRateLimit (envWithLimit "twenty") "resize_image" 7 saturated) = inr tt /\
  timestampsOf (snd (checkRateLimit (envWithLimit "twenty") "resize_image" 7 saturated))
               "resize_image"
  = repeat 0 20 ++ [7].
Proof.
  split; [reflexivity|]. split; [reflexivity|].
  apply (X1_unreadable_capacity_never_limits (envWithLimit "twenty")
           "resize_image" 7 saturated).
  reflexivity.
Defined.

(** X2. With a capacity of zero or less every call is refused, also the
    first one, and the state never changes. *)
Theorem X2_nonpositive_capacity_refuses_all
        (env : ProcessEnv) (cap : Z) (toolName : string) (now : Z) (w : World) :
  RATE_LIMIT_MAX env = Some cap -> cap <= 0 ->
  checkRateLimit env toolName now w = (inl (Error (rateLimitMessage env)), w).
Proof.
  intros H Hcap. rewrite checkRateLimit_unfold. unfold atCapacity. rewrite H.
  destruct (Z.leb_spec cap (Z.of_nat (length (inWindow now (timestampsOf w toolName)))));
    [reflexivity|lia].
Qed.

Lemma X2_nonpositive_capacity_refuses_all_witness :
  RATE_LIMIT_MAX (envWithLimit "0") = Some 0 /\
  checkRateLimit (envWithLimit "0") "generate_icon" 7 freshWorld
  = (inl (Error "Rate limit exceeded: max 0 requests per minute"), freshWorld).
Proof.
  split; [reflexivity|].
  apply (X2_nonpositive_capacity_refuses_all (envWithLimit "0") 0
           "generate_icon" 7 freshWorld).
  - reflexivity.
  - lia.
Defined.

Lemma inWindow_length (now : Z) (l : list Z) : (length (inWindow now l) <= length l)%nat.
Proof. unfold inWindow. apply List.filter_length_le. Qed.

Lemma inWindow_Forall (now : Z) (l : list Z) :
  Forall (fun t => now - t < RATE_LIMIT_WINDOW) (inWindow now l).
Proof.
  apply List.Forall_forall. intros t Ht. apply inWindow_In in Ht. apply Ht.
Qed.

(** X3. The stored window stays small and fresh: after a check that
    passes, the list kept for the tool holds at most [capacity]
    timestamps, every one of them less than a window old at the time of
    the check, and it ends with the time of the check; a check that fails
    stores nothing. *)
Theorem X3_window_bounded_and_fresh
        (env : ProcessEnv) (cap : Z) (toolName : string) (now : Z) (w : World) :
  RATE_LIMIT_MAX env = Some cap ->
  let w' := snd (checkRateLimit env toolName now w) in
  (fst (checkRateLimit env toolName now w) = inr tt ->
   Z.of_nat (length (timestampsOf w' toolName)) <= cap /\
   Forall (fun t => now - t < 60000) (timestampsOf w' toolName) /\
   last (timestampsOf w' toolName) = Some now) /\
  (fst (checkRateLimit env toolName now w) <> inr tt -> w' = w).
Proof.
  intros H w'. subst w'. rewrite checkRateLimit_unfold.
  destruct (atCapacity env (inWindow now (timestampsOf w toolName))) eqn:E; simpl.
  - split; [intros Hx; discriminate Hx|reflexivity].
  - split; [|intros Hx; congruence]. intros _.
    rewrite timestampsOf_insert.
    unfold atCapacity in E. rewrite H in E. apply Z.leb_gt in E.
    split; [rewrite length_app; simpl; lia|]. split.
    + apply Forall_app. split; [apply inWindow_Forall|].
      repeat constructor. unfold RATE_LIMIT_WINDOW. lia.
    + apply last_snoc.
Qed.

(** A name with twenty timestamps, all of them a window old by now. *)
Lemma X3_window_bounded_and_fresh_witness :
  let w' := snd (checkRateLimit noEnv "resize_image" 61000 saturated) in
  RATE_LIMIT_MAX noEnv = Some 20 /\
  timestampsOf saturated "resize_image" = repeat 0 20 /\
  fst (checkRateLimit noEnv "resize_image" 61000 saturated) = inr tt /\
  Z.of_nat (length (timestampsOf w' "resize_image")) <= 20.
Proof.
  intros w'. split; [reflexivity|]. split; [reflexivity|]. split; [reflexivity|].
  apply (proj1 (X3_window_bounded_and_fresh noEnv 20 "resize_image" 61000 saturated
                  eq_refl)).
  reflexivity.
Defined.

(** X4. For any configured capacity [n], starting without history for the
    tool, [n] calls inside one window all pass and the next call inside
    that window fails. *)
Theorem X4_capacity_is_exact
        (env : ProcessEnv) (toolName : string) (times : list Z) (t0 next : Z) (w : World) :
  RATE_LIMIT_MAX env = Some (Z.of_nat (length times)) ->
  rateLimitMap w !! toolName = None ->
  Forall (fun t => t0 <= t < t0 + 60000) (times ++ [next]) ->
  let wn := snd (runChecks env toolName times w) in
  fst (runChecks env toolName times w) = repeat (inr tt) (length times) /\
  checkRateLimit env toolName next wn = (inl (Error (rateLimitMessage env)), wn).
Proof.
  intros Hcap Hfresh Hwin wn.
  assert (Hts0 : timestampsOf w toolName = []).
  { unfold timestampsOf. rewrite Hfresh. reflexivity. }
  rewrite Forall_app in Hwin. destruct Hwin as [Hwin Hn].
  inversion Hn as [|? ? Hnext _]; subst.
  destruct (runChecks_within env toolName _ t0 Hcap times w) as (Hall & Hlen & Hts & _).
  { rewrite Hts0. exact Hwin. }
  { rewrite Hts0. simpl. lia. }
  fold wn in Hts. rewrite Hts0 in Hts. simpl in Hts.
  split.
  - rewrite <- Hlen. clear -Hall.
    induction Hall as [|r rs Hr _ IH]; [reflexivity|].
    simpl. rewrite Hr. f_equal. exact IH.
  - rewrite checkRateLimit_unfold, Hts, inWindow_all.
    + unfold atCapacity. rewrite Hcap, Z.leb_refl. reflexivity.
    + eapply Forall_impl; [exact Hwin|]. simpl. unfold RATE_LIMIT_WINDOW. intros; lia.
Qed.

Lemma X4_capacity_is_exact_witness :
  let wn := snd (runChecks (envWithLimit "3") "generate_hero" [10; 20; 30] freshWorld) in
  fst (runChecks (envWithLimit "3") "generate_hero" [10; 20; 30] freshWorld)
  = [inr tt; inr tt; inr tt] /\
  checkRateLimit (envWithLimit "3") "generate_hero" 40 wn
  = (inl (Error "Rate limit exceeded: max 3 requests per minute"), wn).
Proof.
  intros wn.
  apply (X4_capacity_is_exact (envWithLimit "3") "generate_hero" [10; 20; 30] 0 40
           freshWorld).
  - reflexivity.
  - apply lookup_empty.
  - repeat constructor; lia.
Defined.

(** X5. Quotas are per tool name: a call through the call handler, with
    whatever outcome, leaves the timestamps of every other tool name as
    they were. *)
Theorem X5_quota_per_tool
        (env : ProcessEnv) (cwd moduleDir : string)
        (zodMessage : list Zod.Issue -> string)
        (name other : string) (args : value) (o : Oracle) (w : World) :
  other <> name ->
  timestampsOf (snd (callTool env cwd moduleDir zodMessage name args o w)) other
  = timestampsOf w other.
Proof.
  intros Hne. unfold timestampsOf, callTool.
  destruct (callToolWith_effects env cwd moduleDir zodMessage (imageProvider env)
              (fun options o' => confined_generateImage env cwd moduleDir _ options o')
              name args o w) as [_ Hmap].
  rewrite Hmap.
  destruct (atCapacity env _); [reflexivity|].
  simpl. rewrite lookup_insert_ne by congruence. reflexivity.
Qed.

Lemma X5_quota_per_tool_witness :
  timestampsOf (snd (callTool noEnv "/" "srv/dist/utils" (fun _ => "invalid")
                       "generate_hero" Undefined (offline 5) saturated))
               "resize_image"
  = repeat 0 20.
Proof.
  rewrite (X5_quota_per_tool noEnv "/" "srv/dist/utils" (fun _ => "invalid")
             "generate_hero" "resize_image" Undefined (offline 5) saturated).
  - unfold timestampsOf, saturated. simpl. rewrite lookup_singleton_eq. reflexivity.
  - discriminate.
Defined.

(** ** The handlers *)

Definition beautifyStub : ToolResponse :=
  {| content :=
       [ {| ctype := "text";
            ctext :=
              Stringify
                (Obj [ ("ok", Bool true);
                       ("message", Str "Beautify screenshot is currently a stub implementation");
                       ("suggested_steps", Arr (List.map Str suggestions));
                       ("note", Str "To implement image editing, integrate an image manipulation API or library") ])
                true |} ] |}.

(** X6. [handleBeautifyScreenshot] never calls out: whatever the arguments,
    the world after it is the world before it.  When the arguments pass the
    schema and the input path passes [validateOutputPath], the answer is
    the fixed stub with its seven suggestions, whatever the goal says. *)
Theorem X6_beautify_calls_nothing
        (env : ProcessEnv) (cwd moduleDir : string)
        (zodMessage : list Zod.Issue -> string) (args : value) (w : World) :
  snd (handleBeautifyScreenshot env cwd moduleDir zodMessage args w) = w /\
  (forall input p,
      Zod.beautifyScreenshotInputSchema args = inr input ->
      validateOutputPath env cwd moduleDir (Zod.bs_input_image_path input) = inr p ->
      fst (handleBeautifyScreenshot env cwd moduleDir zodMessage args w)
      = inr beautifyStub) /\
  length suggestions = 7%nat.
Proof.
  unfold handleBeautifyScreenshot, bindM, lift, tryCatch, Zod.parse, ret, throw.
  split; [|split; [|reflexivity]].
  - destruct (Zod.beautifyScreenshotInputSchema args) as [issues|input]; [reflexivity|].
    destruct (validateOutputPath env cwd moduleDir (Zod.bs_input_image_path input));
      reflexivity.
  - intros input p Hs Hv. rewrite Hs, Hv. reflexivity.
Qed.

Lemma X6_beautify_calls_nothing_witness :
  let args := Obj [ ("input_image_path", Str "outputs/shot.png");
                    ("goal", Str "more whitespace") ] in
  fst (handleBeautifyScreenshot noEnv "/" "srv/dist/utils" (fun _ => "invalid")
         args freshWorld)
  = inr beautifyStub.
Proof.
  intros args.
  apply (proj1 (proj2 (X6_beautify_calls_nothing noEnv "/" "srv/dist/utils"
                         (fun _ => "invalid") args freshWorld))
           {| Zod.bs_input_image_path := "outputs/shot.png";
              Zod.bs_goal := "more whitespace";
              Zod.bs_output_format := "png" |}
           "/srv/outputs/shot.png").
  - reflexivity.
  - reflexivity.
Defined.

(** X7. Arguments that a tool's schema rejects cost one unit of that
    tool's quota and nothing else: the call returns the schema's message,
    records its timestamp and makes no outside call. *)
Theorem X7_rejected_arguments_only_cost_quota
        (env : ProcessEnv) (cwd moduleDir : string)
        (zodMessage : list Zod.Issue -> string)
        (name : string) (args : value) (issues : list Zod.Issue)
        (o : Oracle) (w : World) :
  (name = "generate_image" /\ Zod.generateImageInputSchema args = inl issues)
  \/ (name = "generate_icon" /\ Zod.generateIconInputSchema args = inl issues)
  \/ (name = "generate_hero" /\ Zod.generateHeroInputSchema args = inl issues)
  \/ (name = "beautify_screenshot"
      /\ Zod.beautifyScreenshotInputSchema args = inl issues) ->
  atCapacity env (inWindow (dateNow o) (timestampsOf w name)) = false ->
  callTool env cwd moduleDir zodMessage name args o w
  = (failure (zodMessage issues), recorded name (dateNow o) w).
Proof.
  intros Hcase Hq. unfold callTool.
  rewrite callToolWith_dispatch, dispatch_under by exact Hq.
  destruct Hcase as [[-> Hs]|[[-> Hs]|[[-> Hs]|[-> Hs]]]]; unfold route; simpl.
  - rewrite (handleGenerateImage_invalid _ _ _ _ _ _ _ _ _ Hs). reflexivity.
  - rewrite (handleGenerateIcon_invalid _ _ _ _ _ _ _ _ _ Hs). reflexivity.
  - rewrite (handleGenerateHero_invalid _ _ _ _ _ _ _ _ _ Hs). reflexivity.
  - rewrite (handleBeautifyScreenshot_invalid _ _ _ _ _ _ _ Hs). reflexivity.
Qed.

Lemma X7_rejected_arguments_only_cost_quota_witness :
  callTool (withKey noEnv "k") "/" "srv/dist/utils" (fun _ => "invalid")
           "generate_icon" (Obj [ ("concept", Str "") ]) (answering 5 "QUJD") freshWorld
  = (failure "invalid", recorded "generate_icon" 5 freshWorld).
Proof.
  apply (X7_rejected_arguments_only_cost_quota
           (withKey noEnv "k") "/" "srv/dist/utils" (fun _ => "invalid")
           "generate_icon" (Obj [ ("concept", Str "") ])
           [ {| Zod.issuePath := ["concept"]; Zod.issueCode := Zod.too_small;
                Zod.received := Str "" |} ]
           (answering 5 "QUJD") freshWorld).
  - right. left. split; reflexivity.
  - reflexivity.
Defined.

(** ** The provider adapter *)

(** X8. [generateImage] does not call [fetch] when the adapter is not
    configured and throws the configuration error; when it is configured
    it calls [fetch] exactly once, whatever happens afterwards: a POST to
    [<baseUrl>/v1beta/models/<model>:generateContent] carrying the
    credential in the [x-goog-api-key] header and the built body. *)
Theorem X8_one_request_per_invocation
        (config : GeminiConfig) (options : ImageGenerationOptions)
        (o : Oracle) (w : World) :
  (GeminiProvider.isConfigured config = false ->
   GeminiProvider.generateImage config options o w
   = (inl (Error "Gemini provider not configured. Set GEMINI_API_KEY in your .env file"), w)) /\
  (GeminiProvider.isConfigured config = true ->
   trace (snd (GeminiProvider.generateImage config options o w))
   = trace w ++
     [ FetchApi (baseUrl config +:+ "/v1beta/models/" +:+ model config +:+ ":generateContent")
                [ ("Content-Type", "application/json"); ("x-goog-api-key", apiKey config) ]
                (GeminiProvider.buildRequestBody options) ] /\
   rateLimitMap (snd (GeminiProvider.generateImage config options o w)) = rateLimitMap w).
Proof.
  unfold GeminiProvider.generateImage. split; intros Hc; rewrite Hc; simpl negb; cbv iota.
  - reflexivity.
  - cbv zeta.
    generalize (Fetch.fetch
                  (isUrl o (baseUrl config +:+ "/v1beta/models/" +:+ model config
                            +:+ ":generateContent"))
                  [ ("Content-Type", "application/json");
                    ("x-goog-api-key", apiKey config) ] (apiFetch o)).
    unfold tryCatch, bindM, emit, lift, ret, throw. simpl.
    intros [e|response]; simpl; [split; reflexivity|].
    destruct (ok response); simpl.
    + destruct (json response) as [e|body]; simpl; [split; reflexivity|].
      destruct (GeminiProvider.parseResponse body _); simpl; split; reflexivity.
    + destruct (text response); simpl; split; reflexivity.
Qed.

Definition someOptions : ImageGenerationOptions :=
  {| prompt := "a rocket"; style := Some "flat"; size := Some "512x512";
     background := Some "transparent"; format := Some "png" |}.

(** The same options without a credential, and with one in a process
    that cannot reach the network. *)
Lemma X8_one_request_per_invocation_witness :
  GeminiProvider.generateImage (geminiConfig noEnv) someOptions (offline 5) freshWorld
  = (inl (Error "Gemini provider not configured. Set GEMINI_API_KEY in your .env file"),
     freshWorld) /\
  trace (snd (GeminiProvider.generateImage (geminiConfig (withKey noEnv "k")) someOptions
                (offline 5) freshWorld))
  = [ FetchApi
        "https://generativelanguage.googleapis.com/v1beta/models/gemini-2.5-flash-image:generateContent"
        [ ("Content-Type", "application/json"); ("x-goog-api-key", "k") ]
        (GeminiProvider.buildRequestBody someOptions) ].
Proof.
  split.
  - apply (proj1 (X8_one_request_per_invocation (geminiConfig noEnv) someOptions
                    (offline 5) freshWorld)).
    reflexivity.
  - apply (proj1 (proj2 (X8_one_request_per_invocation (geminiConfig (withKey noEnv "k"))
                           someOptions (offline 5) freshWorld) eq_refl)).
Defined.


Definition answeringStatus (code : Z) (reason : string) : Oracle :=
  {| dateNow := 5;
     isoString := "2024-05-06T07:08:09.123Z";
     randomHex := "0a1b2c3d";
     isUrl := fun _ => true;
     apiFetch := inr {| ok := false; status := code; statusText := reason;
                        text := inr "quota exceeded"; json := inl (Error "no body");
                        arrayBuffer := inl (Error "no body") |};
     urlFetch := inl (TypeError "fetch failed");
     fsAccess := fun _ => true;
     fsMkdir := fun _ => None;
     fsWriteFile := fun _ => None |}.


Lemma scanParts_truthy (parts : list value) (d : value) :
  GeminiProvider.scanParts parts = inr (Some d) -> Js.truthy d = true.
Proof.
  induction parts as [|part rest IH]; simpl; [discriminate|].
  destruct (Js.get part "inline_data") as [e|inline_data]; simpl; [discriminate|].
  destruct (Js.truthy (Js.getOpt inline_data "data")) eqn:E; [|exact IH].
  intros H. injection H as <-. exact E.
Qed.

Lemma scanCandidates_truthy (candidates : list value) (d : value) :
  GeminiProvider.scanCandidates candidates = inr (Some d) -> Js.truthy d = true.
Proof.
  induction candidates as [|candidate rest IH]; simpl; [discriminate|].
  destruct (Js.get candidate "content") as [e|content]; simpl; [discriminate|].
  destruct (Js.truthy (Js.getOpt content "parts")); [|exact IH].
  destruct (GeminiProvider.iterateParts (Js.getOpt content "parts")) as [e|[found|]] eqn:E;
    simpl; [discriminate| |exact IH].
  intros H. injection H as <-.
  destruct (Js.getOpt content "parts"); simpl in E; try discriminate E.
  apply (scanParts_truthy _ _ E).
Qed.

(** X10. Whatever [parseResponse] returns can be stored: the data is never
    empty, [null] or [undefined]; data tagged [url] is a non-empty string
    beginning with [http] or the content of the [url] field; and the
    dimensions are those of the requested size, not of the image. *)
Theorem X10_parsed_result_is_usable
        (response : value) (size : string) (r : ImageGenerationResult) :
  GeminiProvider.parseResponse response size = inr r ->
  Js.truthy (data r) = true /\
  (dataFormat r = url ->
   exists s, data r = Str s /\ Str.truthy s = true
             /\ (Str.startsWith s "http" = true \/ Js.getOpt response "url" = Str s)) /\
  (width r, height r) = parseSize size.
Proof.
  unfold GeminiProvider.parseResponse. destruct (parseSize size) as [w h].
  destruct (Js.get response "candidates") as [e|candidates]; simpl; [discriminate|].
  assert (Hfallback :
    forall r0,
      match Js.getOpt response "image" with
      | Str (String c i) =>
          inr {| data := Str (String c i);
                 dataFormat := GeminiProvider.formatOf (String c i);
                 width := w; height := h |}
      | _ =>
          match Js.getOpt response "data" with
          | Str (String c d) =>
              inr {| data := Str (String c d);
                     dataFormat := GeminiProvider.formatOf (String c d);
                     width := w; height := h |}
          | _ =>
              match Js.getOpt response "url" with
              | Str (String c u) =>
                  inr {| data := Str (String c u); dataFormat := url;
                         width := w; height := h |}
              | _ => inl (Error GeminiProvider.unparseable)
              end
          end
      end = inr r0 ->
      Js.truthy (data r0) = true /\
      (dataFormat r0 = url ->
       exists s, data r0 = Str s /\ Str.truthy s = true
                 /\ (Str.startsWith s "http" = true \/ Js.getOpt response "url" = Str s)) /\
      (width r0, height r0) = (w, h)).
  { intros r0.
    destruct (Js.getOpt response "image") as [| | | |[|c1 s1]| | |] eqn:E1;
    destruct (Js.getOpt response "data") as [| | | |[|c2 s2]| | |] eqn:E2;
    destruct (Js.getOpt response "url") as [| | | |[|c3 s3]| | |] eqn:E3;
    intros H; try discriminate H; injection H as <-; simpl;
    (split; [reflexivity|split; [|reflexivity]]);
    unfold GeminiProvider.formatOf;
    try (intros _; eexists; split; [reflexivity|split; [reflexivity|right; reflexivity]]);
    match goal with
    | |- context [Str.startsWith ?s "http"] =>
        destruct (Str.startsWith s "http") eqn:Eh; intros Hu; try discriminate Hu;
        eexists; split; [reflexivity|split; [reflexivity|left; exact Eh]]
    end. }
  destruct candidates as [| |b|n|s|items|fields|fn]; simpl; try apply Hfallback.
  destruct (GeminiProvider.scanCandidates items) as [e|[d|]] eqn:Hscan; simpl;
    [discriminate| |apply Hfallback].
  intros H. injection H as <-. simpl.
  split; [|split; [discriminate|reflexivity]].
  apply (scanCandidates_truthy _ _ Hscan).
Qed.

Lemma X10_parsed_result_is_usable_witness :
  exists s, Str "https://cdn.example.com/a.png" = Str s /\ Str.truthy s = true
            /\ (Str.startsWith s "http" = true
                \/ Js.getOpt (Obj [ ("image", Str "https://cdn.example.com/a.png") ]) "url"
                   = Str s).
Proof.
  apply (proj1 (proj2 (X10_parsed_result_is_usable
                         (Obj [ ("image", Str "https://cdn.example.com/a.png") ])
                         "1024x1024"
                         {| data := Str "https://cdn.example.com/a.png"; dataFormat := url;
                            width := Num.of_Z 1024; height := Some (Num.of_Z 1024) |}
                         eq_refl))).
  reflexivity.
Defined.

(** ** The path guard and the file helpers *)

(** X11. With the default outputs directory, [validateOutputPath] resolves
    a bare file name against the project root and lets it through exactly
    when the name begins with the letters [outputs]; every other bare
    name is refused. *)
Theorem X11_bare_names_at_validation
        (env : ProcessEnv) (cwd moduleDir name : string) :
  OUTPUT_DIR_ env = None -> PathFacts.clean name = true ->
  validateOutputPath env cwd moduleDir name
  = if Str.startsWith name "outputs"
    then inr (PathFacts.child (PROJECT_ROOT cwd moduleDir) name)
    else inl (Error "Invalid output path: must be within outputs directory").
Proof. apply validateOutputPath_bare. Qed.

Lemma X11_bare_names_at_validation_witness :
  validateOutputPath noEnv "/" "srv/dist/utils" "my_image.png"
  = inl (Error "Invalid output path: must be within outputs directory").
Proof.
  apply (X11_bare_names_at_validation noEnv "/" "srv/dist/utils" "my_image.png").
  - reflexivity.
  - reflexivity.
Defined.

Lemma slashed_length (l : list string) :
  l <> [] -> (0 < String.length (PathFacts.slashed l))%nat.
Proof.
  destruct l as [|s l]; [congruence|]. intros _.
  change (PathFacts.slashed (s :: l)) with (Path.sep +:+ s +:+ PathFacts.slashed l).
  rewrite StrFacts.length_app. change (String.length Path.sep) with 1%nat. lia.
Qed.

(** X12. With the default outputs directory, an [output_path] of the form
    [outputs/<dirs>/<name>] passes [validateOutputPath] as that nested
    path, but [safeJoinOutputs], which decides where the image is written,
    maps it to [<name>] directly in the outputs directory: as soon as
    there is one directory in between, the file is not stored where the
    validated path says. *)
Theorem X12_directories_dropped_at_write
        (env : ProcessEnv) (cwd moduleDir : string) (dirs : list string) (name : string) :
  OUTPUT_DIR_ env = None ->
  Forall (fun s => PathFacts.clean s = true) dirs -> PathFacts.clean name = true ->
  let filePath := Str.join Path.sep ("outputs" :: dirs ++ [name]) in
  let validated := OUTPUTS_PATH env cwd moduleDir +:+ PathFacts.slashed (dirs ++ [name]) in
  let written := OUTPUTS_PATH env cwd moduleDir +:+ PathFacts.slashed [name] in
  validateOutputPath env cwd moduleDir filePath = inr validated /\
  safeJoinOutputs env cwd moduleDir filePath = inr written /\
  (dirs <> [] -> validated <> written).
Proof.
  intros He Hd Hn filePath validated written.
  destruct (nested_output_path env cwd moduleDir dirs name He Hd Hn) as [Hv Hs].
  split; [exact Hv|]. split; [exact Hs|].
  intros Hne Heq. unfold validated, written in Heq.
  apply (f_equal String.length) in Heq.
  rewrite !StrFacts.length_app, PathFacts.slashed_app, StrFacts.length_app in Heq.
  pose proof (slashed_length dirs Hne). lia.
Qed.

Lemma X12_directories_dropped_at_write_witness :
  validateOutputPath noEnv "/" "srv/dist/utils" "outputs/2024/may/logo.png"
  = inr "/srv/outputs/2024/may/logo.png" /\
  safeJoinOutputs noEnv "/" "srv/dist/utils" "outputs/2024/may/logo.png"
  = inr "/srv/outputs/logo.png".
Proof.
  destruct (X12_directories_dropped_at_write noEnv "/" "srv/dist/utils"
              ["2024"; "may"] "logo.png" eq_refl) as (Hv & Hs & _).
  - repeat constructor.
  - reflexivity.
  - split; [exact Hv|exact Hs].
Defined.

Lemma segmentsOf_render (R : list string) :
  Forall (fun s => PathFacts.clean s = true) R ->
  Path.segmentsOf (PathFacts.render R) = R.
Proof.
  intros HR. unfold Path.segmentsOf. destruct R as [|s R]; [reflexivity|].
  unfold PathFacts.render. rewrite PathFacts.sep_app.
  change (String Path.slash (Str.join Path.sep (s :: R)))
    with ("" +:+ String Path.slash (Str.join Path.sep (s :: R))).
  rewrite StrFacts.split_app, PathFacts.split_join
    by (try discriminate; apply PathFacts.clean_lacks, HR).
  change (Str.split Path.slash "" ++ s :: R) with ("" :: s :: R).
  rewrite filter_cons_False by (simpl; discriminate).
  clear -HR. induction HR as [|x l Hx _ IH]; [reflexivity|].
  rewrite filter_cons_True by apply (PathFacts.clean_parts x Hx).
  rewrite IH. reflexivity.
Qed.

Lemma relativeSegments_below (R l : list string) :
  Path.relativeSegments R (R ++ l) = l.
Proof.
  induction R as [|s R IH]; [destruct l; reflexivity|].
  simpl. rewrite String.eqb_refl. exact IH.
Qed.

(** X13. With the default outputs directory, the [file_path] that a
    success payload reports for a stored file is [outputs/<name>], and
    handing that string back, as [input_image_path] or as [output_path],
    passes [validateOutputPath] and resolves to the stored file. *)
Theorem X13_reported_path_is_accepted_back
        (env : ProcessEnv) (cwd moduleDir name : string) :
  OUTPUT_DIR_ env = None -> PathFacts.clean name = true ->
  let stored := PathFacts.child (OUTPUTS_PATH env cwd moduleDir) name in
  safeJoinOutputs env cwd moduleDir name = inr stored /\
  toRelativePath cwd moduleDir stored = "outputs/" +:+ name /\
  validateOutputPath env cwd moduleDir (toRelativePath cwd moduleDir stored) = inr stored.
Proof.
  intros He Hn stored.
  destruct (PathFacts.clean_parts name Hn) as (_ & _ & _ & Hl).
  destruct (PROJECT_ROOT_render cwd moduleDir) as (R & HR & HP).
  assert (Hstored : stored = PathFacts.render (R ++ ["outputs"; name])).
  { unfold stored. rewrite (OUTPUTS_PATH_default env cwd moduleDir R He HR HP).
    rewrite <- PathFacts.render_snoc.
    - rewrite <- app_assoc. reflexivity.
    - apply Forall_app. split; [exact HR|repeat constructor]. }
  assert (Hrel : toRelativePath cwd moduleDir stored = "outputs/" +:+ name).
  { unfold toRelativePath, Path.relative. rewrite HP, Hstored.
    rewrite !segmentsOf_render, relativeSegments_below; [reflexivity| |exact HR].
    apply Forall_app. split; [exact HR|]. repeat constructor. exact Hn. }
  split; [|split; [exact Hrel|]].
  - pose proof (safeJoinOutputs_clean env cwd moduleDir name) as Hs.
    rewrite (PathFacts.basename_bare name Hl) in Hs. apply Hs, Hn.
  - rewrite Hrel.
    destruct (nested_output_path env cwd moduleDir [] name He
                (List.Forall_nil _) Hn) as [Hv _].
    change (Str.join Path.sep ("outputs" :: [] ++ [name])) with ("outputs/" +:+ name)
      in Hv.
    rewrite Hv. f_equal. rewrite Hstored.
    rewrite (OUTPUTS_PATH_default env cwd moduleDir R He HR HP).
    rewrite !PathFacts.render_slashed by (destruct R; discriminate).
    replace (R ++ ["outputs"; name]) with ((R ++ ["outputs"]) ++ [name])
      by (rewrite <- app_assoc; reflexivity).
    rewrite (PathFacts.slashed_app (R ++ ["outputs"]) [name]). reflexivity.
Qed.

Lemma X13_reported_path_is_accepted_back_witness :
  toRelativePath "/" "srv/dist/utils" "/srv/outputs/logo.png" = "outputs/logo.png" /\
  validateOutputPath noEnv "/" "srv/dist/utils" "outputs/logo.png"
  = inr "/srv/outputs/logo.png".
Proof.
  destruct (X13_reported_path_is_accepted_back noEnv "/" "srv/dist/utils" "logo.png"
              eq_refl eq_refl) as (_ & Hr & Hv).
  split; [exact Hr|]. rewrite Hr in Hv. exact Hv.
Defined.

Lemma resolve_ignores_cwd (cwd1 cwd2 p f : string) :
  Path.isAbsolute p = true ->
  Path.resolve cwd1 [p; f] = Path.resolve cwd2 [p; f].
Proof.
  intros Hp. destruct f as [|c f].
  - rewrite !PathFacts.resolve_onto_empty, !PathFacts.resolve_absolute by exact Hp.
    reflexivity.
  - destruct (Path.isAbsolute (String c f)) eqn:Ha.
    + rewrite !PathFacts.resolve_onto_absolute, !PathFacts.resolve_absolute by exact Ha.
      reflexivity.
    + rewrite !PathFacts.resolve_relative by (try exact Hp; try exact Ha; reflexivity).
      reflexivity.
Qed.

(** X14. The guard does not depend on the directory the server was started
    from: the project root, the outputs directory and the outcome of both
    checks are the same for every working directory. *)
Theorem X14_guard_ignores_working_directory
        (env : ProcessEnv) (cwd1 cwd2 moduleDir filePath : string) :
  PROJECT_ROOT cwd1 moduleDir = PROJECT_ROOT cwd2 moduleDir /\
  OUTPUTS_PATH env cwd1 moduleDir = OUTPUTS_PATH env cwd2 moduleDir /\
  validateOutputPath env cwd1 moduleDir filePath
  = validateOutputPath env cwd2 moduleDir filePath /\
  safeJoinOutputs env cwd1 moduleDir filePath = safeJoinOutputs env cwd2 moduleDir filePath.
Proof.
  assert (HP : PROJECT_ROOT cwd1 moduleDir = PROJECT_ROOT cwd2 moduleDir) by reflexivity.
  assert (Habs : Path.isAbsolute (PROJECT_ROOT cwd2 moduleDir) = true) by reflexivity.
  assert (HO : OUTPUTS_PATH env cwd1 moduleDir = OUTPUTS_PATH env cwd2 moduleDir).
  { unfold OUTPUTS_PATH. rewrite HP. apply resolve_ignores_cwd, Habs. }
  split; [exact HP|]. split; [exact HO|]. split.
  - unfold validateOutputPath. rewrite HO, HP.
    rewrite (resolve_ignores_cwd cwd1 cwd2 _ filePath Habs). reflexivity.
  - destruct (OUTPUTS_PATH_render env cwd2 moduleDir) as (O & HOc & HOr).
    rewrite (safeJoinOutputs_unfold env cwd1 moduleDir O filePath HOc)
      by (rewrite HO; exact HOr).
    rewrite (safeJoinOutputs_unfold env cwd2 moduleDir O filePath HOc HOr).
    reflexivity.
Qed.

Lemma lacks_take (c : ascii) (n : nat) (s : string) :
  Str.lacks c s = true -> Str.lacks c (Str.take n s) = true.
Proof.
  revert s. induction n as [|n IH]; intros s; [reflexivity|].
  destruct s as [|x s]; [reflexivity|]. simpl.
  rewrite !andb_true_iff. intros [Hx Hs]. split; [exact Hx|apply IH, Hs].
Qed.

Lemma length_take (n : nat) (s : string) : (String.length (Str.take n s) <= n)%nat.
Proof.
  revert s. induction n as [|n IH]; intros s; [simpl; lia|].
  destruct s as [|x s]; simpl; [lia|]. specialize (IH s). lia.
Qed.

Lemma colonOrPeriodToDash_spec (c : ascii) :
  Ascii.eqb (colonOrPeriodToDash c) ":" = false /\
  Ascii.eqb (colonOrPeriodToDash c) "." = false /\
  (Ascii.eqb c Path.slash = false -> Ascii.eqb (colonOrPeriodToDash c) Path.slash = false).
Proof.
  destruct c as [[] [] [] [] [] [] [] []]; repeat split; intros; try reflexivity;
    try assumption.
Qed.

Lemma lacks_map_dash (s : string) :
  Str.lacks ":" (Str.map colonOrPeriodToDash s) = true /\
  Str.lacks "." (Str.map colonOrPeriodToDash s) = true /\
  (Str.lacks Path.slash s = true ->
   Str.lacks Path.slash (Str.map colonOrPeriodToDash s) = true).
Proof.
  induction s as [|c s (IH1 & IH2 & IH3)]; [repeat split|].
  destruct (colonOrPeriodToDash_spec c) as (H1 & H2 & H3).
  simpl. rewrite H1, H2, IH1, IH2. repeat split.
  rewrite andb_true_iff, negb_true_iff. intros [Hc Hs].
  rewrite (H3 Hc), (IH3 Hs). reflexivity.
Qed.

(** The time stamp inside a generated file name. *)
Definition timestampOf (o : Oracle) : string :=
  Str.take 19 (Str.map colonOrPeriodToDash (isoString o)).

(** X15. In a generated file name the time stamp has at most 19
    characters and neither colon nor period, and when the pieces of the
    name contain no slash the guard stores the file under exactly that
    name in the outputs directory. *)
Theorem X15_generated_names_pass_the_guard
        (env : ProcessEnv) (cwd moduleDir toolName extension : string) (o : Oracle) :
  generateFilename toolName extension o
  = toolName +:+ "_" +:+ timestampOf o +:+ "_" +:+ randomHex o +:+ "." +:+ extension /\
  (String.length (timestampOf o) <= 19)%nat /\
  Str.lacks ":" (timestampOf o) = true /\ Str.lacks "." (timestampOf o) = true /\
  (Str.lacks Path.slash toolName = true -> Str.lacks Path.slash extension = true ->
   Str.lacks Path.slash (isoString o) = true -> Str.lacks Path.slash (randomHex o) = true ->
   safeJoinOutputs env cwd moduleDir (generateFilename toolName extension o)
   = inr (PathFacts.child (OUTPUTS_PATH env cwd moduleDir)
            (generateFilename toolName extension o))).
Proof.
  destruct (lacks_map_dash (isoString o)) as (H1 & H2 & H3).
  split; [reflexivity|]. split; [apply length_take|].
  split; [apply lacks_take, H1|]. split; [apply lacks_take, H2|].
  intros Ht He Hi Hr.
  assert (Hl : Str.lacks Path.slash (generateFilename toolName extension o) = true).
  { unfold generateFilename. rewrite !StrFacts.lacks_app, Ht, He, Hr.
    rewrite (lacks_take _ _ _ (H3 Hi)). reflexivity. }
  assert (Hu : Str.lacks "_" (generateFilename toolName extension o) = false).
  { unfold generateFilename. rewrite StrFacts.lacks_app.
    change (Str.lacks "_" ("_" +:+ ?x)) with false. apply andb_false_r. }
  pose proof (safeJoinOutputs_clean env cwd moduleDir
                (generateFilename toolName extension o)) as Hs.
  rewrite (PathFacts.basename_bare _ Hl) in Hs. apply Hs.
  unfold PathFacts.clean. rewrite Hl.
  destruct (generateFilename toolName extension o) as [|c rest] eqn:E;
    [discriminate Hu|].
  destruct (String.eqb_spec (String c rest) ".") as [E1|_];
    [rewrite E1 in Hu; discriminate Hu|].
  destruct (String.eqb_spec (String c rest) "..") as [E2|_];
    [rewrite E2 in Hu; discriminate Hu|].
  reflexivity.
Qed.

Lemma X15_generated_names_pass_the_guard_witness :
  safeJoinOutputs noEnv "/" "srv/dist/utils"
                  (generateFilename "generate_icon" "png" (offline 5))
  = inr "/srv/outputs/generate_icon_2024-05-06T07-08-09_0a1b2c3d.png".
Proof.
  apply (proj2 (proj2 (proj2 (proj2
           (X15_generated_names_pass_the_guard noEnv "/" "srv/dist/utils"
              "generate_icon" "png" (offline 5)))))).
  - reflexivity.
  - reflexivity.
  - reflexivity.
  - reflexivity.
Defined.

Fixpoint allWordChars (s : string) : bool :=
  match s with
  | EmptyString => true
  | String c s' => Str.isWordChar c && allWordChars s'
  end.

Lemma dropWordChars_app (subtype rest : string) :
  allWordChars subtype = true ->
  Str.dropWordChars (subtype +:+ ";base64," +:+ rest) = ";base64," +:+ rest.
Proof.
  induction subtype as [|c s IH]; [reflexivity|].
  simpl. rewrite andb_true_iff. intros [Hc Hs].
  rewrite StrFacts.app_cons. simpl. rewrite Hc. apply IH, Hs.
Qed.

(** X16. [writeBase64Image] accepts data URLs: for every image subtype
    made of word characters, [data:image/<subtype>;base64,<payload>] is
    reduced to [<payload>] before decoding; text that does not begin with
    [data:image/] is decoded as it is. *)
Theorem X16_data_url_prefix_removed (subtype payload other : string) :
  (Str.truthy subtype = true -> allWordChars subtype = true ->
   stripDataUrlPrefix ("data:image/" +:+ subtype +:+ ";base64," +:+ payload) = payload) /\
  (Str.startsWith other "data:image/" = false -> stripDataUrlPrefix other = other).
Proof.
  split.
  - intros Ht Hw. unfold stripDataUrlPrefix.
    rewrite (StrFacts.startsWith_app "data:image/" (subtype +:+ ";base64," +:+ payload)).
    change (Str.drop 11 ("data:image/" +:+ subtype +:+ ";base64," +:+ payload))
      with (subtype +:+ ";base64," +:+ payload).
    rewrite (dropWordChars_app subtype payload Hw).
    rewrite (StrFacts.startsWith_app ";base64," payload).
    change (Str.drop 8 (";base64," +:+ payload)) with payload.
    rewrite andb_true_r.
    destruct (Nat.ltb_spec (String.length (";base64," +:+ payload))
                           (String.length (subtype +:+ ";base64," +:+ payload)))
      as [_|Hge]; [reflexivity|].
    rewrite StrFacts.length_app in Hge. destruct subtype; [discriminate Ht|].
    simpl in Hge. lia.
  - intros H. unfold stripDataUrlPrefix. rewrite H. reflexivity.
Qed.

Lemma X16_data_url_prefix_removed_witness :
  stripDataUrlPrefix "data:image/png;base64,iVBORw0KGgo=" = "iVBORw0KGgo=".
Proof.
  apply (proj1 (X16_data_url_prefix_removed "png" "iVBORw0KGgo=" "")).
  - reflexivity.
  - reflexivity.
Defined.

Lemma lowerChar_idem (c : ascii) : Str.lowerChar (Str.lowerChar c) = Str.lowerChar c.
Proof. destruct c as [[] [] [] [] [] [] [] []]; reflexivity. Qed.

Lemma toLowerCase_idem (s : string) :
  Str.toLowerCase (Str.toLowerCase s) = Str.toLowerCase s.
Proof.
  unfold Str.toLowerCase. induction s as [|c s IH]; [reflexivity|].
  simpl. rewrite lowerChar_idem, IH. reflexivity.
Qed.

(** No method of [Object.prototype] has an all lower-case name. *)
Lemma lower_case_is_no_method (s : string) :
  existsb (String.eqb (Str.toLowerCase s)) Js.objectMethods = false.
Proof.
  assert (H : forall m, Str.toLowerCase m <> m -> String.eqb (Str.toLowerCase s) m = false).
  { intros m Hm. apply String.eqb_neq. intros E. apply Hm.
    rewrite <- E. apply toLowerCase_idem. }
  unfold Js.objectMethods. cbn [existsb].
  rewrite !H by (vm_compute; discriminate). reflexivity.
Qed.

(** X17. [getMimeType] does not care about the case of the extension: it
    answers the MIME type of [png], [webp], [jpg] and [jpeg] in any case,
    and [application/octet-stream] for every extension whose lower-case
    form is none of these and neither [constructor] nor [__proto__].  For
    those two it returns what the table inherits, the function [Object]
    and the empty [Object.prototype], and no string. *)
Theorem X17_mime_type_ignores_case (extension : string) :
  let lower := Str.toLowerCase extension in
  getMimeType lower = getMimeType extension /\
  (forall mime,
      In (lower, mime) [ ("png", "image/png"); ("webp", "image/webp");
                         ("jpg", "image/jpeg"); ("jpeg", "image/jpeg") ] ->
      getMimeType extension = Str mime) /\
  (~ In lower ["png"; "webp"; "jpg"; "jpeg"; "constructor"; "__proto__"] ->
   getMimeType extension = Str "application/octet-stream") /\
  (lower = "constructor" -> getMimeType extension = Fn "Object") /\
  (lower = "__proto__" -> getMimeType extension = Obj []).
Proof.
  intros lower. subst lower. split; [|split; [|split; [|split]]].
  - unfold getMimeType. rewrite toLowerCase_idem. reflexivity.
  - intros mime H. unfold getMimeType. simpl in H.
    destruct H as [H|[H|[H|[H|[]]]]]; injection H as H1 H2; subst mime;
      rewrite <- H1; reflexivity.
  - intros H. unfold getMimeType, Js.member, mimeTypes. cbn [existsb fst].
    assert (Hne : forall k, In k ["png"; "webp"; "jpg"; "jpeg"; "constructor"; "__proto__"] ->
                            String.eqb (Str.toLowerCase extension) k = false).
    { intros k Hk. apply String.eqb_neq. intros E. apply H. rewrite E. exact Hk. }
    rewrite (Hne "png"), (Hne "webp"), (Hne "jpg"), (Hne "jpeg") by (simpl; tauto).
    cbn [orb]. unfold Js.inherited.
    rewrite (Hne "__proto__"), (Hne "constructor") by (simpl; tauto).
    rewrite lower_case_is_no_method. reflexivity.
  - intros H. unfold getMimeType. rewrite H. reflexivity.
  - intros H. unfold getMimeType. rewrite H. reflexivity.
Qed.

Lemma X17_mime_type_ignores_case_witness :
  getMimeType "JPG" = Str "image/jpeg" /\
  getMimeType "gif" = Str "application/octet-stream" /\
  getMimeType "Constructor" = Fn "Object".
Proof.
  split; [|split].
  - apply (proj1 (proj2 (X17_mime_type_ignores_case "JPG")) "image/jpeg").
    simpl. tauto.
  - apply (proj1 (proj2 (proj2 (X17_mime_type_ignores_case "gif")))).
    simpl. intros [H|[H|[H|[H|[H|[H|[]]]]]]]; discriminate H.
  - apply (proj1 (proj2 (proj2 (proj2 (X17_mime_type_ignores_case "Constructor"))))).
    reflexivity.
Defined.

(** *** [Number] on runs of decimal digits *)

Module NumFacts.

Lemma digit_is_plain (c : ascii) :
  Num.isDigit c = true ->
  Str.isWhiteSpace c = false /\
  (Ascii.nat_of_ascii c =? 45)%nat = false /\ (Ascii.nat_of_ascii c =? 43)%nat = false /\
  (Ascii.nat_of_ascii c =? 46)%nat = false /\
  Num.isOneOf c 120 88 = false /\ Num.isOneOf c 111 79 = false /\
  Num.isOneOf c 98 66 = false /\ Num.isOneOf c 101 69 = false /\
  Ascii.eqb c "I"%char = false /\
  Num.digitIn 10 c = Some (Num.digitValue c).
Proof.
  destruct c as [[] [] [] [] [] [] [] []]; intros H; try discriminate H;
    repeat split; reflexivity.
Qed.

Lemma trim_digits (s : string) : Num.allDigits s = true -> Str.trim s = s.
Proof.
  intros H. unfold Str.trim.
  assert (Hd : Str.dropWhile Str.isWhiteSpace s = s).
  { destruct s as [|c s]; [reflexivity|]. simpl in H. apply andb_true_iff in H.
    simpl. rewrite (proj1 (digit_is_plain c (proj1 H))). reflexivity. }
  rewrite Hd. clear Hd.
  induction s as [|c s IH]; [reflexivity|].
  simpl in H. apply andb_true_iff in H. destruct H as [Hc Hs].
  simpl. rewrite (IH Hs). destruct s; [|reflexivity].
  rewrite (proj1 (digit_is_plain c Hc)). reflexivity.
Qed.

Lemma spanDigits_digits (s : string) :
  Num.allDigits s = true -> Num.spanDigits s = (s, EmptyString).
Proof.
  induction s as [|c s IH]; [reflexivity|].
  simpl. rewrite andb_true_iff. intros [Hc Hs]. rewrite Hc, (IH Hs). reflexivity.
Qed.

Lemma nonDecimal_digits (s : string) : Num.allDigits s = true -> Num.nonDecimal s = None.
Proof.
  destruct s as [|z [|c ds]]; try reflexivity.
  simpl. rewrite !andb_true_iff. intros (_ & Hc & _).
  destruct (digit_is_plain c Hc) as (_ & _ & _ & _ & Hx & Ho & Hb & _).
  rewrite Hx, Ho, Hb. destruct (_ && _); reflexivity.
Qed.

(** [Number] of a run of decimal digits is the number of the integer the
    digits denote. *)
Lemma ofString_digits (s : string) :
  Num.allDigits s = true -> Num.ofString s = Num.nearest (Num.decimalValue s).
Proof.
  intros H. unfold Num.ofString. rewrite (trim_digits s H).
  destruct s as [|c s]; [reflexivity|].
  rewrite (nonDecimal_digits _ H).
  pose proof H as Hcs. simpl in Hcs. apply andb_true_iff in Hcs. destruct Hcs as [Hc _].
  destruct (digit_is_plain c Hc) as (_ & Hminus & Hplus & _ & _ & _ & _ & _ & HI & _).
  unfold Num.signedDecimal, Num.signOf. rewrite Hminus, Hplus.
  assert (Hinf : String.eqb (String c s) "Infinity" = false).
  { simpl. rewrite HI. reflexivity. }
  rewrite Hinf. unfold Num.unsignedDecimal. rewrite (spanDigits_digits _ H).
  cbn [Str.truthy orb Num.exponentPart String.length].
  rewrite StrFacts.app_nil_r. unfold Num.scale.
  destruct (Z.eqb_spec (Num.decimalValue (String c s)) 0) as [->|_]; [reflexivity|].
  change (Z.of_nat 0) with 0. change (0 - 0) with 0.
  change (0 <=? 0) with true. change (400 <? 0) with false. cbv iota.
  change (10 ^ 0) with 1. rewrite Z.mul_1_r. reflexivity.
Qed.

(** Below [2 ^ 53] that number is the integer itself. *)
Lemma nearest_small (z : Z) : 0 <= z < 2 ^ 53 -> Num.nearest z = Num.of_Z z.
Proof.
  intros [H0 H1]. unfold Num.nearest. rewrite (Z.abs_eq z H0).
  destruct (Z.ltb_spec z (2 ^ 53)) as [_|Hge]; [|exfalso; exact (Zle_not_lt _ _ Hge H1)].
  destruct (Z.ltb_spec z 0) as [Hlt|_]; [exfalso; exact (Zle_not_lt _ _ H0 Hlt)|].
  reflexivity.
Qed.

End NumFacts.

Definition letterX : ascii := Ascii.ascii_of_nat 120.

Lemma digits_lack_x (s : string) : Num.allDigits s = true -> Str.lacks letterX s = true.
Proof.
  induction s as [|c s IH]; [reflexivity|].
  simpl. rewrite !andb_true_iff. intros [Hc Hs]. split; [|apply IH, Hs].
  destruct c as [[] [] [] [] [] [] [] []]; try discriminate Hc; reflexivity.
Qed.

(** X18. [parseSize] reads [<width>x<height>], for runs of decimal digits
    on both sides, as the numbers of the two integers written there, which
    are these integers themselves below [2 ^ 53]; an empty side reads as 0.
    A size without an [x] has a width only, [Number] of the whole text,
    and its height is [undefined]. *)
Theorem X18_parseSize_reads_both_sides (w h s : string) :
  (Num.allDigits w = true -> Num.allDigits h = true ->
   parseSize (w +:+ "x" +:+ h)
   = (Num.nearest (Num.decimalValue w), Some (Num.nearest (Num.decimalValue h))) /\
   (Num.decimalValue w < 2 ^ 53 -> Num.decimalValue h < 2 ^ 53 ->
    0 <= Num.decimalValue w -> 0 <= Num.decimalValue h ->
    parseSize (w +:+ "x" +:+ h)
    = (Num.of_Z (Num.decimalValue w), Some (Num.of_Z (Num.decimalValue h))))) /\
  (Str.lacks letterX s = true -> parseSize s = (Num.ofString s, None)).
Proof.
  split.
  - intros Hw Hh.
    assert (Hp : parseSize (w +:+ "x" +:+ h)
                 = (Num.nearest (Num.decimalValue w), Some (Num.nearest (Num.decimalValue h)))).
    { unfold parseSize.
      change ("x" +:+ h) with (String letterX h).
      rewrite StrFacts.split_app.
      rewrite (StrFacts.split_lacks _ _ (digits_lack_x w Hw)).
      rewrite (StrFacts.split_lacks _ _ (digits_lack_x h Hh)).
      cbn [app List.map].
      rewrite (NumFacts.ofString_digits w Hw), (NumFacts.ofString_digits h Hh).
      reflexivity. }
    split; [exact Hp|].
    intros Hw53 Hh53 Hw0 Hh0. rewrite Hp.
    rewrite !NumFacts.nearest_small by (split; assumption). reflexivity.
  - intros Hs. unfold parseSize. fold letterX.
    rewrite (StrFacts.split_lacks _ _ Hs). reflexivity.
Qed.

Lemma X18_parseSize_reads_both_sides_witness :
  parseSize "1536x1024" = (Num.of_Z 1536, Some (Num.of_Z 1024)) /\
  parseSize "1e3" = (Num.of_Z 1000, None).
Proof.
  split.
  - apply (proj2 (proj1 (X18_parseSize_reads_both_sides "1536" "1024" "") eq_refl eq_refl)).
    + reflexivity.
    + reflexivity.
    + discriminate.
    + discriminate.
  - rewrite (proj2 (X18_parseSize_reads_both_sides "" "" "1e3") eq_refl).
    vm_compute. reflexivity.
Defined.

(** ** The schemas *)

Lemma string_sound (lo : nat) (hi : option nat) (path : string) (v : value) (s : string) :
  Zod.string_ lo hi path v = inr s ->
  v = Str s /\ (lo <= String.length s)%nat
  /\ (forall h, hi = Some h -> (String.length s <= h)%nat).
Proof.
  unfold Zod.string_. destruct v; try discriminate.
  destruct (Nat.ltb_spec (String.length s0) lo); [discriminate|].
  destruct hi as [h|].
  - destruct (Nat.ltb_spec h (String.length s0)); [discriminate|].
    intros E. injection E as <-. repeat split; auto. intros h' Hh. injection Hh as <-. lia.
  - intros E. injection E as <-. repeat split; auto. discriminate.
Qed.

Lemma enum_sound (options : list string) (path : string) (v : value) (s : string) :
  Zod.enum options path v = inr s -> In s options.
Proof.
  unfold Zod.enum. destruct v; try discriminate.
  destruct (existsb (String.eqb s0) options) eqn:E; [|discriminate].
  intros H. injection H as <-.
  apply existsb_exists in E. destruct E as (x & Hx & Heq).
  apply String.eqb_eq in Heq. subst x. exact Hx.
Qed.

Lemma default_enum_sound (options : list string) (d path : string) (v : value) (s : string) :
  In d options -> Zod.default (Zod.enum options) d path v = inr s -> In s options.
Proof.
  intros Hd. unfold Zod.default.
  destruct v; try (apply enum_sound). intros H. injection H as <-. exact Hd.
Qed.

(** X19. What the [generate_image] schema lets through: the prompt has
    between 1 and 2000 characters, style, size, background and output
    format are among the enumerated values, also when they were filled in
    by default, and an output path, if there is one, is the string that
    was passed.  A request with nothing but a valid prompt is accepted with
    the documented defaults. *)
Theorem X19_generate_image_schema (args : value) (input : Zod.GenerateImageInput) :
  (Zod.generateImageInputSchema args = inr input ->
   (1 <= String.length (Zod.gi_prompt input) <= 2000)%nat /\
   In (Zod.gi_style input) ["illustration"; "3d"; "flat"; "photoreal"; "anime"; "pixel"] /\
   In (Zod.gi_size input) ["1024x1024"; "1024x1536"; "1536x1024"] /\
   In (Zod.gi_background input) ["transparent"; "solid"] /\
   In (Zod.gi_output_format input) ["png"; "webp"] /\
   (forall p, Zod.gi_output_path input = Some p ->
              exists fields, args = Obj fields /\ Js.assoc "output_path" fields = Str p)) /\
  (forall p, (1 <= String.length p <= 2000)%nat ->
             Zod.generateImageInputSchema (Obj [ ("prompt", Str p) ])
             = inr {| Zod.gi_prompt := p; Zod.gi_style := "illustration";
                      Zod.gi_size := "1024x1024"; Zod.gi_background := "solid";
                      Zod.gi_output_format := "png"; Zod.gi_output_path := None |}).
Proof.
  split.
  - unfold Zod.generateImageInputSchema. destruct args as [| | | | | |f|]; try discriminate.
    destruct (Zod.promptSchema "prompt" (Js.assoc "prompt" f)) as [i1|a] eqn:E1;
    destruct (Zod.default Zod.styleSchema "illustration" "style" (Js.assoc "style" f))
      as [i2|b] eqn:E2;
    destruct (Zod.default Zod.sizeSchema "1024x1024" "size" (Js.assoc "size" f))
      as [i3|c] eqn:E3;
    destruct (Zod.default Zod.backgroundSchema "solid" "background"
                (Js.assoc "background" f)) as [i4|d] eqn:E4;
    destruct (Zod.default Zod.outputFormatSchema "png" "output_format"
                (Js.assoc "output_format" f)) as [i5|e] eqn:E5;
    destruct (Zod.optional (Zod.string_ 0 None) "output_path" (Js.assoc "output_path" f))
      as [i6|g] eqn:E6;
    intros H; try discriminate H.
    injection H as <-. simpl.
    destruct (string_sound _ _ _ _ _ E1) as (_ & Hlo & Hhi).
    split; [split; [exact Hlo|apply (Hhi 2000%nat eq_refl)]|].
    split.
    { exact (default_enum_sound
               ["illustration"; "3d"; "flat"; "photoreal"; "anime"; "pixel"]
               "illustration" "style" _ b (or_introl eq_refl) E2). }
    split.
    { exact (default_enum_sound ["1024x1024"; "1024x1536"; "1536x1024"]
               "1024x1024" "size" _ c (or_introl eq_refl) E3). }
    split.
    { exact (default_enum_sound ["transparent"; "solid"]
               "solid" "background" _ d (or_intror (or_introl eq_refl)) E4). }
    split.
    { exact (default_enum_sound ["png"; "webp"]
               "png" "output_format" _ e (or_introl eq_refl) E5). }
    intros p ->. exists f. split; [reflexivity|].
    unfold Zod.optional in E6.
    destruct (Js.assoc "output_path" f) eqn:Ea; try discriminate E6.
    simpl in E6. injection E6 as <-. reflexivity.
  - intros p [Hlo Hhi]. unfold Zod.generateImageInputSchema. simpl.
    unfold Zod.promptSchema, Zod.string_.
    destruct (Nat.ltb_spec (String.length p) 1); [lia|].
    destruct (Nat.ltb_spec 2000 (String.length p)); [lia|]. reflexivity.
Qed.

Lemma X19_generate_image_schema_witness :
  Zod.generateImageInputSchema (Obj [ ("prompt", Str "a banana") ])
  = inr {| Zod.gi_prompt := "a banana"; Zod.gi_style := "illustration";
           Zod.gi_size := "1024x1024"; Zod.gi_background := "solid";
           Zod.gi_output_format := "png"; Zod.gi_output_path := None |}.
Proof.
  apply (proj2 (X19_generate_image_schema Undefined
                  {| Zod.gi_prompt := ""; Zod.gi_style := ""; Zod.gi_size := "";
                     Zod.gi_background := ""; Zod.gi_output_format := "";
                     Zod.gi_output_path := None |})
           "a banana").
  simpl. lia.
Defined.

(** X20. The adapter built from the environment is configured exactly when
    [GEMINI_API_KEY] is set to a non-empty string: the base URL cannot
    make it unconfigured, because an unset or empty [GEMINI_BASE_URL] is
    replaced by the default endpoint. *)
Theorem X20_configured_iff_key (env : ProcessEnv) :
  GeminiProvider.isConfigured (geminiConfig env) = true
  <-> exists key, GEMINI_API_KEY env = Some key /\ Str.truthy key = true.
Proof.
  unfold GeminiProvider.isConfigured, geminiConfig, orElse. simpl.
  assert (Hb : Str.truthy
                 match GEMINI_BASE_URL env with
                 | Some s => if Str.truthy s then s
                             else "https://generativelanguage.googleapis.com"
                 | None => "https://generativelanguage.googleapis.com"
                 end = true).
  { destruct (GEMINI_BASE_URL env) as [s|]; [|reflexivity].
    destruct (Str.truthy s) eqn:E; [exact E|reflexivity]. }
  rewrite Hb, andb_true_r.
  destruct (GEMINI_API_KEY env) as [k|].
  - destruct (Str.truthy k) eqn:E.
    + split; [intros _; exists k; auto|intros _; exact E].
    + split; [intros H; discriminate H|].
      intros (k' & Hk & Ht). injection Hk as <-. congruence.
  - split; [intros H; discriminate H|]. intros (k' & Hk & _). discriminate Hk.
Qed.

(** ** Saving what the provider returned *)

(** X21. A download that fails stores nothing: when fetching the image
    URL is rejected, with whatever error, or answered with a non-success
    status, [downloadImage] writes no file.  Once the outputs directory is
    there or has been created, the rejection is passed on as it is, and a
    non-success status is reported as ["Failed to download image: "]
    followed by the status text. *)
Theorem X21_failed_download_writes_nothing
        (env : ProcessEnv) (cwd moduleDir : string) (imageUrl : value)
        (filename : string) (o : Oracle) (w : World) :
  let after := downloadImage env cwd moduleDir imageUrl filename o w in
  let directoryReady :=
    fsAccess o InDownloadImage = true \/ fsMkdir o InDownloadImage = None in
  ((exists e, urlFetch o = inl e)
   \/ (exists response, urlFetch o = inr response /\ ok response = false) ->
   forall p content,
     In (WriteFile p content) (trace (snd after)) -> In (WriteFile p content) (trace w)) /\
  (forall e, urlFetch o = inl e -> directoryReady -> fst after = inl e) /\
  (forall response,
      urlFetch o = inr response -> ok response = false -> directoryReady ->
      fst after = inl (Error ("Failed to download image: " +:+ statusText response))).
Proof.
  intros after directoryReady. subst after directoryReady.
  unfold downloadImage, ensureOutputsDir, bindM, emit, raiseIf, lift, ret, throw.
  split; [|split].
  - intros Hcase p content.
    destruct (fsAccess o InDownloadImage); simpl.
    + destruct Hcase as [(e & Hf)|(response & Hf & Hok)]; rewrite Hf; simpl; rewrite ?Hok;
        simpl; rewrite in_app_iff; simpl; intros [Hin|[Hin|[]]]; auto; discriminate Hin.
    + destruct (fsMkdir o InDownloadImage); simpl.
      * rewrite in_app_iff; simpl; intros [Hin|[Hin|[]]]; auto; discriminate Hin.
      * destruct Hcase as [(e & Hf)|(response & Hf & Hok)]; rewrite Hf; simpl; rewrite ?Hok;
          simpl; rewrite !in_app_iff; simpl;
          intros [[Hin|[Hin|[]]]|[Hin|[]]]; auto; discriminate Hin.
  - intros e Hf [Ha|Hm].
    + rewrite Ha. simpl. rewrite Hf. reflexivity.
    + destruct (fsAccess o InDownloadImage); simpl; rewrite ?Hm; simpl; rewrite Hf;
        reflexivity.
  - intros response Hf Hok [Ha|Hm].
    + rewrite Ha. simpl. rewrite Hf. simpl. rewrite Hok. reflexivity.
    + destruct (fsAccess o InDownloadImage); simpl; rewrite ?Hm; simpl; rewrite Hf; simpl;
        rewrite Hok; reflexivity.
Qed.

(** An image URL that cannot be parsed: [fetch] rejects with a
    [TypeError] of its own. *)
Definition unparsedUrl : Oracle :=
  {| dateNow := 5;
     isoString := "2024-05-06T07:08:09.123Z";
     randomHex := "0a1b2c3d";
     isUrl := fun _ => true;
     apiFetch := inl (TypeError "fetch failed");
     urlFetch := inl (TypeError "Failed to parse URL from http//cdn");
     fsAccess := fun _ => false;
     fsMkdir := fun _ => None;
     fsWriteFile := fun _ => None |}.

Lemma X21_failed_download_writes_nothing_witness :
  fst (downloadImage noEnv "/" "srv/dist/utils" (Str "http//cdn") "a.png"
         unparsedUrl freshWorld)
  = inl (TypeError "Failed to parse URL from http//cdn") /\
  (forall p content,
      In (WriteFile p content)
         (trace (snd (downloadImage noEnv "/" "srv/dist/utils" (Str "http//cdn") "a.png"
                        unparsedUrl freshWorld))) ->
      In (WriteFile p content) (trace freshWorld)).
Proof.
  split.
  - apply (proj1 (proj2 (X21_failed_download_writes_nothing noEnv "/" "srv/dist/utils"
                           (Str "http//cdn") "a.png" unparsedUrl freshWorld))).
    + reflexivity.
    + right. reflexivity.
  - apply (proj1 (X21_failed_download_writes_nothing noEnv "/" "srv/dist/utils"
                    (Str "http//cdn") "a.png" unparsedUrl freshWorld)).
    left. eexists. reflexivity.
Defined.

(** What the icon schema lets through. *)
Lemma generateIconInputSchema_sound (args : value) (input : Zod.GenerateIconInput) :
  Zod.generateIconInputSchema args = inr input ->
  In (Zod.gc_theme input) ["minimal"; "playful"; "corporate"] /\
  In (Zod.gc_size input) ["256x256"; "512x512"] /\
  In (Zod.gc_output_format input) ["png"; "webp"].
Proof.
  unfold Zod.generateIconInputSchema. destruct args as [| | | | | |f|]; try discriminate.
  destruct (Zod.promptSchema "concept" (Js.assoc "concept" f)) as [?|a]; [discriminate|].
  destruct (Zod.default Zod.themeSchema "minimal" "theme" (Js.assoc "theme" f))
    as [?|b] eqn:E2; [discriminate|].
  destruct (Zod.default Zod.iconSizeSchema "512x512" "size" (Js.assoc "size" f))
    as [?|c] eqn:E3; [discriminate|].
  destruct (Zod.default Zod.outputFormatSchema "png" "output_format"
              (Js.assoc "output_format" f)) as [?|d] eqn:E4; [discriminate|].
  intros H. injection H as <-. simpl. split; [|split].
  - exact (default_enum_sound ["minimal"; "playful"; "corporate"] "minimal" "theme" _ b
             (or_introl eq_refl) E2).
  - exact (default_enum_sound ["256x256"; "512x512"] "512x512" "size" _ c
             (or_intror (or_introl eq_refl)) E3).
  - exact (default_enum_sound ["png"; "webp"] "png" "output_format" _ d
             (or_introl eq_refl) E4).
Qed.

(** X22. An icon request that goes well, end to end.  The provider is
    asked for the prompt built from the description of the theme and the
    concept, in flat style on a transparent background.  Its base64 answer
    is written, data-URL prefix removed, under the generated name in the
    outputs directory, which is created first when it is not there.  The
    response is one text item with the payload [ok: true], the path of
    that file relative to the project root, the MIME type [image/png] or
    [image/webp] of the requested format, and as width and height the side
    of the requested size, 256 or 512, not what the provider returned. *)
Theorem X22_icon_request_end_to_end
        (env : ProcessEnv) (cwd moduleDir : string)
        (zodMessage : list Zod.Issue -> string)
        (args : value) (input : Zod.GenerateIconInput) (description : string)
        (provider : ImageProvider)
        (o : Oracle) (w w1 : World) (r : ImageGenerationResult) (d p : string) :
  Zod.generateIconInputSchema args = inr input ->
  In (Zod.gc_theme input, description)
     [ ("minimal", "minimalist, clean lines, simple shapes, modern");
       ("playful", "fun, colorful, rounded shapes, friendly");
       ("corporate", "professional, sleek, business-like, polished") ] ->
  generateImage provider
    {| prompt := "A " +:+ description +:+ " icon representing: " +:+ Zod.gc_concept input
                 +:+ ". Icon design, centered, clean background.";
       style := Some "flat";
       size := Some (Zod.gc_size input);
       background := Some "transparent";
       format := Some (Zod.gc_output_format input) |} o w = (inr r, w1) ->
  dataFormat r = base64 -> data r = Str d ->
  fsAccess o InWriteBase64Image = true \/ fsMkdir o InWriteBase64Image = None ->
  safeJoinOutputs env cwd moduleDir
    ("generate_icon_" +:+ Str.take 19 (Str.map colonOrPeriodToDash (isoString o))
     +:+ "_" +:+ randomHex o +:+ "." +:+ Zod.gc_output_format input) = inr p ->
  fsWriteFile o p = None ->
  let side := Num.of_Z (if String.eqb (Zod.gc_size input) "256x256" then 256 else 512) in
  handleGenerateIcon env cwd moduleDir zodMessage args provider o w
  = (inr {| content :=
              [ {| ctype := "text";
                   ctext :=
                     Stringify
                       (Obj [ ("ok", Bool true);
                              ("file_path",
                                Str (Path.relative (PROJECT_ROOT cwd moduleDir) p));
                              ("mime_type", Str ("image/" +:+ Zod.gc_output_format input));
                              ("width", Number side);
                              ("height", Number side) ])
                       true |} ] |},
     {| rateLimitMap := rateLimitMap w1;
        trace := trace w1
                 ++ (if fsAccess o InWriteBase64Image then []
                     else [Mkdir (OUTPUTS_PATH env cwd moduleDir)])
                 ++ [WriteFile p (BufferFromBase64 (stripDataUrlPrefix d))] |}).
Proof.
  intros Hs Hd Hg Hf Hdata Hdir Hp Hw side. subst side.
  destruct (generateIconInputSchema_sound args input Hs) as (_ & Hsize & Hfmt).
  assert (Hdesc : themeDescriptions (Zod.gc_theme input) = description).
  { simpl in Hd. destruct Hd as [H|[H|[H|[]]]]; injection H as H1 H2;
      rewrite <- H1, <- H2; reflexivity. }
  unfold handleGenerateIcon, bindM, lift, Zod.parse. rewrite Hs.
  rewrite Hdesc, Hg.
  unfold saveImage. rewrite Hf, Hdata.
  change (safeJoinOutputs env cwd moduleDir
            (generateFilename "generate_icon" (Zod.gc_output_format input) o) = inr p) in Hp.
  unfold writeBase64Image, ensureOutputsDir, getOutputsDir, bindM, emit, raiseIf, lift, ret.
  assert (Hout : forall w0 : World,
             (let '(w2, h2) := parseSize (Zod.gc_size input) in
              fun w' : World =>
                (inr (textResponse
                        (imageOutput cwd moduleDir p (Zod.gc_output_format input)
                           (Number w2) (optionalNumber h2)) true) : result ToolResponse, w'))
               w0
             = (inr {| content :=
                         [ {| ctype := "text";
                              ctext :=
                                Stringify
                                  (Obj [ ("ok", Bool true);
                                         ("file_path",
                                           Str (Path.relative (PROJECT_ROOT cwd moduleDir) p));
                                         ("mime_type",
                                           Str ("image/" +:+ Zod.gc_output_format input));
                                         ("width",
                                           Number (Num.of_Z
                                                     (if String.eqb (Zod.gc_size input) "256x256"
                                                      then 256 else 512)));
                                         ("height",
                                           Number (Num.of_Z
                                                     (if String.eqb (Zod.gc_size input) "256x256"
                                                      then 256 else 512))) ])
                                  true |} ] |}, w0)).
  { intros w0. simpl in Hsize, Hfmt.
    destruct Hsize as [<-|[<-|[]]]; destruct Hfmt as [<-|[<-|[]]]; reflexivity. }
  destruct Hdir as [Ha|Hm].
  - rewrite Ha. simpl. rewrite Hp. simpl. rewrite Hw. simpl. apply Hout.
  - destruct (fsAccess o InWriteBase64Image); simpl; rewrite ?Hm; simpl; rewrite Hp; simpl;
      rewrite Hw; simpl; rewrite Hout; rewrite <- ?app_assoc; reflexivity.
Qed.

Lemma X22_icon_request_end_to_end_witness :
  let env := withKey noEnv "k" in
  let args := Obj [ ("concept", Str "a rocket"); ("theme", Str "playful");
                    ("size", Str "256x256"); ("output_format", Str "webp") ] in
  exists w',
    handleGenerateIcon env "/" "srv/dist/utils" (fun _ => "invalid") args
                       (imageProvider env) (answering 5 "iVBORw0KGgo=") freshWorld
    = (inr {| content :=
                [ {| ctype := "text";
                     ctext :=
                       Stringify
                         (Obj [ ("ok", Bool true);
                                ("file_path",
                                  Str "outputs/generate_icon_2024-05-06T07-08-09_0a1b2c3d.webp");
                                ("mime_type", Str "image/webp");
                                ("width", Number (Num.of_Z 256));
                                ("height", Number (Num.of_Z 256)) ])
                         true |} ] |}, w').
Proof.
  intros env args. eexists.
  apply (X22_icon_request_end_to_end env "/" "srv/dist/utils" (fun _ => "invalid") args
           {| Zod.gc_concept := "a rocket"; Zod.gc_theme := "playful";
              Zod.gc_size := "256x256"; Zod.gc_output_format := "webp" |}
           "fun, colorful, rounded shapes, friendly"
           (imageProvider env) (answering 5 "iVBORw0KGgo=") freshWorld
           {| rateLimitMap := ∅;
              trace :=
                [ FetchApi
                    "https://generativelanguage.googleapis.com/v1beta/models/gemini-2.5-flash-image:generateContent"
                    [ ("Content-Type", "application/json"); ("x-goog-api-key", "k") ]
                    (GeminiProvider.buildRequestBody
                       {| prompt := "A fun, colorful, rounded shapes, friendly icon representing: a rocket. Icon design, centered, clean background.";
                          style := Some "flat"; size := Some "256x256";
                          background := Some "transparent"; format := Some "webp" |}) ] |}
           {| data := Str "iVBORw0KGgo="; dataFormat := base64;
              width := Num.of_Z 256; height := Some (Num.of_Z 256) |}
           "iVBORw0KGgo="
           "/srv/outputs/generate_icon_2024-05-06T07-08-09_0a1b2c3d.webp").
  - reflexivity.
  - simpl. tauto.
  - reflexivity.
  - reflexivity.
  - reflexivity.
  - left. reflexivity.
  - reflexivity.
  - reflexivity.
Defined.

(** X23. From the tools, the request to the provider only ever asks for a
    square, 2:3 or 3:2 image of tier 1K or 2K: for every size that a tool
    schema admits, these are the aspect ratio and the size tier derived
    from it, so the 16:9, 9:16, 4:3, 3:4 and 4K answers of the derivation
    cannot be reached through a tool call. *)
Theorem X23_sizes_reachable_from_tools (size : string) :
  In size ["1024x1024"; "1024x1536"; "1536x1024"; "256x256"; "512x512"] ->
  let width := fst (parseSize size) in
  let height := toNumber (snd (parseSize size)) in
  In (GeminiProvider.getAspectRatio width height, GeminiProvider.getImageSize width height)
     [ ("1:1", "1K"); ("2:3", "2K"); ("3:2", "2K") ].
Proof.
  intros H. simpl in H.
  destruct H as [<-|[<-|[<-|[<-|[<-|[]]]]]]; vm_compute; auto.
Qed.

Lemma X23_sizes_reachable_from_tools_witness :
  In (GeminiProvider.getAspectRatio (fst (parseSize "1024x1536"))
                                    (toNumber (snd (parseSize "1024x1536"))),
      GeminiProvider.getImageSize (fst (parseSize "1024x1536"))
                                  (toNumber (snd (parseSize "1024x1536"))))
     [ ("1:1", "1K"); ("2:3", "2K"); ("3:2", "2K") ].
Proof.
  apply (X23_sizes_reachable_from_tools "1024x1536"). simpl. auto.
Defined.

(** ** The output path of [generate_image] *)

(** X24. The output path is checked before the provider is contacted: a
    [generate_image] call whose non-empty [output_path] fails
    [validateOutputPath] is answered with the path error, uses one unit of
    quota, and sends no request and writes no file. *)
Theorem X24_refused_path_costs_no_request
        (env : ProcessEnv) (cwd moduleDir : string)
        (zodMessage : list Zod.Issue -> string)
        (args : value) (input : Zod.GenerateImageInput) (p : string) (e : exn)
        (o : Oracle) (w : World) :
  Zod.generateImageInputSchema args = inr input ->
  Zod.gi_output_path input = Some p -> Str.truthy p = true ->
  validateOutputPath env cwd moduleDir p = inl e ->
  atCapacity env (inWindow (dateNow o) (timestampsOf w "generate_image")) = false ->
  callTool env cwd moduleDir zodMessage "generate_image" args o w
  = (failure "Invalid output path: must be within outputs directory",
     recorded "generate_image" (dateNow o) w) /\
  trace (snd (callTool env cwd moduleDir zodMessage "generate_image" args o w)) = trace w.
Proof.
  intros Hs Hp Ht Hv Hq.
  assert (Hcall : callTool env cwd moduleDir zodMessage "generate_image" args o w
                  = (failure "Invalid output path: must be within outputs directory",
                     recorded "generate_image" (dateNow o) w)).
  { unfold callTool. rewrite callToolWith_dispatch, dispatch_under by exact Hq.
    unfold route. simpl.
    rewrite (handleGenerateImage_bad_path env cwd moduleDir zodMessage args input p e
               _ o _ Hs Hp Ht Hv).
    rewrite (validateOutputPath_error env cwd moduleDir p e Hv). reflexivity. }
  split; [exact Hcall|]. rewrite Hcall. reflexivity.
Qed.

Lemma X24_refused_path_costs_no_request_witness :
  callTool (withKey noEnv "k") "/" "srv/dist/utils" (fun _ => "invalid") "generate_image"
           (Obj [ ("prompt", Str "a banana"); ("output_path", Str "/tmp/banana.png") ])
           (answering 5 "QUJD") freshWorld
  = (failure "Invalid output path: must be within outputs directory",
     recorded "generate_image" 5 freshWorld).
Proof.
  apply (X24_refused_path_costs_no_request
           (withKey noEnv "k") "/" "srv/dist/utils" (fun _ => "invalid")
           (Obj [ ("prompt", Str "a banana"); ("output_path", Str "/tmp/banana.png") ])
           {| Zod.gi_prompt := "a banana"; Zod.gi_style := "illustration";
              Zod.gi_size := "1024x1024"; Zod.gi_background := "solid";
              Zod.gi_output_format := "png"; Zod.gi_output_path := Some "/tmp/banana.png" |}
           "/tmp/banana.png"
           (Error "Invalid output path: must be within outputs directory")
           (answering 5 "QUJD") freshWorld).
  - reflexivity.
  - reflexivity.
  - reflexivity.
  - reflexivity.
  - reflexivity.
Defined.

(** X25. An empty [output_path] counts as no [output_path]: two accepted
    [generate_image] requests that differ only in that one has the empty
    string where the other has nothing are handled alike, with a generated
    file name and without any path check. *)
Theorem X25_empty_output_path_is_absent
        (env : ProcessEnv) (cwd moduleDir : string)
        (zodMessage : list Zod.Issue -> string)
        (args1 args2 : value) (input : Zod.GenerateImageInput)
        (provider : ImageProvider) (o : Oracle) (w : World) :
  Zod.gi_output_path input = None ->
  Zod.generateImageInputSchema args1 = inr input ->
  Zod.generateImageInputSchema args2
  = inr {| Zod.gi_prompt := Zod.gi_prompt input; Zod.gi_style := Zod.gi_style input;
           Zod.gi_size := Zod.gi_size input; Zod.gi_background := Zod.gi_background input;
           Zod.gi_output_format := Zod.gi_output_format input;
           Zod.gi_output_path := Some "" |} ->
  handleGenerateImage env cwd moduleDir zodMessage args2 provider o w
  = handleGenerateImage env cwd moduleDir zodMessage args1 provider o w.
Proof.
  intros Hn H1 H2. unfold handleGenerateImage, bindM, lift, Zod.parse.
  rewrite H1, H2, Hn. reflexivity.
Qed.

Lemma X25_empty_output_path_is_absent_witness :
  handleGenerateImage (withKey noEnv "k") "/" "srv/dist/utils" (fun _ => "invalid")
                      (Obj [ ("prompt", Str "a banana"); ("output_path", Str "") ])
                      (imageProvider (withKey noEnv "k")) (answering 5 "QUJD") freshWorld
  = handleGenerateImage (withKey noEnv "k") "/" "srv/dist/utils" (fun _ => "invalid")
                        (Obj [ ("prompt", Str "a banana") ])
                        (imageProvider (withKey noEnv "k")) (answering 5 "QUJD") freshWorld.
Proof.
  apply (X25_empty_output_path_is_absent
           (withKey noEnv "k") "/" "srv/dist/utils" (fun _ => "invalid")
           (Obj [ ("prompt", Str "a banana") ])
           (Obj [ ("prompt", Str "a banana"); ("output_path", Str "") ])
           {| Zod.gi_prompt := "a banana"; Zod.gi_style := "illustration";
              Zod.gi_size := "1024x1024"; Zod.gi_background := "solid";
              Zod.gi_output_format := "png"; Zod.gi_output_path := None |}
           (imageProvider (withKey noEnv "k")) (answering 5 "QUJD") freshWorld).
  - reflexivity.
  - reflexivity.
  - reflexivity.
Defined.

(** ** Where a call writes *)

